(** * Order numbering, order creation and receipt printing of the
      self-service ordering kiosk.

    A shallow embedding of
    - [services/orderFoodService.js]: [generateOrderNumber] and [createOrder];
    - the printer service: [printText], [openPort], [closePort],
      [queryPrinterStatus] and [printOrderReceipt] with its local helpers
      [truncateText], [getDisplayWidth], [leftAlign], [centerAlign],
      [rightAlign], [buildTableRow].

    Asynchronous functions run to completion one after the other (the server
    is a single event loop), so an [async] function is a state transformer
    that either returns a value or throws. *)

From Stdlib Require Import ZArith Lia Ascii.
From Stdlib Require QArith_base.
From stdpp Require Import base option list gmap strings.

Local Open Scope Z_scope.

(** ** JavaScript values and string primitives used by the order service *)

Module JS.

(** A JavaScript number as the order service uses it: an integer, or [NaN].
    The embedding is exact on the safe integers (below 2^53 in absolute
    value), where JavaScript arithmetic and [String] agree with [Z]. *)
Inductive num := NaN | Num (z : Z).

(** The scalars a settings value decodes to. The settings read by the code
    below hold JSON-encoded scalars; numbers are integers, arrays and
    objects do not occur. *)
Inductive jsval :=
| JNull
| JBool (b : bool)
| JNum (z : Z)
| JStr (s : string).

(** The text of a settings row, up to what [JSON.parse] makes of it:
    [Malformed] stands for every text on which [JSON.parse] throws, [Json v]
    for a text that decodes to the scalar [v]. *)
Inductive text := Malformed | Json (v : jsval).

Definition JSON_parse (t : text) : option jsval :=
  match t with Malformed => None | Json v => Some v end.

Definition JSON_stringify (v : jsval) : text := Json v.

Definition digit_char (d : Z) : ascii := ascii_of_nat (48 + Z.to_nat d).

Fixpoint digits_fuel (fuel : nat) (n : Z) (acc : string) : string :=
  match fuel with
  | O => acc
  | S fuel' =>
      let acc' := String (digit_char (n mod 10)) acc in
      if n <? 10 then acc' else digits_fuel fuel' (n / 10) acc'
  end.

(** Decimal digits of a natural number. *)
Definition digits (n : Z) : string :=
  digits_fuel (S (Z.to_nat (Z.log2 n))) n "".

(** [String(n)] for an integer-valued number. *)
Definition String_Z (n : Z) : string :=
  if n <? 0 then String "-" (digits (- n)) else digits n.

Definition String_num (n : num) : string :=
  match n with NaN => "NaN" | Num z => String_Z z end.

Definition is_digit (c : ascii) : bool :=
  let n := nat_of_ascii c in (48 <=? n)%nat && (n <=? 57)%nat.

Fixpoint all_digits (s : string) : bool :=
  match s with
  | EmptyString => true
  | String c s' => is_digit c && all_digits s'
  end.

Fixpoint replicate_char (n : nat) (c : ascii) : string :=
  match n with O => "" | S n' => String c (replicate_char n' c) end.

(** [s.padStart(n, c)] for a one-character filler. *)
Definition padStart (n : nat) (c : ascii) (s : string) : string :=
  replicate_char (n - String.length s) c +:+ s.

(** [s.slice(0, n)]. *)
Definition slice0 (n : nat) (s : string) : string := String.substring 0 n s.

(** [s.slice(-n)]: the last [n] characters, or all of [s] when it is shorter. *)
Definition slice_last (n : nat) (s : string) : string :=
  String.substring (String.length s - n) n s.

(** *** [parseInt] *)

(** The white space that [parseInt] skips, among the characters a [string]
    here can hold (codes 0 to 255): tab, line feed, vertical tab, form feed,
    carriage return, space and no-break space. *)
Definition is_space (c : ascii) : bool :=
  let n := nat_of_ascii c in
  ((9 <=? n)%nat && (n <=? 13)%nat) || (n =? 32)%nat || (n =? 160)%nat.

Fixpoint skip_spaces (s : string) : string :=
  match s with
  | String c s' => if is_space c then skip_spaces s' else s
  | EmptyString => s
  end.

Definition digit_value (radix : Z) (c : ascii) : option Z :=
  let n := Z.of_nat (nat_of_ascii c) in
  let v :=
    if (48 <=? n) && (n <=? 57) then Some (n - 48)
    else if (97 <=? n) && (n <=? 122) then Some (n - 87)
    else if (65 <=? n) && (n <=? 90) then Some (n - 55)
    else None in
  match v with
  | Some d => if d <? radix then Some d else None
  | None => None
  end.

(** The longest prefix of digits of the radix, read as a number; [None] when
    the prefix is empty. *)
Fixpoint read_digits (radix : Z) (s : string) (acc : option Z) : option Z :=
  match s with
  | String c s' =>
      match digit_value radix c with
      | Some d => read_digits radix s' (Some (default 0 acc * radix + d))
      | None => acc
      end
  | EmptyString => acc
  end.

Definition parseInt_string (s : string) : num :=
  let s1 := skip_spaces s in
  let '(neg, s2) :=
    match s1 with
    | String "-" r => (true, r)
    | String "+" r => (false, r)
    | _ => (false, s1)
    end in
  let '(radix, s3) :=
    match s2 with
    | String "0" (String "x" r) => (16, r)
    | String "0" (String "X" r) => (16, r)
    | _ => (10, s2)
    end in
  match read_digits radix s3 None with
  | Some v => Num (if neg then - v else v)
  | None => NaN
  end.

(** [parseInt(v)]: the argument is first converted to a string. For a
    number this gives the number back as long as [String] prints it in
    decimal notation, which it does on the safe integers; the theorems whose
    numbers can grow state that bound. *)
Definition parseInt (v : jsval) : num :=
  match v with
  | JNum z => Num z
  | JStr s => parseInt_string s
  | JNull | JBool _ => NaN
  end.

(** [n || 0] on numbers: [NaN] and [0] are falsy. *)
Definition or_zero (n : num) : Z :=
  match n with NaN => 0 | Num z => z end.

Example parseInt_examples :
  parseInt (JStr "12") = Num 12 /\ parseInt (JStr " -7px") = Num (-7) /\
  parseInt (JStr "0x1f") = Num 31 /\ parseInt (JStr "A01") = NaN /\
  parseInt (JBool true) = NaN.
Proof. repeat split; reflexivity. Qed.

Example String_examples :
  String_Z 0 = "0" /\ String_Z 1029 = "1029" /\ String_Z (-5) = "-5" /\
  padStart 4 "0" (String_Z 7) = "0007" /\
  padStart 4 "0" (String_Z 12345) = "12345" /\
  slice0 3 (padStart 3 "0" (String_Z 1234)) = "123" /\
  slice_last 8 (String_Z 1759118439092) = "18439092" /\
  slice_last 8 "123" = "123".
Proof. repeat split; reflexivity. Qed.

(** *** Digits, padding and slicing *)

Lemma length_append (s1 s2 : string) :
  String.length (s1 +:+ s2) = (String.length s1 + String.length s2)%nat.
Proof. induction s1 as [|c s1 IH]; simpl; [reflexivity | f_equal; exact IH]. Qed.

Lemma all_digits_append (s1 s2 : string) :
  all_digits (s1 +:+ s2) = all_digits s1 && all_digits s2.
Proof.
  induction s1 as [|c s1 IH]; simpl; [reflexivity|].
  rewrite IH. apply andb_assoc.
Qed.

Lemma is_digit_digit_char d : 0 <= d < 10 -> is_digit (digit_char d) = true.
Proof.
  intros Hd. unfold digit_char.
  assert (H : exists k, (k < 10)%nat /\ Z.to_nat d = k) by (exists (Z.to_nat d); lia).
  destruct H as (k & Hk & ->).
  do 10 (destruct k as [|k]; [reflexivity|]). lia.
Qed.

Lemma digits_fuel_all_digits fuel :
  forall n acc, 0 <= n -> all_digits acc = true ->
  all_digits (digits_fuel fuel n acc) = true.
Proof.
  induction fuel as [|fuel IH]; intros n acc Hn Hacc; cbn [digits_fuel]; [exact Hacc|].
  assert (Hc : all_digits (String (digit_char (n mod 10)) acc) = true).
  { cbn [all_digits]. rewrite is_digit_digit_char, Hacc; [reflexivity|].
    apply Z.mod_pos_bound. lia. }
  destruct (n <? 10); [exact Hc|].
  apply IH; [apply Z.div_pos; lia | exact Hc].
Qed.

Lemma digits_fuel_length_mono fuel :
  forall n acc, (String.length acc <= String.length (digits_fuel fuel n acc))%nat.
Proof.
  induction fuel as [|fuel IH]; intros n acc; cbn [digits_fuel]; [lia|].
  destruct (n <? 10); [cbn; lia|].
  etransitivity; [|apply IH]. cbn. lia.
Qed.

(** A number below [10 ^ (k + 1)] has at most [k + 1] digits. *)
Lemma digits_fuel_length_le fuel :
  forall n acc k, n < 10 ^ Z.of_nat (S k) ->
  (String.length (digits_fuel fuel n acc) <= String.length acc + S k)%nat.
Proof.
  induction fuel as [|fuel IH]; intros n acc k Hn; cbn [digits_fuel]; [lia|].
  destruct (n <? 10) eqn:E; [cbn; lia|]. apply Z.ltb_ge in E.
  destruct k as [|k]; [cbn in Hn; lia|].
  specialize (IH (n / 10) (String (digit_char (n mod 10)) acc) k).
  cbn [String.length] in IH. etransitivity; [apply IH|lia].
  rewrite Nat2Z.inj_succ, Z.pow_succ_r in Hn by lia.
  apply Z.div_lt_upper_bound; lia.
Qed.

(** A number from [10 ^ k] on has at least [k + 1] digits, given the fuel. *)
Lemma digits_fuel_length_ge fuel :
  forall n acc k, 10 ^ Z.of_nat k <= n -> (k < fuel)%nat ->
  (String.length acc + S k <= String.length (digits_fuel fuel n acc))%nat.
Proof.
  induction fuel as [|fuel IH]; intros n acc k Hn Hk; [lia|]. cbn [digits_fuel].
  destruct (n <? 10) eqn:E.
  - apply Z.ltb_lt in E. destruct k as [|k]; [cbn; lia|].
    rewrite Nat2Z.inj_succ, Z.pow_succ_r in Hn by lia.
    assert (0 < 10 ^ Z.of_nat k) by (apply Z.pow_pos_nonneg; lia). lia.
  - apply Z.ltb_ge in E. destruct k as [|k].
    + pose proof (digits_fuel_length_mono fuel (n / 10)
                    (String (digit_char (n mod 10)) acc)) as H.
      cbn [String.length] in H. lia.
    + specialize (IH (n / 10) (String (digit_char (n mod 10)) acc) k).
      cbn [String.length] in IH. etransitivity; [|apply IH]; [lia| |lia].
      rewrite Nat2Z.inj_succ, Z.pow_succ_r in Hn by lia.
      apply Z.div_le_lower_bound; lia.
Qed.

Lemma digit_value_digit_char d : 0 <= d < 10 -> digit_value 10 (digit_char d) = Some d.
Proof.
  intros Hd. unfold digit_char.
  assert (H : exists k, (k < 10)%nat /\ d = Z.of_nat k) by (exists (Z.to_nat d); lia).
  destruct H as (k & Hk & ->). rewrite Nat2Z.id.
  do 10 (destruct k as [|k]; [reflexivity|]). lia.
Qed.

(** The fuel of [digits] is enough: read back, the digits give the number. *)
Lemma read_digits_fuel fuel :
  forall n acc, 0 <= n < 2 ^ Z.of_nat (S fuel) ->
  read_digits 10 (digits_fuel (S fuel) n acc) None = read_digits 10 acc (Some n).
Proof.
  induction fuel as [|fuel IH]; intros n acc Hn.
  - cbn [digits_fuel]. change (2 ^ Z.of_nat 1) with 2 in Hn.
    replace (n <? 10) with true by (symmetry; apply Z.ltb_lt; lia).
    cbn [read_digits]. rewrite Z.mod_small by lia.
    rewrite digit_value_digit_char by lia. reflexivity.
  - change (digits_fuel (S (S fuel)) n acc)
      with (if n <? 10 then String (digit_char (n mod 10)) acc
            else digits_fuel (S fuel) (n / 10) (String (digit_char (n mod 10)) acc)).
    destruct (n <? 10) eqn:E.
    + apply Z.ltb_lt in E. cbn [read_digits]. rewrite Z.mod_small by lia.
      rewrite digit_value_digit_char by lia. reflexivity.
    + apply Z.ltb_ge in E. rewrite (IH (n / 10)).
      * cbn [read_digits]. rewrite digit_value_digit_char by (apply Z.mod_pos_bound; lia).
        cbn [default]. unfold id.
        assert (Hdm : n = 10 * (n / 10) + n mod 10) by (apply Z.div_mod; lia).
        replace (n / 10 * 10 + n mod 10) with n by lia. reflexivity.
      * split; [apply Z.div_pos; lia|].
        rewrite (Nat2Z.inj_succ (S fuel)), Z.pow_succ_r in Hn by lia.
        apply Z.div_lt_upper_bound; lia.
Qed.

Lemma read_digits_digits n : 0 <= n -> read_digits 10 (digits n) None = Some n.
Proof.
  intros Hn. unfold digits. rewrite read_digits_fuel; [reflexivity|].
  split; [exact Hn|]. rewrite Nat2Z.inj_succ, Z2Nat.id by apply Z.log2_nonneg.
  destruct (Z.eq_dec n 0) as [->|Hne]; [reflexivity|].
  apply Z.log2_spec. lia.
Qed.

Lemma String_Z_all_digits n : 0 <= n -> all_digits (String_Z n) = true.
Proof.
  intros Hn. unfold String_Z. destruct (n <? 0) eqn:E; [apply Z.ltb_lt in E; lia|].
  apply digits_fuel_all_digits; [exact Hn | reflexivity].
Qed.

Lemma String_Z_length_le n k :
  0 <= n < 10 ^ Z.of_nat (S k) -> (1 <= String.length (String_Z n) <= S k)%nat.
Proof.
  intros [Hn Hk]. unfold String_Z. destruct (n <? 0) eqn:E; [apply Z.ltb_lt in E; lia|].
  unfold digits. split.
  - cbn [digits_fuel]. destruct (n <? 10); [cbn; lia|].
    etransitivity; [|apply digits_fuel_length_mono]. cbn. lia.
  - apply (digits_fuel_length_le _ n "" k Hk).
Qed.

(** A year from 1000 to 9999 is written with four digits. *)
Lemma String_Z_four_digits n :
  1000 <= n <= 9999 -> String.length (String_Z n) = 4%nat.
Proof.
  intros [Hlo Hhi]. unfold String_Z. destruct (n <? 0) eqn:E; [apply Z.ltb_lt in E; lia|].
  unfold digits.
  pose proof (digits_fuel_length_le (S (Z.to_nat (Z.log2 n))) n "" 3) as Hle.
  pose proof (digits_fuel_length_ge (S (Z.to_nat (Z.log2 n))) n "" 3) as Hge.
  assert (Hlog : 9 <= Z.log2 n).
  { change 9 with (Z.log2 1000). apply Z.log2_le_mono. lia. }
  cbn [String.length] in Hle, Hge.
  assert ((3 < S (Z.to_nat (Z.log2 n)))%nat) by lia.
  change (10 ^ Z.of_nat 4) with 10000 in Hle. change (10 ^ Z.of_nat 3) with 1000 in Hge.
  lia.
Qed.

Lemma replicate_char_length n c : String.length (replicate_char n c) = n.
Proof. induction n as [|n IH]; cbn; [reflexivity | rewrite IH; reflexivity]. Qed.

Lemma replicate_char_all_digits n : all_digits (replicate_char n "0") = true.
Proof. induction n as [|n IH]; cbn; [reflexivity | exact IH]. Qed.

Lemma padStart_length n c s :
  String.length (padStart n c s) = Nat.max n (String.length s).
Proof. unfold padStart. rewrite length_append, replicate_char_length. lia. Qed.

Lemma padStart_all_digits n s :
  all_digits s = true -> all_digits (padStart n "0" s) = true.
Proof.
  intros H. unfold padStart. rewrite all_digits_append, replicate_char_all_digits, H.
  reflexivity.
Qed.

Lemma substring0_length n : forall s,
  (n <= String.length s)%nat -> String.length (String.substring 0 n s) = n.
Proof.
  induction n as [|n IH]; intros s Hs.
  - destruct s; reflexivity.
  - destruct s as [|c s]; cbn in Hs; [lia|]. cbn. rewrite IH by lia. reflexivity.
Qed.

Lemma substring0_all_digits n : forall s,
  all_digits s = true -> all_digits (String.substring 0 n s) = true.
Proof.
  induction n as [|n IH]; intros s Hs.
  - destruct s; reflexivity.
  - destruct s as [|c s]; [reflexivity|]. cbn in Hs. apply andb_prop in Hs as [Hc Hs].
    cbn. rewrite Hc, IH by exact Hs. reflexivity.
Qed.

End JS.

(** ** The order service: [services/orderFoodService.js] *)

Module OrderService.
Import JS.

(** What an awaited call can throw. The messages of the three validation
    errors are, in this order: order lines must not be empty; some dishes do
    not exist or are no longer sold; the payment method does not exist or is
    disabled. [TypeError] is the error of reading a property of [undefined],
    [TransactionFinished] the one of rolling back a transaction that was
    committed or whose commit was rejected. *)
Inductive error :=
| DbError (op : nat)
| SyntaxError
| EmptyItems
| PartialItems
| PaymentMethodInactive
| TypeError
| TransactionFinished.

Inductive outcome (A : Type) :=
| Ok (a : A)
| Throw (e : error).
Arguments Ok {A} a.
Arguments Throw {A} e.

(** [new Date()] read through its local-time getters. *)
Record Clock := {
  getFullYear : Z;
  getMonth : Z;
  getDate : Z;
  getHours : Z;
  getMinutes : Z;
  getSeconds : Z
}.

(** What one call reads from the runtime: the clock, the value of
    [Math.floor(Math.random() * 100)] and of [Date.now()]. *)
Record Env := {
  now : Clock;
  random100 : Z;
  Date_now : Z
}.

Record Meal := {
  name_zh : string;
  name_en : string;
  is_active : bool
}.

Record PaymentMethod := {
  pm_name_zh : string;
  pm_name_en : string;
  pm_is_active : bool
}.

(** A line of the request: [{mealId, quantity, price}]. The id is the JSON
    scalar that was sent: a client can send the number 5 or the text "5". *)
Record Item (amount : Type) := {
  mealId : jsval;
  quantity : Z;
  price : amount
}.
Arguments mealId {amount} _.
Arguments quantity {amount} _.
Arguments price {amount} _.

(** The request; [storeId] and [orderType] may be left undefined. *)
Record OrderData (amount : Type) := {
  items : list (Item amount);
  totalAmount : amount;
  storeId : option Z;
  orderType : option Z;
  paymentMethodId : option Z
}.
Arguments items {amount} _.
Arguments totalAmount {amount} _.
Arguments storeId {amount} _.
Arguments orderType {amount} _.
Arguments paymentMethodId {amount} _.

(** A row of the orders table. The columns that [createOrder] fills with
    constants (status paid, print status and message null) are left out. *)
Record OrderRow (amount : Type) := {
  order_id : Z;
  order_number : string;
  store_id : Z;
  total_amount : amount;
  order_type : Z;
  payment_method_id : option Z;
  daily_sequence : Z
}.
Arguments order_id {amount} _.
Arguments order_number {amount} _.
Arguments store_id {amount} _.
Arguments total_amount {amount} _.
Arguments order_type {amount} _.
Arguments payment_method_id {amount} _.
Arguments daily_sequence {amount} _.

(** A row of the order lines. [oi_meal_id] is the value that was handed to
    [OrderItem.create] as [meal_id]. *)
Record OrderItemRow (amount : Type) := {
  oi_order_id : Z;
  oi_meal_id : jsval;
  oi_quantity : Z;
  oi_price : amount;
  oi_subtotal : amount
}.
Arguments oi_order_id {amount} _.
Arguments oi_meal_id {amount} _.
Arguments oi_quantity {amount} _.
Arguments oi_price {amount} _.
Arguments oi_subtotal {amount} _.

(** The tables. [settings] maps a key to the text of its value; meals and
    payment methods are keyed by their primary key. *)
Record DB (amount : Type) := {
  settings : gmap string text;
  meals : gmap Z Meal;
  payment_methods : gmap Z PaymentMethod;
  orders : list (OrderRow amount);
  order_items : list (OrderItemRow amount)
}.
Arguments settings {amount} _.
Arguments meals {amount} _.
Arguments payment_methods {amount} _.
Arguments orders {amount} _.
Arguments order_items {amount} _.

(** The database as a request sees it: the tables, the snapshot a rollback of
    the open transaction restores, and the number of database calls made so
    far. *)
Record World (amount : Type) := {
  db : DB amount;
  txn : option (DB amount);
  ops : nat
}.
Arguments db {amount} _.
Arguments txn {amount} _.
Arguments ops {amount} _.

(** The result of [generateOrderNumber]. *)
Record Allocation := {
  orderNumber : string;
  dailySequence : Z
}.

(** The result of [createOrder]; its message is constant. *)
Record Created := {
  success : bool;
  created_orderNumber : string
}.

(** The order code format of the header comment of [generateOrderNumber]:
    the letter, then digits only: 3 of the branch, 8 of the date, 6 of the
    time, 2 of the node and 4 or more of the sequence. *)
Definition code_pattern (letter : ascii) (code : string) : bool :=
  match code with
  | String c rest =>
      bool_decide (c = letter) && all_digits rest &&
      (3 + 8 + 6 + 2 + 4 <=? String.length rest)%nat
  | EmptyString => false
  end.

Definition M (amount A : Type) : Type :=
  World amount -> outcome A * World amount.

Section Service.

(** Amounts are JavaScript numbers with a fraction: their arithmetic is a
    parameter. [times p q] is [p * q]. [fault n] tells whether the [n]-th
    database call is rejected (connection lost, lock timeout, constraint
    violation). *)
Context {amount : Type} (times : amount -> Z -> amount) (fault : nat -> bool).

(** How the database compares an id that is not a number with its integer
    keys belongs to the database, not to this code: [sql_integer v] is the
    integer it reads in [v] (5 in the text "5"), [None] when [v] equals no
    integer for it. *)
Context (sql_integer : jsval -> option Z).

Local Abbreviation M := (M amount).

Definition ret {A} (a : A) : M A := fun w => (Ok a, w).

Definition bind {A B} (m : M A) (k : A -> M B) : M B :=
  fun w =>
    match m w with
    | (Ok a, w') => k a w'
    | (Throw e, w') => (Throw e, w')
    end.

Definition throw {A} (e : error) : M A := fun w => (Throw e, w).

(** [try { m } catch (e) { h e }] *)
Definition try_catch {A} (m : M A) (h : error -> M A) : M A :=
  fun w =>
    match m w with
    | (Ok a, w') => (Ok a, w')
    | (Throw e, w') => h e w'
    end.

Local Notation "x <- m ;; k" := (bind m (fun x => k))
  (at level 100, m at next level, k at level 200, right associativity).
Local Notation "'run' m ;; k" := (bind m (fun _ => k))
  (at level 100, m at next level, k at level 200, right associativity).

(** One awaited database call. *)
Definition db_call {A} (f : DB amount -> A * DB amount) : M A :=
  fun w =>
    if fault (ops w)
    then (Throw (DbError (ops w)), {| db := db w; txn := txn w; ops := S (ops w) |})
    else let '(a, d) := f (db w) in
         (Ok a, {| db := d; txn := txn w; ops := S (ops w) |}).

Definition set_settings (s : gmap string text) (d : DB amount) : DB amount :=
  {| settings := s; meals := meals d; payment_methods := payment_methods d;
     orders := orders d; order_items := order_items d |}.

(** [Settings.findOne({ where: { key } })] *)
Definition Settings_findOne (key : string) : M (option text) :=
  db_call (fun d => (settings d !! key, d)).

(** [setting.update({ value })] on the row of [key]. *)
Definition Setting_update (key : string) (value : text) : M unit :=
  db_call (fun d => (tt, set_settings (<[key := value]> (settings d)) d)).

(** [Settings.create({ key, value, description, category })] *)
Definition Settings_create (key : string) (value : text) : M unit :=
  db_call (fun d => (tt, set_settings (<[key := value]> (settings d)) d)).

(** The rows selected by [where: { id: { [Op.in]: mealIds }, is_active: true }]. *)
Definition active_meals_in (mealIds : list Z) (ms : gmap Z Meal) : list (Z * Meal) :=
  filter (fun r : Z * Meal => bool_decide (r.1 ∈ mealIds) && is_active r.2 = true)
         (map_to_list ms).

(** The key that an id matches in [id IN (...)]. *)
Definition sql_key (id : jsval) : option Z :=
  match id with
  | JNum n => Some n
  | other => sql_integer other
  end.

(** [Meal.findAll({ where: { id: { [Op.in]: mealIds }, is_active: true } })] *)
Definition Meal_findAll (mealIds : list jsval) : M (list (Z * Meal)) :=
  db_call (fun d => (active_meals_in (omap sql_key mealIds) (meals d), d)).

(** [PaymentMethod.findOne({ where: { id, is_active: true } })] *)
Definition PaymentMethod_findOne (id : Z) : M (option PaymentMethod) :=
  db_call (fun d =>
    (match payment_methods d !! id with
     | Some p => if pm_is_active p then Some p else None
     | None => None
     end, d)).

(** [Order.create({...}, { transaction })]: the new row gets the next id. *)
Definition Order_create (number : string) (store : Z) (total : amount)
    (type : Z) (pm : option Z) (seq : Z) : M (OrderRow amount) :=
  db_call (fun d =>
    let row := {| order_id := Z.of_nat (S (length (orders d)));
                  order_number := number; store_id := store;
                  total_amount := total; order_type := type;
                  payment_method_id := pm; daily_sequence := seq |} in
    (row, {| settings := settings d; meals := meals d;
             payment_methods := payment_methods d;
             orders := orders d ++ [row]; order_items := order_items d |})).

(** [OrderItem.create({...}, { transaction })] *)
Definition OrderItem_create (row : OrderItemRow amount) : M unit :=
  db_call (fun d =>
    (tt, {| settings := settings d; meals := meals d;
            payment_methods := payment_methods d;
            orders := orders d; order_items := order_items d ++ [row] |})).

(** [Order.sequelize.transaction()] *)
Definition transaction_begin : M unit :=
  fun w =>
    if fault (ops w)
    then (Throw (DbError (ops w)), {| db := db w; txn := txn w; ops := S (ops w) |})
    else (Ok tt, {| db := db w; txn := Some (db w); ops := S (ops w) |}).

(** [transaction.commit()]. The transaction is finished whether or not the
    database accepts the commit; a rejected commit leaves none of its writes
    in the tables. *)
Definition transaction_commit : M unit :=
  fun w =>
    if fault (ops w)
    then (Throw (DbError (ops w)),
          {| db := default (db w) (txn w); txn := None; ops := S (ops w) |})
    else (Ok tt, {| db := db w; txn := None; ops := S (ops w) |}).

(** [transaction.rollback()]: every write since the transaction began is
    undone; a finished transaction cannot be rolled back. *)
Definition transaction_rollback : M unit :=
  fun w =>
    match txn w with
    | Some d => (Ok tt, {| db := d; txn := None; ops := ops w |})
    | None => (Throw TransactionFinished, w)
    end.

(** *** [generateOrderNumber] *)

Definition two (n : Z) : string := padStart 2 "0" (String_Z n).

(** [`${year}${month}${day}`] *)
Definition dateStr (c : Clock) : string :=
  String_Z (getFullYear c) +:+ two (getMonth c + 1) +:+ two (getDate c).

(** [`${hours}${minutes}${seconds}`] *)
Definition timeStr (c : Clock) : string :=
  two (getHours c) +:+ two (getMinutes c) +:+ two (getSeconds c).

Definition businessCode (orderType : Z) : string :=
  if orderType =? 1 then "T" else "D".

Definition sequenceKey (orderType : Z) : string :=
  if orderType =? 1 then "daily_takeout_sequence" else "daily_dine_in_sequence".

Definition dateKey : string := "daily_sequence_date".

(** [String(storeId || 1).padStart(3, '0').slice(0, 3)] *)
Definition storeNumber_of_id (storeId : Z) : string :=
  slice0 3 (padStart 3 "0" (String_Z (if storeId =? 0 then 1 else storeId))).

(** Step 2 of [generateOrderNumber]: the branch number. The [catch] is only
    reached when [JSON.parse] throws. *)
Definition storeNumber_of (storeNumberSetting : option text) (storeId : Z) : string :=
  match storeNumberSetting with
  | Some value =>
      match JSON_parse value with
      | Some v => slice0 3 (padStart 3 "0" (String_num (parseInt v)))
      | None => storeNumber_of_id storeId
      end
  | None => storeNumber_of_id storeId
  end.

(** [currentDate !== todayDateStr] is false only for a stored string equal
    to today's. *)
Definition date_is_today (dateSetting : option text) (today : string) : bool :=
  match dateSetting with
  | Some value =>
      match JSON_parse value with
      | Some (JStr s) => bool_decide (s = today)
      | _ => false
      end
  | None => false
  end.

(** Step 6 of [generateOrderNumber]: the day's sequence number, with the
    counter and the date written back. *)
Definition next_sequence (orderType : Z) (today : string)
    (sequenceSetting dateSetting : option text) : M Z :=
  if negb (date_is_today dateSetting today) then
    run (match dateSetting with
         | Some _ => Setting_update dateKey (JSON_stringify (JStr today))
         | None => Settings_create dateKey (JSON_stringify (JStr today))
         end) ;;
    run (match sequenceSetting with
         | Some _ => Setting_update (sequenceKey orderType) (JSON_stringify (JNum 1))
         | None => Settings_create (sequenceKey orderType) (JSON_stringify (JNum 1))
         end) ;;
    ret 1
  else
    match sequenceSetting with
    | Some value =>
        try_catch
          (v <- (match JSON_parse value with
                 | Some v => ret v
                 | None => throw SyntaxError
                 end) ;;
           let dailySequence := or_zero (parseInt v) + 1 in
           run Setting_update (sequenceKey orderType)
                 (JSON_stringify (JNum dailySequence)) ;;
           ret dailySequence)
          (fun _ =>
             run Setting_update (sequenceKey orderType) (JSON_stringify (JNum 1)) ;;
             ret 1)
    | None =>
        run Settings_create (sequenceKey orderType) (JSON_stringify (JNum 1)) ;;
        ret 1
    end.

(** The fallback of the outer [catch]: [`OF${timestamp.slice(-8)}`] and
    sequence 0. *)
Definition fallback (env : Env) : Allocation :=
  {| orderNumber := "OF" +:+ slice_last 8 (String_Z (Date_now env));
     dailySequence := 0 |}.

(** The body of the outer [try]. *)
Definition generateOrderNumber_try (orderType storeId : Z) (env : Env) : M Allocation :=
  storeNumberSetting <- Settings_findOne "store_number" ;;
  let storeNumber := storeNumber_of storeNumberSetting storeId in
  let nodeNumber := two (random100 env) in
  let todayDateStr := dateStr (now env) in
  sequenceSetting <- Settings_findOne (sequenceKey orderType) ;;
  dateSetting <- Settings_findOne dateKey ;;
  dailySequence <- next_sequence orderType todayDateStr sequenceSetting dateSetting ;;
  let sequenceNumber := padStart 4 "0" (String_Z dailySequence) in
  ret {| orderNumber := businessCode orderType +:+ storeNumber +:+
                        dateStr (now env) +:+ timeStr (now env) +:+
                        nodeNumber +:+ sequenceNumber;
         dailySequence := dailySequence |}.

(** [generateOrderNumber(orderType, storeId, transaction)]. The transaction
    is the one open in the world; the function itself behaves the same with
    and without one. *)
Definition generateOrderNumber (orderType storeId : Z) (env : Env) : M Allocation :=
  try_catch (generateOrderNumber_try orderType storeId env)
            (fun _ => ret (fallback env)).

(** *** [createOrder] *)

(** [m.id === item.mealId]: a key is strictly equal to a number only. *)
Definition strictly_equal (key : Z) (id : jsval) : bool :=
  match id with
  | JNum n => key =? n
  | _ => false
  end.

(** The loop over the lines: one [OrderItem.create] per line, in order. *)
Fixpoint create_items (order : OrderRow amount) (found : list (Z * Meal))
    (its : list (Item amount)) : M (list (OrderItemRow amount * option Meal)) :=
  match its with
  | [] => ret []
  | item :: rest =>
      let meal := snd <$> List.find (fun m => strictly_equal (fst m) (mealId item)) found in
      let subtotal := times (price item) (quantity item) in
      let row := {| oi_order_id := order_id order; oi_meal_id := mealId item;
                    oi_quantity := quantity item; oi_price := price item;
                    oi_subtotal := subtotal |} in
      run OrderItem_create row ;;
      done <- create_items order found rest ;;
      ret ((row, meal) :: done)
  end.

(** The shop names read for the receipt after the commit; a failure is
    logged and swallowed. *)
Definition read_store_names : M unit :=
  try_catch
    (run Settings_findOne "store_name_zh" ;;
     run Settings_findOne "store_name_en" ;;
     ret tt)
    (fun _ => ret tt).

(** [paymentMethodId || null] *)
Definition truthy_id (id : option Z) : option Z :=
  match id with
  | Some 0 => None
  | other => other
  end.

(** A line of the print data: [{name, quantity, price, subtotal}]. *)
Record PrintLine (amount : Type) := {
  pl_name : string;
  pl_quantity : Z;
  pl_price : amount;
  pl_subtotal : amount
}.
Arguments pl_name {amount} _.
Arguments pl_quantity {amount} _.
Arguments pl_price {amount} _.
Arguments pl_subtotal {amount} _.

(** [item.meal.name_zh || item.meal.name_en] *)
Definition print_name (meal : Meal) : string :=
  match name_zh meal with
  | EmptyString => name_en meal
  | name => name
  end.

(** [orderItems.map(item => ({ name: item.meal.name_zh || item.meal.name_en,
    quantity, price, subtotal }))]: reading the name of a dish that
    [meals.find] did not find throws. *)
Fixpoint print_lines (orderItems : list (OrderItemRow amount * option Meal)) :
    M (list (PrintLine amount)) :=
  match orderItems with
  | [] => ret []
  | (row, Some meal) :: rest =>
      lines <- print_lines rest ;;
      ret ({| pl_name := print_name meal; pl_quantity := oi_quantity row;
              pl_price := oi_price row; pl_subtotal := oi_subtotal row |} :: lines)
  | (_, None) :: _ => throw TypeError
  end.

(** The inner [try]: everything between the opening of the transaction and
    the return. After the commit the shop names are read and the lines of the
    print data are built. The other fields of the print data (the sum of the
    quantities, the formatted clock reading, the names of the payment
    method) and the log entry are computed from values at hand, cannot throw
    and touch no table: they are left out. The receipt itself is handed to
    [setImmediate], which runs it after [createOrder] has returned. *)
Definition createOrder_transaction (orderData : OrderData amount)
    (found : list (Z * Meal)) (env : Env) : M Created :=
  let storeId := default 1 (storeId orderData) in
  let orderType := default 0 (orderType orderData) in
  allocation <- generateOrderNumber orderType storeId env ;;
  order <- Order_create (orderNumber allocation) storeId (totalAmount orderData)
             orderType (truthy_id (paymentMethodId orderData))
             (dailySequence allocation) ;;
  orderItems <- create_items order found (items orderData) ;;
  run transaction_commit ;;
  run read_store_names ;;
  run print_lines orderItems ;;
  ret {| success := true; created_orderNumber := orderNumber allocation |}.

(** The checks made before the transaction is opened: every referenced dish
    is on sale, and the payment method, when one is given, is enabled. *)
Definition createOrder_validate (orderData : OrderData amount) : M (list (Z * Meal)) :=
  let mealIds := mealId <$> items orderData in
  found <- Meal_findAll mealIds ;;
  if negb (length found =? length mealIds)%nat then throw PartialItems else
  run (match truthy_id (paymentMethodId orderData) with
       | Some id =>
           paymentMethod <- PaymentMethod_findOne id ;;
           match paymentMethod with
           | Some _ => ret tt
           | None => throw PaymentMethodInactive
           end
       | None => ret tt
       end) ;;
  ret found.

(** [createOrder(orderData)]. The outer [try] only logs and rethrows. *)
Definition createOrder (orderData : OrderData amount) (env : Env) : M Created :=
  match items orderData with
  | [] => throw EmptyItems
  | _ =>
      found <- createOrder_validate orderData ;;
      run transaction_begin ;;
      try_catch (createOrder_transaction orderData found env)
                (fun e => run transaction_rollback ;; throw e)
  end.

(** Allocations made one after the other, each request with its own order
    type, shop and runtime readings. *)
Fixpoint allocate_all (requests : list (Z * Z * Env)) : M (list (Z * Allocation)) :=
  match requests with
  | [] => ret []
  | (orderType, storeId, env) :: rest =>
      a <- generateOrderNumber orderType storeId env ;;
      others <- allocate_all rest ;;
      ret ((orderType, a) :: others)
  end.


(** *** What a computation leaves alone *)

(** [preserves proj m]: running [m] does not change the part [proj] of the
    world, whether it returns or throws. *)
Definition preserves {S A} (proj : World amount -> S) (m : M A) : Prop :=
  forall w r w', m w = (r, w') -> proj w' = proj w.

(** [total m]: [m] always returns, it never throws. *)
Definition total {A} (m : M A) : Prop :=
  forall w, exists a w', m w = (Ok a, w').

Lemma preserves_ret {S A} (proj : World amount -> S) (a : A) :
  preserves proj (ret a).
Proof. intros w r w' H. inversion H. reflexivity. Qed.

Lemma preserves_throw {S A} (proj : World amount -> S) (e : error) :
  preserves proj (@throw A e).
Proof. intros w r w' H. inversion H. reflexivity. Qed.

Lemma preserves_bind {S A B} (proj : World amount -> S) (m : M A) (k : A -> M B) :
  preserves proj m -> (forall a, preserves proj (k a)) -> preserves proj (bind m k).
Proof.
  intros Hm Hk w r w' H. unfold bind in H.
  destruct (m w) as [[a|e] w1] eqn:E.
  - rewrite (Hk a _ _ _ H). exact (Hm _ _ _ E).
  - inversion H; subst. exact (Hm _ _ _ E).
Qed.

Lemma preserves_try_catch {S A} (proj : World amount -> S) (m : M A) (h : error -> M A) :
  preserves proj m -> (forall e, preserves proj (h e)) -> preserves proj (try_catch m h).
Proof.
  intros Hm Hh w r w' H. unfold try_catch in H.
  destruct (m w) as [[a|e] w1] eqn:E.
  - inversion H; subst. exact (Hm _ _ _ E).
  - rewrite (Hh e _ _ _ H). exact (Hm _ _ _ E).
Qed.

Lemma db_call_txn {A} (f : DB amount -> A * DB amount) : preserves txn (db_call f).
Proof.
  intros w r w' H. unfold db_call in H.
  destruct (fault (ops w)); [|destruct (f (db w))]; inversion H; reflexivity.
Qed.

Lemma total_ret {A} (a : A) : total (ret a).
Proof. intros w. eexists _, _. reflexivity. Qed.

Lemma total_try_catch {A} (m : M A) (h : error -> M A) :
  (forall e, total (h e)) -> total (try_catch m h).
Proof.
  intros Hh w. unfold try_catch.
  destruct (m w) as [[a|e] w1]; [eexists _, _; reflexivity | apply Hh].
Qed.

Ltac preserves_steps :=
  repeat first
    [ apply preserves_ret
    | apply preserves_throw
    | apply db_call_txn
    | apply preserves_bind; [|intros ?]
    | apply preserves_try_catch; [|intros ?]
    | match goal with
      | |- preserves _ (match ?x with _ => _ end) => destruct x
      end ].

Lemma next_sequence_txn orderType today sequenceSetting dateSetting :
  preserves txn (next_sequence orderType today sequenceSetting dateSetting).
Proof. unfold next_sequence, Setting_update, Settings_create. preserves_steps. Qed.

Lemma generateOrderNumber_txn orderType storeId env :
  preserves txn (generateOrderNumber orderType storeId env).
Proof.
  unfold generateOrderNumber, generateOrderNumber_try, Settings_findOne.
  preserves_steps. apply next_sequence_txn.
Qed.

Lemma generateOrderNumber_total orderType storeId env :
  total (generateOrderNumber orderType storeId env).
Proof. apply total_try_catch. intros e. apply total_ret. Qed.

(** C1, as the code has it: [generateOrderNumber] catches every error of its
    own [try] block, with or without an open transaction. It never throws
    and leaves the transaction as it found it; when its [try] block throws
    (a rejected read or write of the counter store), it returns the fallback
    code and sequence 0, and otherwise what the block returned. *)
Theorem generateOrderNumber_catches_everything orderType storeId env (w : World amount) :
  txn (generateOrderNumber orderType storeId env w).2 = txn w /\
  match generateOrderNumber_try orderType storeId env w with
  | (Ok a, w') => generateOrderNumber orderType storeId env w = (Ok a, w')
  | (Throw e, w') => generateOrderNumber orderType storeId env w = (Ok (fallback env), w')
  end.
Proof.
  split.
  - destruct (generateOrderNumber orderType storeId env w) as [r w'] eqn:E.
    exact (generateOrderNumber_txn _ _ _ _ _ _ E).
  - unfold generateOrderNumber, try_catch.
    destruct (generateOrderNumber_try orderType storeId env w) as [[a|e] w']; reflexivity.
Qed.

(** *** Allocation without database errors *)

(** The number the same-day branch hands out for a stored counter. *)
Definition next_value (sequenceSetting : option text) : Z :=
  match sequenceSetting with
  | Some value =>
      match JSON_parse value with
      | Some v => or_zero (parseInt v) + 1
      | None => 1
      end
  | None => 1
  end.

(** The world after [k] database calls that left [s] in the settings. *)
Definition with_settings (s : gmap string text) (k : nat) (w : World amount) : World amount :=
  {| db := set_settings s (db w); txn := txn w; ops := (k + ops w)%nat |}.

Lemma db_call_ok {A} (f : DB amount -> A * DB amount) (w : World amount) :
  fault (ops w) = false ->
  db_call f w = (Ok (f (db w)).1, {| db := (f (db w)).2; txn := txn w; ops := S (ops w) |}).
Proof. intros H. unfold db_call. rewrite H. destruct (f (db w)); reflexivity. Qed.

Lemma dateKey_not_sequenceKey orderType : dateKey <> sequenceKey orderType.
Proof. unfold sequenceKey. destruct (orderType =? 1); discriminate. Qed.

Lemma date_is_today_true dateSetting today :
  date_is_today dateSetting today = true -> dateSetting = Some (Json (JStr today)).
Proof.
  unfold date_is_today. destruct dateSetting as [[|[| | |s]]|]; try discriminate.
  cbn. intros H. apply bool_decide_eq_true in H. congruence.
Qed.

Section NoFault.

Hypothesis no_fault : forall k, fault k = false.

Ltac run_calls :=
  repeat (rewrite db_call_ok by apply no_fault; cbn [fst snd db txn ops settings set_settings]).

Lemma next_sequence_same_day orderType today sequenceSetting (w : World amount) :
  next_sequence orderType today sequenceSetting (Some (Json (JStr today))) w =
  (Ok (next_value sequenceSetting),
   with_settings (<[sequenceKey orderType := Json (JNum (next_value sequenceSetting))]>
                    (settings (db w))) 1 w).
Proof.
  unfold next_sequence, date_is_today, JSON_parse.
  rewrite bool_decide_eq_true_2 by reflexivity. cbn [negb].
  destruct sequenceSetting as [[|v]|];
    cbv [try_catch bind throw ret Setting_update Settings_create JSON_parse
         JSON_stringify next_value];
    run_calls; reflexivity.
Qed.

Lemma next_sequence_new_day orderType today sequenceSetting dateSetting (w : World amount) :
  date_is_today dateSetting today = false ->
  next_sequence orderType today sequenceSetting dateSetting w =
  (Ok 1,
   with_settings (<[sequenceKey orderType := Json (JNum 1)]>
                    (<[dateKey := Json (JStr today)]> (settings (db w)))) 2 w).
Proof.
  intros Hd. unfold next_sequence. rewrite Hd. cbn [negb].
  destruct dateSetting, sequenceSetting;
    cbv [bind ret Setting_update Settings_create JSON_stringify];
    run_calls; reflexivity.
Qed.

(** The order number composed at the end of [generateOrderNumber]. *)
Definition composed (orderType storeId : Z) (env : Env) (s : gmap string text)
    (dailySequence : Z) : string :=
  businessCode orderType +:+ storeNumber_of (s !! "store_number") storeId +:+
  dateStr (now env) +:+ timeStr (now env) +:+ two (random100 env) +:+
  padStart 4 "0" (String_Z dailySequence).

Lemma generateOrderNumber_same_day orderType storeId env (w : World amount) :
  settings (db w) !! dateKey = Some (Json (JStr (dateStr (now env)))) ->
  let d := next_value (settings (db w) !! sequenceKey orderType) in
  generateOrderNumber orderType storeId env w =
  (Ok {| orderNumber := composed orderType storeId env (settings (db w)) d;
         dailySequence := d |},
   with_settings (<[sequenceKey orderType := Json (JNum d)]> (settings (db w))) 4 w).
Proof.
  intros Hd d.
  cbv [generateOrderNumber try_catch generateOrderNumber_try bind Settings_findOne].
  run_calls. rewrite Hd, next_sequence_same_day. reflexivity.
Qed.

Lemma generateOrderNumber_new_day orderType storeId env (w : World amount) :
  date_is_today (settings (db w) !! dateKey) (dateStr (now env)) = false ->
  generateOrderNumber orderType storeId env w =
  (Ok {| orderNumber := composed orderType storeId env (settings (db w)) 1;
         dailySequence := 1 |},
   with_settings (<[sequenceKey orderType := Json (JNum 1)]>
                    (<[dateKey := Json (JStr (dateStr (now env)))]> (settings (db w)))) 5 w).
Proof.
  intros Hd.
  cbv [generateOrderNumber try_catch generateOrderNumber_try bind Settings_findOne].
  run_calls. rewrite next_sequence_new_day by exact Hd. reflexivity.
Qed.

(** The defect behind C2 in general: the allocation that crosses the day
    boundary resets its own counter only, so the first allocation of the
    other kind on the new day continues from that kind's stored counter. *)
Lemma other_kind_continues orderType otherType storeId env env' (w : World amount) n :
  date_is_today (settings (db w) !! dateKey) (dateStr (now env)) = false ->
  dateStr (now env') = dateStr (now env) ->
  sequenceKey otherType <> sequenceKey orderType ->
  settings (db w) !! sequenceKey otherType = Some (Json (JNum n)) ->
  exists a w1 b w2,
    generateOrderNumber orderType storeId env w = (Ok a, w1) /\
    dailySequence a = 1 /\
    generateOrderNumber otherType storeId env' w1 = (Ok b, w2) /\
    dailySequence b = n + 1.
Proof.
  intros Hnew Hsame Hother Hn.
  rewrite (generateOrderNumber_new_day _ _ _ _ Hnew).
  set (w1 := with_settings _ 5 w).
  assert (Hdate1 : settings (db w1) !! dateKey = Some (Json (JStr (dateStr (now env'))))).
  { subst w1. cbn. rewrite lookup_insert_ne by (symmetry; apply dateKey_not_sequenceKey).
    rewrite Hsame. apply lookup_insert_eq. }
  assert (Hn1 : settings (db w1) !! sequenceKey otherType = Some (Json (JNum n))).
  { subst w1. cbn. rewrite lookup_insert_ne by congruence.
    rewrite lookup_insert_ne by apply dateKey_not_sequenceKey. exact Hn. }
  eexists _, w1, _, _. split; [reflexivity|]. split; [reflexivity|].
  rewrite (generateOrderNumber_same_day _ _ _ _ Hdate1). cbv zeta. rewrite Hn1.
  split; reflexivity.
Qed.







End NoFault.

(** The sequence numbers handed out to the requests of one order kind, the
    kind being the order type of the request: 0 for dine-in, 1 for takeout. *)
Definition handed_to (kind : Z) (results : list (Z * Allocation)) : list Z :=
  dailySequence <$> (snd <$> filter (fun r : Z * Allocation => r.1 = kind) results).



(** *** The format of the order code *)

(** A clock whose year has four digits. *)
Definition wf_clock (c : Clock) : Prop :=
  1000 <= getFullYear c <= 9999 /\ 0 <= getMonth c <= 11 /\ 1 <= getDate c <= 31 /\
  0 <= getHours c <= 23 /\ 0 <= getMinutes c <= 59 /\ 0 <= getSeconds c <= 59.

(** The number that step 2 of [generateOrderNumber] turns into the branch
    digits. *)
Definition branch_number (setting : option text) (storeId : Z) : num :=
  match setting with
  | Some value =>
      match JSON_parse value with
      | Some v => parseInt v
      | None => Num (if storeId =? 0 then 1 else storeId)
      end
  | None => Num (if storeId =? 0 then 1 else storeId)
  end.

Lemma two_digits n :
  0 <= n <= 99 -> String.length (two n) = 2%nat /\ all_digits (two n) = true.
Proof.
  intros Hn. unfold two. split.
  - rewrite padStart_length. pose proof (String_Z_length_le n 1) as H.
    change (10 ^ Z.of_nat 2) with 100 in H. lia.
  - apply padStart_all_digits, String_Z_all_digits. lia.
Qed.

Lemma dateStr_digits c :
  wf_clock c -> String.length (dateStr c) = 8%nat /\ all_digits (dateStr c) = true.
Proof.
  intros (Hy & Hm & Hd & _). unfold dateStr.
  destruct (two_digits (getMonth c + 1)) as [Lm Dm]; [lia|].
  destruct (two_digits (getDate c)) as [Ld Dd]; [lia|].
  rewrite !length_append, !all_digits_append, Lm, Ld, Dm, Dd.
  rewrite String_Z_four_digits, String_Z_all_digits by lia. split; reflexivity.
Qed.

Lemma timeStr_digits c :
  wf_clock c -> String.length (timeStr c) = 6%nat /\ all_digits (timeStr c) = true.
Proof.
  intros (_ & _ & _ & Hh & Hm & Hs). unfold timeStr.
  destruct (two_digits (getHours c)) as [Lh Dh]; [lia|].
  destruct (two_digits (getMinutes c)) as [Lm Dm]; [lia|].
  destruct (two_digits (getSeconds c)) as [Ls Ds]; [lia|].
  rewrite !length_append, !all_digits_append, Lh, Lm, Ls, Dh, Dm, Ds.
  split; reflexivity.
Qed.

Lemma storeNumber_of_digits setting storeId k :
  branch_number setting storeId = Num k -> 0 <= k ->
  String.length (storeNumber_of setting storeId) = 3%nat /\
  all_digits (storeNumber_of setting storeId) = true.
Proof.
  intros Hb Hk.
  assert (H : storeNumber_of setting storeId = slice0 3 (padStart 3 "0" (String_Z k))).
  { unfold storeNumber_of, storeNumber_of_id, branch_number in *.
    destruct setting as [value|]; [destruct (JSON_parse value)|];
      try (rewrite Hb; reflexivity); inversion Hb; reflexivity. }
  rewrite H. unfold slice0. split.
  - apply substring0_length. rewrite padStart_length. lia.
  - apply substring0_all_digits, padStart_all_digits, String_Z_all_digits. exact Hk.
Qed.

Lemma code_pattern_letter c rest :
  code_pattern c (String c "" +:+ rest) =
  all_digits rest && (3 + 8 + 6 + 2 + 4 <=? String.length rest)%nat.
Proof.
  change (String c "" +:+ rest) with (String c rest). unfold code_pattern.
  rewrite bool_decide_eq_true_2 by reflexivity. reflexivity.
Qed.

(** With a four-digit year, a branch number and a sequence that are natural
    numbers, the composed code has the format of the header comment; a
    sequence above 9999 only makes the last field longer. *)
Lemma composed_pattern orderType storeId env s dailySequence k :
  wf_clock (now env) -> 0 <= random100 env <= 99 ->
  branch_number (s !! "store_number") storeId = Num k -> 0 <= k ->
  0 <= dailySequence ->
  code_pattern (if orderType =? 1 then "T" else "D")
    (composed orderType storeId env s dailySequence) = true.
Proof.
  intros Hc Hr Hb Hk Hd. unfold composed, businessCode.
  destruct (storeNumber_of_digits _ _ _ Hb Hk) as [Ls Ds].
  destruct (dateStr_digits _ Hc) as [Ld Dd].
  destruct (timeStr_digits _ Hc) as [Lt Dt].
  destruct (two_digits _ Hr) as [Ln Dn].
  pose proof (padStart_length 4 "0" (String_Z dailySequence)) as Lq.
  pose proof (padStart_all_digits 4 _ (String_Z_all_digits _ Hd)) as Dq.
  destruct (orderType =? 1); rewrite code_pattern_letter;
    rewrite !all_digits_append, !length_append, Ds, Dd, Dt, Dn, Dq, Ls, Ld, Lt, Ln, Lq;
    cbn [andb]; apply Nat.leb_le; lia.
Qed.

(** Every allocation that meets no database error and finds a branch number
    and a counter that are natural numbers returns a code of the format,
    with the letter of the order kind. *)
Lemma generateOrderNumber_code_pattern orderType storeId env (w : World amount) k :
  (forall n, fault n = false) ->
  wf_clock (now env) -> 0 <= random100 env <= 99 ->
  branch_number (settings (db w) !! "store_number") storeId = Num k -> 0 <= k ->
  0 <= next_value (settings (db w) !! sequenceKey orderType) ->
  exists a w', generateOrderNumber orderType storeId env w = (Ok a, w') /\
    code_pattern (if orderType =? 1 then "T" else "D") (orderNumber a) = true.
Proof.
  intros Hnf Hc Hr Hb Hk Hd.
  destruct (date_is_today (settings (db w) !! dateKey) (dateStr (now env))) eqn:E.
  - apply date_is_today_true in E.
    rewrite (generateOrderNumber_same_day Hnf _ _ _ _ E).
    eexists _, _. split; [reflexivity|]. cbn [orderNumber].
    exact (composed_pattern _ _ _ _ _ _ Hc Hr Hb Hk Hd).
  - rewrite (generateOrderNumber_new_day Hnf _ _ _ _ E).
    eexists _, _. split; [reflexivity|]. cbn [orderNumber].
    apply (composed_pattern _ _ _ _ _ _ Hc Hr Hb Hk). lia.
Qed.

(** *** Validation and atomicity of [createOrder] *)

Lemma bind_throw_inv {A B} (m : M A) (k : A -> M B) w e w' :
  bind m k w = (Throw e, w') ->
  m w = (Throw e, w') \/ exists a w1, m w = (Ok a, w1) /\ k a w1 = (Throw e, w').
Proof.
  unfold bind. destruct (m w) as [[a|e1] w1]; intros H.
  - right. eauto.
  - left. inversion H. reflexivity.
Qed.

Lemma db_call_reads {A} (f : DB amount -> A * DB amount) :
  (forall d, (f d).2 = d) -> preserves db (db_call f).
Proof.
  intros Hf w r w' H. unfold db_call in H.
  destruct (fault (ops w)).
  - inversion H; reflexivity.
  - specialize (Hf (db w)). destruct (f (db w)); inversion H; subst. exact Hf.
Qed.

(** The dishes found are distinct rows among the referenced ones. *)
Lemma active_meals_in_submseteq mealIds (ms : gmap Z Meal) :
  (active_meals_in mealIds ms).*1 ⊆+ mealIds.
Proof.
  apply NoDup_submseteq.
  - eapply sublist_NoDup; [apply (NoDup_fst_map_to_list ms)|].
    apply fmap_sublist, sublist_filter.
  - intros x Hx. apply list_elem_of_fmap in Hx as ([y m] & -> & Hin).
    apply list_elem_of_filter in Hin as [HP _].
    apply andb_prop in HP as [HP _]. apply bool_decide_eq_true in HP. exact HP.
Qed.

(** When as many dishes are found as lines were sent, the lines name distinct
    dishes and each of them is on sale. *)
Lemma all_found mealIds (ms : gmap Z Meal) :
  length (active_meals_in mealIds ms) = length mealIds ->
  NoDup mealIds /\
  forall id, id ∈ mealIds -> exists m, ms !! id = Some m /\ is_active m = true.
Proof.
  intros Hlen.
  assert (Hperm : (active_meals_in mealIds ms).*1 ≡ₚ mealIds).
  { apply submseteq_length_Permutation; [apply active_meals_in_submseteq|].
    rewrite length_fmap. lia. }
  split.
  - rewrite <- Hperm. eapply sublist_NoDup; [apply (NoDup_fst_map_to_list ms)|].
    apply fmap_sublist, sublist_filter.
  - intros id Hid. rewrite <- Hperm in Hid.
    apply list_elem_of_fmap in Hid as ([y m] & -> & Hin).
    apply list_elem_of_filter in Hin as [HP Hin].
    apply andb_prop in HP as [_ HP]. apply elem_of_map_to_list in Hin.
    exists m. split; assumption.
Qed.

Lemma omap_length_le {A B} (f : A -> option B) (l : list A) :
  (length (omap f l) <= length l)%nat.
Proof.
  induction l as [|x l IH]; [reflexivity|].
  cbn [omap list_omap]. destruct (f x); cbn [length]; lia.
Qed.

Lemma omap_full {A B} (f : A -> option B) (l : list A) :
  length (omap f l) = length l -> f <$> l = Some <$> omap f l.
Proof.
  induction l as [|x l IH]; [reflexivity|].
  cbn [omap list_omap]. pose proof (omap_length_le f l) as Hle.
  destruct (f x) eqn:E; cbn [length]; intros Hlen.
  - rewrite !fmap_cons, E, IH by lia. reflexivity.
  - lia.
Qed.

(** When as many dishes are found as ids were sent, every id is read as a
    key by the database, the ids are distinct and so are their keys, and
    each key is the one of a dish on sale. *)
Lemma all_ids_found (mealIds : list jsval) (ms : gmap Z Meal) :
  length (active_meals_in (omap sql_key mealIds) ms) = length mealIds ->
  NoDup mealIds /\ NoDup (omap sql_key mealIds) /\
  sql_key <$> mealIds = Some <$> omap sql_key mealIds /\
  forall id, id ∈ mealIds ->
    exists k m, sql_key id = Some k /\ ms !! k = Some m /\ is_active m = true.
Proof.
  intros Hlen.
  pose proof (submseteq_length _ _ (active_meals_in_submseteq (omap sql_key mealIds) ms))
    as Hle1.
  rewrite length_fmap in Hle1.
  pose proof (omap_length_le sql_key mealIds) as Hle2.
  assert (Hkeys : length (active_meals_in (omap sql_key mealIds) ms) =
                  length (omap sql_key mealIds)) by lia.
  apply all_found in Hkeys as [Hnodup Hall].
  assert (Hfull : sql_key <$> mealIds = Some <$> omap sql_key mealIds)
    by (apply omap_full; lia).
  split; [|split; [exact Hnodup|split; [exact Hfull|]]].
  - apply (NoDup_fmap_1 sql_key). rewrite Hfull.
    apply NoDup_fmap_2; [|exact Hnodup]. intros x y Hxy. congruence.
  - intros id Hid.
    assert (Hin : sql_key id ∈ sql_key <$> mealIds) by (apply list_elem_of_fmap; eauto).
    rewrite Hfull in Hin. apply list_elem_of_fmap in Hin as (k & Hk & Hkin).
    destruct (Hall k Hkin) as (m & Hm & Hact). eauto.
Qed.

Lemma createOrder_validate_reads orderData :
  preserves db (createOrder_validate orderData) /\
  preserves txn (createOrder_validate orderData).
Proof.
  unfold createOrder_validate, Meal_findAll, PaymentMethod_findOne. split.
  - repeat first
      [ apply preserves_ret | apply preserves_throw
      | apply db_call_reads; intros d; reflexivity
      | apply preserves_bind; [|intros ?]
      | match goal with
        | |- preserves _ (match ?x with _ => _ end) => destruct x
        end ].
  - preserves_steps.
Qed.

(** A request whose lines are not matched one for one by dishes on sale is
    rejected before the transaction is opened. *)
Lemma createOrder_rejects orderData env (w : World amount) :
  items orderData <> [] ->
  length (active_meals_in (omap sql_key (mealId <$> items orderData)) (meals (db w))) <>
    length (items orderData) ->
  exists e w', createOrder orderData env w = (Throw e, w') /\
    db w' = db w /\ txn w' = txn w /\
    (fault (ops w) = false -> e = PartialItems).
Proof.
  intros Hne Hlen. unfold createOrder.
  destruct (items orderData) as [|it its] eqn:Hits; [congruence|].
  unfold bind at 1. unfold createOrder_validate at 1. cbv zeta.
  unfold bind at 1. unfold Meal_findAll, db_call.
  destruct (fault (ops w)) eqn:Hf.
  - eexists _, _. split; [reflexivity|]. cbn. repeat split. discriminate.
  - cbn [fst snd].
    destruct (length (active_meals_in (omap sql_key (mealId <$> items orderData))
                        (meals (db w)))
              =? length (mealId <$> items orderData))%nat eqn:E.
    + apply Nat.eqb_eq in E. rewrite length_fmap, Hits in E. contradiction.
    + cbn [negb]. eexists _, _. split; [reflexivity|]. cbn. repeat split.
Qed.

Lemma create_items_txn order found its :
  preserves txn (create_items order found its).
Proof.
  induction its as [|item rest IH]; cbn [create_items].
  - apply preserves_ret.
  - unfold OrderItem_create. preserves_steps. exact IH.
Qed.

Lemma read_store_names_total : total read_store_names.
Proof. apply total_try_catch. intros e. apply total_ret. Qed.

Lemma read_store_names_txn : preserves txn read_store_names.
Proof. unfold read_store_names, Settings_findOne. preserves_steps. Qed.

(** Building the print data touches nothing. *)
Lemma print_lines_pure orderItems :
  forall (w : World amount) r w', print_lines orderItems w = (r, w') -> w' = w.
Proof.
  induction orderItems as [|[row [meal|]] rest IH]; intros w r w' H; cbn [print_lines] in H.
  - inversion H; reflexivity.
  - unfold bind in H. destruct (print_lines rest w) as [[lines|e] w1] eqn:E;
      apply IH in E; inversion H; subst; reflexivity.
  - inversion H; reflexivity.
Qed.

(** An error thrown between the opening of the transaction and the return
    either leaves the transaction open or comes after it was finished. *)
Lemma createOrder_transaction_throw orderData found env (w : World amount) e w' :
  createOrder_transaction orderData found env w = (Throw e, w') ->
  txn w' = txn w \/ txn w' = None.
Proof.
  unfold createOrder_transaction. cbv zeta. intros H.
  apply bind_throw_inv in H as [H|(a & w1 & H1 & H)].
  { left. exact (generateOrderNumber_txn _ _ _ _ _ _ H). }
  rewrite <- (generateOrderNumber_txn _ _ _ _ _ _ H1).
  apply bind_throw_inv in H as [H|(order & w2 & H2 & H)].
  { left. exact (db_call_txn _ _ _ _ H). }
  rewrite <- (db_call_txn _ _ _ _ H2).
  apply bind_throw_inv in H as [H|(rows & w3 & H3 & H)].
  { left. exact (create_items_txn _ _ _ _ _ _ H). }
  rewrite <- (create_items_txn _ _ _ _ _ _ H3).
  right.
  apply bind_throw_inv in H as [H|([] & w4 & H4 & H)].
  { unfold transaction_commit in H. destruct (fault (ops w3)); inversion H; reflexivity. }
  assert (Hdone : txn w4 = None).
  { unfold transaction_commit in H4. destruct (fault (ops w3)); inversion H4; reflexivity. }
  apply bind_throw_inv in H as [H|([] & w5 & H5 & H)].
  { rewrite (read_store_names_txn _ _ _ H). exact Hdone. }
  rewrite <- (read_store_names_txn _ _ _ H5) in Hdone.
  apply bind_throw_inv in H as [H|(lines & w6 & H6 & H)].
  - apply print_lines_pure in H. subst w'. exact Hdone.
  - inversion H.
Qed.

(** When [createOrder] throws anything but the error of the rollback of a
    finished transaction, the tables are afterwards as they were before the
    call. *)
Lemma createOrder_throw_restores orderData env (w : World amount) e w' :
  createOrder orderData env w = (Throw e, w') ->
  e <> TransactionFinished -> db w' = db w.
Proof.
  unfold createOrder. destruct (items orderData) as [|it its].
  { intros H _; inversion H; reflexivity. }
  intros H Hnot. destruct (createOrder_validate_reads orderData) as [Vdb Vtxn].
  apply bind_throw_inv in H as [H|(found & wv & Hv & H)].
  { exact (Vdb _ _ _ H). }
  rewrite <- (Vdb _ _ _ Hv).
  apply bind_throw_inv in H as [H|([] & wb & Hb & H)].
  { unfold transaction_begin in H. destruct (fault (ops wv)); inversion H; reflexivity. }
  assert (Hsnap : txn wb = Some (db wv)).
  { unfold transaction_begin in Hb. destruct (fault (ops wv)); inversion Hb; reflexivity. }
  unfold try_catch in H.
  destruct (createOrder_transaction orderData found env wb) as [[c|e1] wt] eqn:Et;
    [inversion H|].
  apply createOrder_transaction_throw in Et. rewrite Hsnap in Et.
  unfold bind, transaction_rollback, throw in H.
  destruct Et as [Et|Et]; rewrite Et in H; inversion H; subst.
  - reflexivity.
  - contradiction.
Qed.




(** C10. A request that names the same dish in two lines is always rejected:
    [createOrder] throws without opening a transaction and without touching
    the tables, even when the dish exists and is on sale; unless the catalog
    query itself is rejected by the database, the error is the one for
    dishes that do not exist or are not on sale. *)
Theorem duplicate_lines_rejected orderData env (w : World amount) :
  ~ NoDup (mealId <$> items orderData) ->
  exists e w', createOrder orderData env w = (Throw e, w') /\
    db w' = db w /\ txn w' = txn w /\
    (fault (ops w) = false -> e = PartialItems).
Proof.
  intros Hdup. apply createOrder_rejects.
  - intros Hnil. apply Hdup. rewrite Hnil. constructor.
  - intros Hlen. rewrite <- (length_fmap mealId) in Hlen.
    apply all_ids_found in Hlen as [Hnodup _]. contradiction.
Qed.

(** *** What the allocator leaves alone *)

Lemma db_call_preserves {S A} (g : DB amount -> S) (f : DB amount -> A * DB amount) :
  (forall d, g (f d).2 = g d) -> preserves (fun w => g (db w)) (db_call f).
Proof.
  intros Hf w r w' H. unfold db_call in H.
  destruct (fault (ops w)).
  - inversion H; reflexivity.
  - specialize (Hf (db w)). destruct (f (db w)); inversion H; subst. exact Hf.
Qed.

(** A view of the tables that no write of the date or of the counter of the
    order type changes is the same after [generateOrderNumber], whether it
    returned a code or the fallback. *)
Lemma generateOrderNumber_preserves {S} (g : DB amount -> S) orderType storeId env :
  (forall v d, g (set_settings (<[dateKey := v]> (settings d)) d) = g d) ->
  (forall v d, g (set_settings (<[sequenceKey orderType := v]> (settings d)) d) = g d) ->
  preserves (fun w => g (db w)) (generateOrderNumber orderType storeId env).
Proof.
  intros Hdate Hseq.
  unfold generateOrderNumber, generateOrderNumber_try, next_sequence, Settings_findOne,
    Setting_update, Settings_create.
  repeat first
    [ apply preserves_ret
    | apply preserves_throw
    | apply db_call_preserves; intros d; cbn [snd]; first [reflexivity | apply Hdate | apply Hseq]
    | apply preserves_bind; [|intros ?]
    | apply preserves_try_catch; [|intros ?]
    | match goal with
      | |- preserves _ (match ?x with _ => _ end) => destruct x
      end ].
Qed.

(** [generateOrderNumber] never touches a table other than the settings, and
    in the settings only the date key and the counter of the order type it
    was called for: every other key, the counter of the other order kind
    among them, reads the same afterwards. This holds for every outcome of
    the database calls. *)
Theorem generateOrderNumber_frame orderType storeId env (w : World amount) :
  meals (db (generateOrderNumber orderType storeId env w).2) = meals (db w) /\
  payment_methods (db (generateOrderNumber orderType storeId env w).2) =
    payment_methods (db w) /\
  orders (db (generateOrderNumber orderType storeId env w).2) = orders (db w) /\
  order_items (db (generateOrderNumber orderType storeId env w).2) = order_items (db w) /\
  forall key, key <> dateKey -> key <> sequenceKey orderType ->
    settings (db (generateOrderNumber orderType storeId env w).2) !! key =
    settings (db w) !! key.
Proof.
  destruct (generateOrderNumber orderType storeId env w) as [r w'] eqn:E. cbn [snd].
  repeat apply conj.
  - exact (generateOrderNumber_preserves meals _ _ _
             (fun _ _ => eq_refl) (fun _ _ => eq_refl) _ _ _ E).
  - exact (generateOrderNumber_preserves payment_methods _ _ _
             (fun _ _ => eq_refl) (fun _ _ => eq_refl) _ _ _ E).
  - exact (generateOrderNumber_preserves orders _ _ _
             (fun _ _ => eq_refl) (fun _ _ => eq_refl) _ _ _ E).
  - exact (generateOrderNumber_preserves order_items _ _ _
             (fun _ _ => eq_refl) (fun _ _ => eq_refl) _ _ _ E).
  - intros key Hd Hs.
    refine (generateOrderNumber_preserves (fun d => settings d !! key) _ _ _ _ _ _ _ _ E);
      intros v d; cbn; apply lookup_insert_ne; congruence.
Qed.

(** *** A rejected counter write *)

Lemma db_call_fault {A} (f : DB amount -> A * DB amount) (w : World amount) :
  fault (ops w) = true ->
  db_call f w = (Throw (DbError (ops w)), {| db := db w; txn := txn w; ops := S (ops w) |}).
Proof. intros H. unfold db_call. rewrite H. reflexivity. Qed.

(** The inner [catch] of the same-day branch also catches a rejected write of
    the counter: when the three reads succeed, the write of the incremented
    counter is rejected and the write in the [catch] succeeds, the allocator
    returns sequence 1 and stores 1, whatever the counter held; the numbers
    handed out earlier that day will be handed out again. *)
Theorem rejected_counter_write_restarts_at_one orderType storeId env (w : World amount) value :
  fault (ops w) = false -> fault (1 + ops w)%nat = false -> fault (2 + ops w)%nat = false ->
  fault (3 + ops w)%nat = true -> fault (4 + ops w)%nat = false ->
  settings (db w) !! dateKey = Some (Json (JStr (dateStr (now env)))) ->
  settings (db w) !! sequenceKey orderType = Some (Json value) ->
  generateOrderNumber orderType storeId env w =
  (Ok {| orderNumber := composed orderType storeId env (settings (db w)) 1;
         dailySequence := 1 |},
   with_settings (<[sequenceKey orderType := Json (JNum 1)]> (settings (db w))) 5 w).
Proof.
  intros F0 F1 F2 F3 F4 Hdate Hseq.
  cbv [generateOrderNumber try_catch generateOrderNumber_try bind Settings_findOne].
  rewrite (db_call_ok _ w F0). cbn [fst snd db txn ops].
  rewrite db_call_ok by exact F1. cbn [fst snd db txn ops].
  rewrite db_call_ok by exact F2. cbn [fst snd db txn ops].
  rewrite Hdate, Hseq.
  unfold next_sequence, date_is_today, JSON_parse.
  rewrite bool_decide_eq_true_2 by reflexivity. cbn [negb].
  cbv [try_catch bind ret Setting_update].
  rewrite db_call_fault by exact F3. cbn [fst snd db txn ops].
  rewrite db_call_ok by exact F4. cbn [fst snd db txn ops settings set_settings].
  reflexivity.
Qed.

(** *** What a created order looks like *)

Lemma bind_ok_inv {A B} (m : M A) (k : A -> M B) w b w' :
  bind m k w = (Ok b, w') ->
  exists a w1, m w = (Ok a, w1) /\ k a w1 = (Ok b, w').
Proof.
  unfold bind. destruct (m w) as [[a|e] w1]; intros H; [eauto | discriminate].
Qed.

(** The row that the loop of [createOrder] writes for a line. *)
Definition item_row (order : OrderRow amount) (item : Item amount) : OrderItemRow amount :=
  {| oi_order_id := order_id order; oi_meal_id := mealId item;
     oi_quantity := quantity item; oi_price := price item;
     oi_subtotal := times (price item) (quantity item) |}.

(** The dish that the loop attaches to a line: the result of [meals.find]. *)
Definition found_meal (found : list (Z * Meal)) (item : Item amount) : option Meal :=
  snd <$> List.find (fun m => strictly_equal (fst m) (mealId item)) found.

(** The row that [createOrder] writes for the order. *)
Definition order_row (orderData : OrderData amount) (a : Allocation) (d : DB amount) :
    OrderRow amount :=
  {| order_id := Z.of_nat (S (length (orders d)));
     order_number := orderNumber a;
     store_id := default 1 (storeId orderData);
     total_amount := totalAmount orderData;
     order_type := default 0 (orderType orderData);
     payment_method_id := truthy_id (paymentMethodId orderData);
     daily_sequence := dailySequence a |}.

Definition add_items (rows : list (OrderItemRow amount)) (d : DB amount) : DB amount :=
  {| settings := settings d; meals := meals d; payment_methods := payment_methods d;
     orders := orders d; order_items := order_items d ++ rows |}.

Lemma create_items_ok order found its :
  forall (w : World amount) rows w',
  create_items order found its w = (Ok rows, w') ->
  rows = (fun item => (item_row order item, found_meal found item)) <$> its /\
  db w' = add_items (item_row order <$> its) (db w) /\ txn w' = txn w.
Proof.
  induction its as [|item rest IH]; intros w rows w' H; cbn [create_items] in H.
  - inversion H; subst. split; [reflexivity|]. split; [|reflexivity].
    unfold add_items. cbn. rewrite app_nil_r. destruct (db w'); reflexivity.
  - apply bind_ok_inv in H as ([] & w1 & H1 & H).
    apply bind_ok_inv in H as (done' & w2 & H2 & H).
    inversion H; subst. destruct (IH _ _ _ H2) as (Hrows & Hdb & Htxn).
    unfold OrderItem_create, db_call in H1.
    destruct (fault (ops w)); [discriminate|]. inversion H1; subst. cbn in *.
    split; [reflexivity|].
    split; [|exact Htxn]. rewrite Hdb. unfold add_items. cbn.
    rewrite <- app_assoc. reflexivity.
Qed.

Lemma read_store_names_reads :
  preserves db read_store_names /\ preserves txn read_store_names.
Proof.
  unfold read_store_names, Settings_findOne. split.
  - repeat first
      [ apply preserves_ret
      | apply db_call_reads; intros d; reflexivity
      | apply preserves_bind; [|intros ?]
      | apply preserves_try_catch; [|intros ?] ].
  - preserves_steps.
Qed.

(** The print data are built exactly when [meals.find] found a dish for
    every line; otherwise reading the name throws. *)
Lemma print_lines_cases (orderItems : list (OrderItemRow amount * option Meal))
    (w : World amount) :
  (Forall (fun r => is_Some r.2) orderItems /\
   exists lines, print_lines orderItems w = (Ok lines, w)) \/
  (Exists (fun r => r.2 = None) orderItems /\
   print_lines orderItems w = (Throw TypeError, w)).
Proof.
  induction orderItems as [|[row [meal|]] rest IH]; cbn [print_lines].
  - left. split; [constructor | eexists; reflexivity].
  - unfold bind. destruct IH as [[Hall (lines & ->)]|[Hex ->]].
    + left. split; [constructor; [eexists; reflexivity | exact Hall] | eexists; reflexivity].
    + right. split; [apply Exists_cons_tl, Hex | reflexivity].
  - right. split; [apply Exists_cons_hd; reflexivity | reflexivity].
Qed.

(** A dish is attached to a line only when the id of the line is a number,
    the key of that dish among those found. *)
Lemma found_meal_Some found (item : Item amount) m :
  found_meal found item = Some m ->
  exists k, mealId item = JNum k /\ (k, m) ∈ found.
Proof.
  unfold found_meal. intros H.
  destruct (List.find _ found) as [[k m']|] eqn:E; [|discriminate].
  inversion H; subst m'. apply find_some in E as [Hin Heq]. cbn in Heq.
  unfold strictly_equal in Heq. destruct (mealId item) as [| |n|]; try discriminate.
  apply Z.eqb_eq in Heq. subst n. exists k. split; [reflexivity|].
  apply list_elem_of_In. exact Hin.
Qed.

Lemma found_meal_is_Some found (item : Item amount) k m :
  mealId item = JNum k -> (k, m) ∈ found -> is_Some (found_meal found item).
Proof.
  intros Hid Hin. unfold found_meal.
  destruct (List.find (fun m0 => strictly_equal (fst m0) (mealId item)) found) eqn:E.
  - eexists. reflexivity.
  - exfalso. apply list_elem_of_In in Hin.
    pose proof (find_none _ _ E _ Hin) as Hnone. cbn in Hnone.
    rewrite Hid in Hnone. cbn in Hnone. rewrite Z.eqb_refl in Hnone. discriminate.
Qed.

Lemma active_meals_in_elem keys (ms : gmap Z Meal) k m :
  (k, m) ∈ active_meals_in keys ms <-> k ∈ keys /\ ms !! k = Some m /\ is_active m = true.
Proof.
  unfold active_meals_in. rewrite list_elem_of_filter, elem_of_map_to_list. cbn.
  split.
  - intros [HP Hm]. apply andb_prop in HP as [Hk Hact].
    apply bool_decide_eq_true in Hk. auto.
  - intros (Hk & Hm & Hact). split; [|exact Hm].
    rewrite bool_decide_eq_true_2 by exact Hk. exact Hact.
Qed.

Lemma createOrder_validate_ok orderData (w : World amount) found wv :
  createOrder_validate orderData w = (Ok found, wv) ->
  found = active_meals_in (omap sql_key (mealId <$> items orderData)) (meals (db w)) /\
  length found = length (items orderData) /\
  forall id, truthy_id (paymentMethodId orderData) = Some id ->
    exists p, payment_methods (db w) !! id = Some p /\ pm_is_active p = true.
Proof.
  unfold createOrder_validate. cbv zeta. intros H.
  apply bind_ok_inv in H as (found' & w1 & H1 & H).
  unfold Meal_findAll, db_call in H1.
  destruct (fault (ops w)); [discriminate|]. inversion H1; subst found' w1; clear H1.
  rewrite length_fmap in H.
  destruct (length (active_meals_in (omap sql_key (mealId <$> items orderData))
                      (meals (db w)))
            =? length (items orderData))%nat eqn:Hlen; [|discriminate].
  apply Nat.eqb_eq in Hlen. cbn [negb] in H.
  apply bind_ok_inv in H as ([] & w2 & H2 & H). inversion H; subst found wv; clear H.
  split; [reflexivity|]. split; [exact Hlen|].
  intros id Hid. rewrite Hid in H2.
  apply bind_ok_inv in H2 as (pm & w3 & H3 & H2).
  unfold PaymentMethod_findOne, db_call in H3. cbn [ops db] in H3.
  destruct (fault (S (ops w))); [discriminate|]. inversion H3; subst pm w3; clear H3.
  destruct (payment_methods (db w) !! id) as [p|]; [|discriminate].
  destruct (pm_is_active p) eqn:Hact; [|discriminate].
  eauto.
Qed.

(** What a run of [createOrder] that returns has done. *)
Lemma createOrder_ok_inv orderData env (w : World amount) c w' :
  createOrder orderData env w = (Ok c, w') ->
  exists found wv wb a w1,
    createOrder_validate orderData w = (Ok found, wv) /\
    transaction_begin wv = (Ok tt, wb) /\
    generateOrderNumber (default 0 (orderType orderData))
      (default 1 (storeId orderData)) env wb = (Ok a, w1) /\
    Forall (fun item => is_Some (found_meal found item)) (items orderData) /\
    success c = true /\ created_orderNumber c = orderNumber a /\
    orders (db w') = orders (db w) ++ [order_row orderData a (db w)] /\
    order_items (db w') =
      order_items (db w) ++ (item_row (order_row orderData a (db w)) <$> items orderData) /\
    settings (db w') = settings (db w1) /\
    meals (db w') = meals (db w) /\
    payment_methods (db w') = payment_methods (db w) /\
    txn w' = None.
Proof.
  unfold createOrder. destruct (items orderData) as [|it0 its0] eqn:Hits; [discriminate|].
  rewrite <- Hits. clear Hits it0 its0. intros H.
  destruct (createOrder_validate_reads orderData) as [Vdb _].
  apply bind_ok_inv in H as (found & wv & Hv & H).
  apply bind_ok_inv in H as ([] & wb & Hb & H).
  assert (Hdbb : db wb = db w).
  { unfold transaction_begin in Hb. destruct (fault (ops wv)); inversion Hb; subst.
    cbn. exact (Vdb _ _ _ Hv). }
  unfold try_catch in H.
  destruct (createOrder_transaction orderData found env wb) as [[c1|e] wt] eqn:Et.
  2: { unfold bind, transaction_rollback, throw in H.
       destruct (txn wt); discriminate. }
  inversion H; subst c1 wt; clear H.
  unfold createOrder_transaction in Et. cbv zeta in Et.
  apply bind_ok_inv in Et as (a & w1 & H1 & Et).
  apply bind_ok_inv in Et as (order & w2 & H2 & Et).
  apply bind_ok_inv in Et as (rows & w3 & H3 & Et).
  apply bind_ok_inv in Et as ([] & w4 & H4 & Et).
  apply bind_ok_inv in Et as ([] & w5 & H5 & Et).
  apply bind_ok_inv in Et as (lines & w6 & H6 & Et).
  inversion Et; subst; clear Et.
  exists found, wv, wb, a, w1.
  split; [exact Hv|]. split; [exact Hb|]. split; [exact H1|].
  assert (F1 : forall {S} (g : DB amount -> S),
             (forall s d, g (set_settings s d) = g d) -> g (db w1) = g (db wb)).
  { intros S g Hg.
    exact (generateOrderNumber_preserves g _ _ _ (fun v d => Hg _ d) (fun v d => Hg _ d)
             _ _ _ H1). }
  unfold Order_create, db_call in H2.
  destruct (fault (ops w1)); [discriminate|]. inversion H2; subst order w2; clear H2.
  apply create_items_ok in H3 as (Hrows & Hdb3 & Htxn3). cbn [db txn] in Hdb3, Htxn3.
  assert (Hdb4 : db w4 = db w3 /\ txn w4 = None).
  { unfold transaction_commit in H4. destruct (fault (ops w3)); inversion H4; subst.
    split; reflexivity. }
  destruct Hdb4 as [Hdb4 Htxn4].
  destruct read_store_names_reads as [Rdb Rtxn].
  pose proof (print_lines_pure _ _ _ _ H6) as Hw6. subst w'.
  split.
  { destruct (print_lines_cases rows w5) as [[Hall _]|[_ Hthrow]]; [|congruence].
    rewrite Hrows in Hall. rewrite Forall_fmap in Hall. exact Hall. }
  split; [reflexivity|]. split; [reflexivity|].
  rewrite (Rtxn _ _ _ H5), (Rdb _ _ _ H5), Hdb4, Hdb3. cbn.
  pose proof (F1 _ orders (fun _ _ => eq_refl)) as Ho.
  pose proof (F1 _ order_items (fun _ _ => eq_refl)) as Hi.
  pose proof (F1 _ meals (fun _ _ => eq_refl)) as Hm.
  pose proof (F1 _ payment_methods (fun _ _ => eq_refl)) as Hp.
  unfold order_row. rewrite Ho, Hi, Hm, Hp, Hdbb. repeat split. exact Htxn4.
Qed.

(** Whenever [createOrder] returns: the checks before the transaction
    passed, the transaction was opened, and [generateOrderNumber], run in
    that transaction with the order type and shop of the request (or their
    defaults 0 and 1), returned an allocation. The result reports success
    with the code of that allocation; the tables hold exactly one more order
    (with the next id, the code and the sequence of that allocation) and one
    more line per line of the request, in order, each with the id of that
    order and the subtotal price times quantity; the settings are as the
    allocator left them; dishes and payment methods are untouched and the
    transaction is committed. *)
Theorem createOrder_success orderData env (w : World amount) c w' :
  createOrder orderData env w = (Ok c, w') ->
  exists found wv wb a w1,
    createOrder_validate orderData w = (Ok found, wv) /\
    transaction_begin wv = (Ok tt, wb) /\
    generateOrderNumber (default 0 (orderType orderData))
      (default 1 (storeId orderData)) env wb = (Ok a, w1) /\
    success c = true /\ created_orderNumber c = orderNumber a /\
    orders (db w') = orders (db w) ++ [order_row orderData a (db w)] /\
    order_items (db w') =
      order_items (db w) ++ (item_row (order_row orderData a (db w)) <$> items orderData) /\
    settings (db w') = settings (db w1) /\
    meals (db w') = meals (db w) /\
    payment_methods (db w') = payment_methods (db w) /\
    txn w' = None.
Proof.
  intros H. apply createOrder_ok_inv in H
    as (found & wv & wb & a & w1 & Hv & Hb & Ha & _ & Hrest).
  exists found, wv, wb, a, w1. auto.
Qed.

(** *** Requests that go through *)

(** Distinct ids that all name dishes on sale are all found. *)
Lemma all_active_found mealIds (ms : gmap Z Meal) :
  NoDup mealIds ->
  (forall id, id ∈ mealIds -> exists m, ms !! id = Some m /\ is_active m = true) ->
  length (active_meals_in mealIds ms) = length mealIds.
Proof.
  intros Hnodup Hall.
  pose proof (submseteq_length _ _ (active_meals_in_submseteq mealIds ms)) as Hle.
  rewrite length_fmap in Hle.
  assert (Hsub : mealIds ⊆+ (active_meals_in mealIds ms).*1).
  { apply NoDup_submseteq; [exact Hnodup|]. intros id Hid.
    destruct (Hall id Hid) as (m & Hm & Hact).
    apply list_elem_of_fmap. exists (id, m). split; [reflexivity|].
    apply list_elem_of_filter. split.
    - cbn. rewrite bool_decide_eq_true_2 by exact Hid. exact Hact.
    - apply elem_of_map_to_list. exact Hm. }
  apply submseteq_length in Hsub. rewrite length_fmap in Hsub. lia.
Qed.

(** Distinct ids that are numbers, each the key of a dish on sale, pass the
    length test of the validation. *)
Lemma number_ids_found (mealIds : list jsval) (ms : gmap Z Meal) :
  NoDup mealIds ->
  (forall id, id ∈ mealIds ->
     exists n m, id = JNum n /\ ms !! n = Some m /\ is_active m = true) ->
  length (active_meals_in (omap sql_key mealIds) ms) = length mealIds.
Proof.
  intros Hnodup Hall.
  assert (Hkeys : sql_key <$> mealIds = Some <$> omap sql_key mealIds /\
                  length (omap sql_key mealIds) = length mealIds).
  { clear Hnodup. induction mealIds as [|id rest IH]; [split; reflexivity|].
    destruct (Hall id) as (n & m & -> & _); [left|].
    destruct IH as [IH1 IH2]; [intros x Hx; apply Hall; right; exact Hx|].
    cbn [omap list_omap sql_key]. rewrite !fmap_cons, IH1. cbn [sql_key length].
    split; [reflexivity | lia]. }
  destruct Hkeys as [Hfull Hlen]. rewrite <- Hlen.
  apply all_active_found.
  - apply (NoDup_fmap_1 Some). rewrite <- Hfull.
    apply NoDup_fmap_2_strong; [|exact Hnodup].
    intros x y Hx Hy Hxy.
    destruct (Hall x Hx) as (n & _ & -> & _). destruct (Hall y Hy) as (n' & _ & -> & _).
    cbn in Hxy. congruence.
  - intros k Hk.
    assert (Hin : Some k ∈ sql_key <$> mealIds)
      by (rewrite Hfull; apply list_elem_of_fmap; eauto).
    apply list_elem_of_fmap in Hin as (id & Hid & Hidin).
    destruct (Hall id Hidin) as (n & m & -> & Hm & Hact).
    cbn in Hid. inversion Hid; subst. eauto.
Qed.

Lemma create_items_runs order found its :
  (forall k, fault k = false) ->
  forall w : World amount, exists w',
    create_items order found its w =
      (Ok ((fun item => (item_row order item, found_meal found item)) <$> its), w') /\
    db w' = add_items (item_row order <$> its) (db w) /\ txn w' = txn w.
Proof.
  intros Hnf. induction its as [|item rest IH]; intros w; cbn [create_items].
  - exists w. split; [reflexivity|]. split; [|reflexivity].
    unfold add_items. cbn. rewrite app_nil_r. destruct (db w); reflexivity.
  - unfold bind at 1. unfold OrderItem_create. rewrite db_call_ok by apply Hnf.
    cbn [fst snd]. unfold bind at 1.
    match goal with
    | |- context [create_items order found rest ?w1] =>
        destruct (IH w1) as (w' & Hrest & Hdb & Htxn)
    end.
    rewrite Hrest. exists w'. split; [reflexivity|]. cbn [db txn] in Hdb, Htxn.
    split; [|exact Htxn]. rewrite Hdb. unfold add_items. cbn.
    rewrite <- app_assoc. reflexivity.
Qed.

(** Without database errors, a request that passes the checks is committed:
    the order and its lines are stored and the transaction is finished.
    What [createOrder] then does depends on the print data alone: it returns
    when [meals.find] found a dish for every line, and otherwise throws the
    error of the rollback that it attempts on the finished transaction. *)
Lemma createOrder_commits orderData env (w : World amount) :
  (forall k, fault k = false) ->
  items orderData <> [] ->
  length (active_meals_in (omap sql_key (mealId <$> items orderData)) (meals (db w))) =
    length (items orderData) ->
  (forall id, truthy_id (paymentMethodId orderData) = Some id ->
     exists p, payment_methods (db w) !! id = Some p /\ pm_is_active p = true) ->
  exists a w',
    orders (db w') = orders (db w) ++ [order_row orderData a (db w)] /\
    order_items (db w') =
      order_items (db w) ++ (item_row (order_row orderData a (db w)) <$> items orderData) /\
    txn w' = None /\
    exists r, createOrder orderData env w = (r, w') /\
    ((Forall (fun item =>
                is_Some (found_meal
                  (active_meals_in (omap sql_key (mealId <$> items orderData))
                     (meals (db w))) item)) (items orderData) /\
      r = Ok {| success := true; created_orderNumber := orderNumber a |}) \/
     (Exists (fun item =>
                found_meal
                  (active_meals_in (omap sql_key (mealId <$> items orderData))
                     (meals (db w))) item = None) (items orderData) /\
      r = Throw TransactionFinished)).
Proof.
  intros Hnf Hne Hlen Hpay. unfold createOrder.
  destruct (items orderData) as [|it0 its0] eqn:Hits; [congruence|].
  rewrite <- Hits in *. clear Hits it0 its0.
  unfold bind at 1. unfold createOrder_validate. cbv zeta.
  unfold bind at 1. unfold Meal_findAll. rewrite db_call_ok by apply Hnf. cbn [fst snd].
  rewrite length_fmap, Hlen, Nat.eqb_refl. cbn [negb].
  set (found := active_meals_in (omap sql_key (mealId <$> items orderData)) (meals (db w))).
  unfold bind at 1.
  assert (Hpm : exists wp,
    (match truthy_id (paymentMethodId orderData) with
     | Some id =>
         bind (PaymentMethod_findOne id)
           (fun paymentMethod =>
              match paymentMethod with
              | Some _ => ret tt
              | None => throw PaymentMethodInactive
              end)
     | None => ret tt
     end) {| db := db w; txn := txn w; ops := S (ops w) |} = (Ok tt, wp) /\ db wp = db w).
  { destruct (truthy_id (paymentMethodId orderData)) as [id|] eqn:Eid.
    - destruct (Hpay id eq_refl) as (p & Hp & Hact).
      unfold bind, PaymentMethod_findOne. rewrite db_call_ok by apply Hnf.
      cbn [fst snd db]. rewrite Hp, Hact. eexists. split; reflexivity.
    - eexists. split; reflexivity. }
  destruct Hpm as (wp & Hpm & Hdbp). rewrite Hpm. cbv [ret].
  unfold bind at 1. unfold transaction_begin. rewrite Hnf.
  unfold try_catch, createOrder_transaction. cbv zeta.
  unfold bind at 1.
  match goal with
  | |- context [generateOrderNumber ?ot ?sid env ?w0] =>
      destruct (generateOrderNumber_total ot sid env w0) as (a & w1 & Ha);
      assert (F1 : forall S (g : DB amount -> S),
                (forall s d, g (set_settings s d) = g d) -> g (db w1) = g (db w0))
        by (intros S g Hg;
            exact (generateOrderNumber_preserves g _ _ _ (fun v d => Hg _ d)
                     (fun v d => Hg _ d) _ _ _ Ha))
  end.
  cbn [db] in F1.
  rewrite Ha. unfold bind at 1. unfold Order_create. rewrite db_call_ok by apply Hnf.
  cbn [fst snd]. unfold bind at 1.
  match goal with
  | |- context [create_items ?o ?f (items orderData) ?w2] =>
      destruct (create_items_runs o f (items orderData) Hnf w2) as (w3 & Hrows & Hdb3 & _)
  end.
  cbn [db] in Hdb3.
  rewrite Hrows. unfold bind at 1. unfold transaction_commit. rewrite Hnf.
  unfold bind at 1.
  match goal with
  | |- context [read_store_names ?w4] =>
      destruct (read_store_names_total w4) as ([] & w5 & Hread);
      destruct read_store_names_reads as [Rdb Rtxn];
      pose proof (Rdb _ _ _ Hread) as Hdb5; pose proof (Rtxn _ _ _ Hread) as Htxn5
  end.
  cbn [db txn] in Hdb5, Htxn5.
  rewrite Hread. unfold bind at 1.
  pose proof (F1 _ orders (fun _ _ => eq_refl)) as Ho.
  pose proof (F1 _ order_items (fun _ _ => eq_refl)) as Hi.
  assert (Horders : orders (db w5) = orders (db w) ++ [order_row orderData a (db w)]).
  { rewrite Hdb5, Hdb3. cbn. unfold order_row. rewrite Ho, Hdbp. reflexivity. }
  assert (Hlines : order_items (db w5) =
            order_items (db w) ++
            (item_row (order_row orderData a (db w)) <$> items orderData)).
  { rewrite Hdb5, Hdb3. cbn. unfold order_row. rewrite Ho, Hi, Hdbp. reflexivity. }
  match goal with
  | |- context [print_lines ?rows w5] =>
      destruct (print_lines_cases rows w5) as [[Hall (lines & Hp)]|[Hex Hp]]; rewrite Hp
  end.
  - exists a, w5. split; [exact Horders|]. split; [exact Hlines|]. split; [exact Htxn5|].
    eexists. split; [reflexivity|]. left. split; [|reflexivity].
    rewrite Forall_fmap in Hall. exact Hall.
  - exists a, w5. split; [exact Horders|]. split; [exact Hlines|]. split; [exact Htxn5|].
    eexists. split.
    + unfold bind, transaction_rollback. rewrite Htxn5. reflexivity.
    + right. split; [|reflexivity]. rewrite Exists_fmap in Hex. exact Hex.
Qed.

Lemma createOrder_runs orderData env (w : World amount) :
  (forall k, fault k = false) ->
  items orderData <> [] ->
  NoDup (mealId <$> items orderData) ->
  (forall id, id ∈ mealId <$> items orderData ->
     exists n m, id = JNum n /\ meals (db w) !! n = Some m /\ is_active m = true) ->
  (forall id, truthy_id (paymentMethodId orderData) = Some id ->
     exists p, payment_methods (db w) !! id = Some p /\ pm_is_active p = true) ->
  exists c w', createOrder orderData env w = (Ok c, w').
Proof.
  intros Hnf Hne Hnodup Hall Hpay.
  pose proof (number_ids_found _ _ Hnodup Hall) as Hlen. rewrite length_fmap in Hlen.
  destruct (createOrder_commits orderData env w Hnf Hne Hlen Hpay)
    as (a & w' & _ & _ & _ & r & Hrun & [[_ ->]|[Hex _]]); [eauto|].
  exfalso. apply Exists_exists in Hex as (item & Hin & Hnone).
  destruct (Hall (mealId item)) as (n & m & Hid & Hm & Hact).
  { apply list_elem_of_fmap. exists item. split; [reflexivity | exact Hin]. }
  assert (Hsome : is_Some (found_meal
            (active_meals_in (omap sql_key (mealId <$> items orderData)) (meals (db w)))
            item)).
  { apply (found_meal_is_Some _ item n m Hid). apply active_meals_in_elem.
    split; [|auto]. apply list_elem_of_omap. exists (mealId item).
    split; [|rewrite Hid; reflexivity].
    apply list_elem_of_fmap. exists item. split; [reflexivity | exact Hin]. }
  rewrite Hnone in Hsome. destruct Hsome as [x Hx]. discriminate.
Qed.

(** When no database call is rejected, a request with at least one line,
    whose lines name distinct dishes that are all on sale, each by the
    number that is its key, and whose payment method, if one is given, is
    enabled, is accepted: [createOrder] returns. *)
Theorem createOrder_accepts orderData env (w : World amount) :
  (forall k, fault k = false) ->
  items orderData <> [] ->
  NoDup (mealId <$> items orderData) ->
  (forall id, id ∈ mealId <$> items orderData ->
     exists n m, id = JNum n /\ meals (db w) !! n = Some m /\ is_active m = true) ->
  (forall id, truthy_id (paymentMethodId orderData) = Some id ->
     exists p, payment_methods (db w) !! id = Some p /\ pm_is_active p = true) ->
  exists c w', createOrder orderData env w = (Ok c, w').
Proof. apply createOrder_runs. Qed.

(** A payment method that is given (its id is not 0) but does not exist or
    is disabled makes [createOrder] throw the payment-method error before
    the transaction is opened, once the dishes were found and when neither
    query is rejected by the database; the tables are untouched. *)
Theorem disabled_payment_method_rejected orderData env (w : World amount) id :
  fault (ops w) = false -> fault (1 + ops w)%nat = false ->
  items orderData <> [] ->
  length (active_meals_in (omap sql_key (mealId <$> items orderData)) (meals (db w))) =
    length (items orderData) ->
  truthy_id (paymentMethodId orderData) = Some id ->
  (forall p, payment_methods (db w) !! id = Some p -> pm_is_active p = false) ->
  createOrder orderData env w =
  (Throw PaymentMethodInactive, {| db := db w; txn := txn w; ops := (2 + ops w)%nat |}).
Proof.
  intros F0 F1 Hne Hlen Hid Hoff. unfold createOrder.
  destruct (items orderData) as [|it0 its0] eqn:Hits; [congruence|].
  rewrite <- Hits in *. clear Hits it0 its0.
  unfold bind at 1. unfold createOrder_validate. cbv zeta.
  unfold bind at 1. unfold Meal_findAll. rewrite (db_call_ok _ w F0). cbn [fst snd].
  rewrite length_fmap, Hlen, Nat.eqb_refl. cbn [negb].
  unfold bind at 1. rewrite Hid.
  unfold bind at 1. unfold PaymentMethod_findOne. rewrite db_call_ok by exact F1.
  cbn [fst snd db].
  destruct (payment_methods (db w) !! id) as [p|] eqn:Hp.
  - rewrite (Hoff p eq_refl). reflexivity.
  - reflexivity.
Qed.

(** *** What an accepted request had to satisfy *)

Lemma createOrder_ok_checked orderData env (w : World amount) c w' :
  createOrder orderData env w = (Ok c, w') ->
  items orderData <> [] /\
  NoDup (mealId <$> items orderData) /\
  (forall id, id ∈ mealId <$> items orderData ->
     exists n m, id = JNum n /\ meals (db w) !! n = Some m /\ is_active m = true) /\
  (forall id, truthy_id (paymentMethodId orderData) = Some id ->
     exists p, payment_methods (db w) !! id = Some p /\ pm_is_active p = true).
Proof.
  intros H.
  assert (Hne : items orderData <> []).
  { unfold createOrder in H. destruct (items orderData); [discriminate | discriminate]. }
  apply createOrder_ok_inv in H
    as (found & wv & wb & a & w1 & Hv & _ & _ & Hfound & _).
  apply createOrder_validate_ok in Hv as (Hf & Hlen & Hpay).
  split; [exact Hne|].
  rewrite Hf, <- (length_fmap mealId) in Hlen.
  apply all_ids_found in Hlen as (Hnodup & _ & _ & _).
  split; [exact Hnodup|]. split; [|exact Hpay].
  intros id Hid. apply list_elem_of_fmap in Hid as (item & -> & Hin).
  rewrite Forall_forall in Hfound. destruct (Hfound item Hin) as [m Hm].
  apply found_meal_Some in Hm as (k & Hk & Hkm).
  rewrite Hf in Hkm. apply active_meals_in_elem in Hkm as (_ & Hm & Hact).
  eauto.
Qed.

(** An order is only ever created for a request that has at least one line,
    names a different dish in every line, each by the number that is the key
    of a dish on sale when the call was made, and pays with an enabled
    method when one is given. Whatever the database does, [createOrder]
    does not return for any other request. *)
Theorem created_order_was_valid orderData env (w : World amount) c w' :
  createOrder orderData env w = (Ok c, w') ->
  items orderData <> [] /\
  NoDup (mealId <$> items orderData) /\
  (forall id, id ∈ mealId <$> items orderData ->
     exists n m, id = JNum n /\ meals (db w) !! n = Some m /\ is_active m = true) /\
  (forall id, truthy_id (paymentMethodId orderData) = Some id ->
     exists p, payment_methods (db w) !! id = Some p /\ pm_is_active p = true).
Proof. apply createOrder_ok_checked. Qed.

(** *** An id that is not a number *)

(** The check of [createOrder] counts the dishes that the database finds;
    the loop over the lines looks each dish up again with [===]. For an id
    that the database reads as the key of a dish on sale but that is not a
    number (the text "5"), the two disagree: without database errors, such a
    request passes the checks and its order and lines are committed, then
    building the print data throws, the rollback attempted on the committed
    transaction throws in turn, and [createOrder] throws that error with the
    order stored. *)
Theorem unmatched_id_commits_then_throws orderData env (w : World amount) :
  (forall k, fault k = false) ->
  items orderData <> [] ->
  length (active_meals_in (omap sql_key (mealId <$> items orderData)) (meals (db w))) =
    length (items orderData) ->
  (forall id, truthy_id (paymentMethodId orderData) = Some id ->
     exists p, payment_methods (db w) !! id = Some p /\ pm_is_active p = true) ->
  (exists item, item ∈ items orderData /\ forall n, mealId item <> JNum n) ->
  exists a w',
    createOrder orderData env w = (Throw TransactionFinished, w') /\
    orders (db w') = orders (db w) ++ [order_row orderData a (db w)] /\
    order_items (db w') =
      order_items (db w) ++ (item_row (order_row orderData a (db w)) <$> items orderData) /\
    txn w' = None.
Proof.
  intros Hnf Hne Hlen Hpay (item & Hin & Hnot).
  destruct (createOrder_commits orderData env w Hnf Hne Hlen Hpay)
    as (a & w' & Horders & Hlines & Htxn & r & Hrun & [[Hall _]|[_ ->]]).
  - exfalso. rewrite Forall_forall in Hall. destruct (Hall item Hin) as [m Hm].
    apply found_meal_Some in Hm as (k & Hk & _). exact (Hnot k Hk).
  - exists a, w'. auto.
Qed.

(** *** The fallback code *)

Lemma substring_length_le n m s : (String.length (String.substring n m s) <= m)%nat.
Proof.
  revert n m. induction s as [|c s IH]; intros n m.
  - destruct n, m; cbn; lia.
  - destruct n as [|n].
    + destruct m as [|m]; cbn; [lia|]. specialize (IH 0%nat m). lia.
    + cbn. apply IH.
Qed.

(** The fallback of [generateOrderNumber] cannot be taken for a regular
    code: it starts with the letters OF, has at most 10 characters and
    sequence 0, does not have the format of a regular code for either order
    kind, and differs from every code the allocator composes. *)
Theorem fallback_is_recognisable env orderType storeId env' s dailySequence' :
  String.prefix "OF" (orderNumber (fallback env)) = true /\
  (String.length (orderNumber (fallback env)) <= 10)%nat /\
  dailySequence (fallback env) = 0 /\
  code_pattern "D" (orderNumber (fallback env)) = false /\
  code_pattern "T" (orderNumber (fallback env)) = false /\
  String.eqb (orderNumber (fallback env))
    (composed orderType storeId env' s dailySequence') = false.
Proof.
  unfold fallback. cbn [orderNumber dailySequence].
  change ("OF" +:+ ?x) with (String "O" (String "F" x)).
  repeat apply conj; try reflexivity.
  - cbn. destruct (slice_last 8 (String_Z (Date_now env))); reflexivity.
  - cbn [String.length]. pose proof (substring_length_le
      (String.length (String_Z (Date_now env)) - 8) 8 (String_Z (Date_now env))).
    unfold slice_last. lia.
  - unfold composed, businessCode. destruct (orderType =? 1); reflexivity.
Qed.

End Service.

(** *** The code on concrete stores *)

Definition no_faults : nat -> bool := fun _ => false.

(** Only the [n]-th database call is rejected. *)
Definition fails_at (n : nat) : nat -> bool := fun k => (k =? n)%nat.

(** 29 September 2025, 12:00:39. *)
Definition sample_clock : Clock :=
  {| getFullYear := 2025; getMonth := 8; getDate := 29;
     getHours := 12; getMinutes := 0; getSeconds := 39 |}.

Definition sample_env : Env :=
  {| now := sample_clock; random100 := 9; Date_now := 1759118439092 |}.

Definition sample_meals : gmap Z Meal :=
  {[ 5 := {| name_zh := ""; name_en := "Fried rice"; is_active := true |};
     6 := {| name_zh := ""; name_en := "Soup"; is_active := false |} ]}.

Definition db_with (s : gmap string text) : DB Z :=
  {| settings := s; meals := sample_meals; payment_methods := ∅;
     orders := []; order_items := [] |}.

(** The counters as the previous day left them: 57 dine-in orders and 12
    takeout orders on 28 September. *)
Definition yesterday_db : DB Z :=
  db_with {[ "daily_sequence_date" := Json (JStr "20250928");
             "daily_dine_in_sequence" := Json (JNum 57);
             "daily_takeout_sequence" := Json (JNum 12) ]}.

(** The same counters later on 29 September. *)
Definition today_db : DB Z :=
  db_with {[ "daily_sequence_date" := Json (JStr "20250929");
             "daily_dine_in_sequence" := Json (JNum 57);
             "daily_takeout_sequence" := Json (JNum 12) ]}.

(** A shop whose branch number was entered as the text A01. *)
Definition lettered_branch_db : DB Z :=
  db_with {[ "store_number" := Json (JStr "A01");
             "daily_sequence_date" := Json (JStr "20250929");
             "daily_dine_in_sequence" := Json (JNum 57) ]}.

Definition idle (d : DB Z) : World Z := {| db := d; txn := None; ops := 0 |}.

(** A database that reads a text of decimal digits as the integer it
    writes, and no integer in any other value that is not a number. *)
Definition numeric_text (id : jsval) : option Z :=
  match id with
  | JStr s => if all_digits s then read_digits 10 s None else None
  | _ => None
  end.

(** Inside a transaction that has just been opened. *)
Definition in_transaction (d : DB Z) : World Z := {| db := d; txn := Some d; ops := 0 |}.

Definition one_line : OrderData Z :=
  {| items := [ {| mealId := JNum 5; quantity := 2; price := 12 |} ];
     totalAmount := 24; storeId := None; orderType := None;
     paymentMethodId := None |}.

Definition same_dish_twice : OrderData Z :=
  {| items := [ {| mealId := JNum 5; quantity := 1; price := 12 |};
                {| mealId := JNum 5; quantity := 1; price := 12 |} ];
     totalAmount := 24; storeId := None; orderType := None;
     paymentMethodId := None |}.


(** C1 fails as stated: inside the transaction of [createOrder], the read of
    the dine-in counter (the fourth database call) is rejected; the
    allocator returns the fallback code, the transaction is committed and
    the order is stored with that code and sequence 0. Called directly in an
    open transaction, the allocator returns the fallback code and leaves the
    transaction open. *)
Lemma fallback_code_inside_transaction :
  (let '(r, w) := createOrder Z.mul (fails_at 3) numeric_text one_line sample_env (idle today_db) in
   (r, order_number <$> orders (db w), daily_sequence <$> orders (db w), txn w)) =
  (Ok {| success := true; created_orderNumber := "OF18439092" |},
   ["OF18439092"%string], [0], None) /\
  (let '(r, w) := generateOrderNumber (fails_at 1) 0 1 sample_env (in_transaction today_db) in
   (r, txn w)) =
  (Ok {| orderNumber := "OF18439092"; dailySequence := 0 |}, Some today_db).
Proof. split; vm_compute; reflexivity. Qed.

(** C2 on the code: after 57 dine-in and 12 takeout orders on the 28th, the
    first dine-in order of the 29th gets sequence 1, and the first takeout
    order of the 29th, placed after it, gets 13: the date was already moved
    to the 29th by the dine-in order, so the takeout counter goes on from
    the previous day. *)
Theorem second_kind_continues_previous_day :
  (allocate_all no_faults [(0, 1, sample_env); (1, 1, sample_env)] (idle yesterday_db)).1 =
  Ok [(0, {| orderNumber := "D00120250929120039090001"; dailySequence := 1 |});
      (1, {| orderNumber := "T00120250929120039090013"; dailySequence := 13 |})].
Proof. vm_compute. reflexivity. Qed.

(** C4 on the code: with the branch number stored as the text A01,
    [parseInt] gives [NaN] without throwing, the [catch] that falls back to
    the shop id is not reached, and the order code carries the letters NaN
    where three digits belong. *)
Theorem lettered_branch_number_breaks_pattern :
  (generateOrderNumber no_faults 0 1 sample_env (idle lettered_branch_db)).1 =
  Ok {| orderNumber := "DNaN20250929120039090058"; dailySequence := 58 |} /\
  code_pattern "D" "DNaN20250929120039090058" = false /\
  code_pattern "D" "D00120250929120039090058" = true.
Proof. repeat split; vm_compute; reflexivity. Qed.



(** The numbers of that run: 58 and 59 for the dine-in orders. *)
Example same_day_sequences_example :
  handed_to 0
    (match (allocate_all no_faults
              [(0, 1, sample_env); (1, 1, sample_env); (0, 1, sample_env)]
              (idle today_db)).1 with
     | Ok results => results
     | Throw _ => []
     end) = [58; 59].
Proof. vm_compute. reflexivity. Qed.



(** C10 at a request with the dish 5, which is on sale, in both lines. *)
Lemma duplicate_lines_rejected_witness :
  exists e w', createOrder Z.mul no_faults numeric_text same_dish_twice sample_env
                 (idle today_db) = (Throw e, w') /\
    db w' = today_db /\ txn w' = None /\ (no_faults 0%nat = false -> e = PartialItems).
Proof.
  apply (duplicate_lines_rejected Z.mul no_faults numeric_text same_dish_twice sample_env
           (idle today_db)).
  intros H. apply NoDup_cons in H as [H _]. apply H. left.
Defined.

(** A request that pays with a method that does not exist. *)
Definition unknown_payment_method : OrderData Z :=
  {| items := [ {| mealId := JNum 5; quantity := 2; price := 12 |} ];
     totalAmount := 24; storeId := None; orderType := None;
     paymentMethodId := Some 9 |}.

(** Two portions of dish 5, the id sent as the text "5". *)
Definition text_id_line : OrderData Z :=
  {| items := [ {| mealId := JStr "5"; quantity := 2; price := 12 |} ];
     totalAmount := 24; storeId := None; orderType := None;
     paymentMethodId := None |}.

(** The rejected counter write after 57 dine-in orders of the day: the next
    order gets number 1 again. *)
Lemma rejected_counter_write_restarts_at_one_witness :
  generateOrderNumber (fails_at 3) 0 1 sample_env (idle today_db) =
  (Ok {| orderNumber := composed 0 1 sample_env (settings (db (idle today_db))) 1;
         dailySequence := 1 |},
   with_settings (<[sequenceKey 0 := Json (JNum 1)]> (settings (db (idle today_db)))) 5
     (idle today_db)).
Proof.
  apply (rejected_counter_write_restarts_at_one (fails_at 3) 0 1 sample_env
           (idle today_db) (JNum 57)); reflexivity.
Defined.

(** The order of two portions of dish 5 as the 58th dine-in order of the
    day: the allocation is the one made in the transaction, after the
    catalog query and the opening of the transaction. *)
Lemma createOrder_success_witness :
  exists found wv wb a w1,
    createOrder_validate no_faults numeric_text one_line (idle today_db) = (Ok found, wv) /\
    transaction_begin no_faults wv = (Ok tt, wb) /\
    generateOrderNumber no_faults (default 0 (orderType one_line))
      (default 1 (storeId one_line)) sample_env wb = (Ok a, w1) /\
    success {| success := true; created_orderNumber := "D00120250929120039090058" |} = true /\
    created_orderNumber
      {| success := true; created_orderNumber := "D00120250929120039090058" |} =
      orderNumber a /\
    orders (db (createOrder Z.mul no_faults numeric_text one_line sample_env
                  (idle today_db)).2) =
      orders (db (idle today_db)) ++ [order_row one_line a (db (idle today_db))] /\
    order_items (db (createOrder Z.mul no_faults numeric_text one_line sample_env
                       (idle today_db)).2) =
      order_items (db (idle today_db)) ++
      (item_row Z.mul (order_row one_line a (db (idle today_db))) <$> items one_line) /\
    settings (db (createOrder Z.mul no_faults numeric_text one_line sample_env
                    (idle today_db)).2) = settings (db w1) /\
    meals (db (createOrder Z.mul no_faults numeric_text one_line sample_env
                 (idle today_db)).2) = meals (db (idle today_db)) /\
    payment_methods (db (createOrder Z.mul no_faults numeric_text one_line sample_env
                           (idle today_db)).2) = payment_methods (db (idle today_db)) /\
    txn (createOrder Z.mul no_faults numeric_text one_line sample_env (idle today_db)).2 = None.
Proof.
  apply (createOrder_success Z.mul no_faults numeric_text one_line sample_env (idle today_db)).
  vm_compute. reflexivity.
Defined.

Lemma createOrder_accepts_witness :
  exists c w', createOrder Z.mul no_faults numeric_text one_line sample_env (idle today_db)
               = (Ok c, w').
Proof.
  apply (createOrder_accepts Z.mul no_faults numeric_text one_line sample_env (idle today_db)).
  - reflexivity.
  - discriminate.
  - apply NoDup_singleton.
  - intros id Hid. apply list_elem_of_singleton in Hid. subst id.
    eexists _, _. split; [reflexivity|]. split; reflexivity.
  - intros id Hid. discriminate.
Defined.

Lemma created_order_was_valid_witness :
  items one_line <> [] /\
  NoDup (mealId <$> items one_line) /\
  (forall id, id ∈ mealId <$> items one_line ->
     exists n m, id = JNum n /\ meals (db (idle today_db)) !! n = Some m /\
                 is_active m = true) /\
  (forall id, truthy_id (paymentMethodId one_line) = Some id ->
     exists p, payment_methods (db (idle today_db)) !! id = Some p /\ pm_is_active p = true).
Proof.
  apply (created_order_was_valid Z.mul no_faults numeric_text one_line sample_env
           (idle today_db)
           {| success := true; created_orderNumber := "D00120250929120039090058" |}
           (createOrder Z.mul no_faults numeric_text one_line sample_env (idle today_db)).2).
  vm_compute. reflexivity.
Defined.

Lemma disabled_payment_method_rejected_witness :
  createOrder Z.mul no_faults numeric_text unknown_payment_method sample_env (idle today_db) =
  (Throw PaymentMethodInactive,
   {| db := db (idle today_db); txn := txn (idle today_db);
      ops := (2 + ops (idle today_db))%nat |}).
Proof.
  apply (disabled_payment_method_rejected Z.mul no_faults numeric_text unknown_payment_method
           sample_env (idle today_db) 9).
  - reflexivity.
  - reflexivity.
  - discriminate.
  - vm_compute. reflexivity.
  - reflexivity.
  - intros p Hp. vm_compute in Hp. discriminate.
Defined.

(** Dish 5 ordered with the id "5": the order and its line are stored, and
    [createOrder] throws. *)
Lemma unmatched_id_commits_then_throws_witness :
  exists a w',
    createOrder Z.mul no_faults numeric_text text_id_line sample_env (idle today_db) =
      (Throw TransactionFinished, w') /\
    orders (db w') =
      orders (db (idle today_db)) ++ [order_row text_id_line a (db (idle today_db))] /\
    order_items (db w') =
      order_items (db (idle today_db)) ++
      (item_row Z.mul (order_row text_id_line a (db (idle today_db))) <$> items text_id_line) /\
    txn w' = None.
Proof.
  apply (unmatched_id_commits_then_throws Z.mul no_faults numeric_text text_id_line sample_env
           (idle today_db)).
  - reflexivity.
  - discriminate.
  - vm_compute. reflexivity.
  - intros id Hid. discriminate.
  - eexists. split; [left|]. intros n. discriminate.
Defined.

End OrderService.

(** * The orders endpoint

    [createOrder] of the controller in routes/orderFood.js: it checks the
    request body, calls [OrderService.createOrder] and turns the outcome into
    an HTTP response. *)

Module OrderController.

(** A line of the request body; a field that is missing is [None]. The id
    is the JSON scalar that was sent. *)
Record RawItem (amount : Type) := {
  mealId : option JS.jsval;
  quantity : option Z;
  price : option amount
}.
Arguments mealId {amount} _.
Arguments quantity {amount} _.
Arguments price {amount} _.

(** [req.body]. [items] is [None] when the field is missing or not an
    array. *)
Record Body (amount : Type) := {
  items : option (list (RawItem amount));
  totalAmount : option amount;
  storeId : option Z;
  orderType : option Z;
  paymentMethodId : option Z
}.
Arguments items {amount} _.
Arguments totalAmount {amount} _.
Arguments storeId {amount} _.
Arguments orderType {amount} _.
Arguments paymentMethodId {amount} _.

(** The four messages sent with status 400. *)
Inductive refusal :=
| EmptyLines
| InvalidTotal
| MalformedLine
| NonPositiveQuantity.

Inductive Response :=
| BadRequest (why : refusal)
| Success (result : OrderService.Created)
| ServerError (e : OrderService.error).

(** [!v] for a number that may be missing. *)
Definition falsy (v : option Z) : bool :=
  match v with
  | None | Some 0 => true
  | Some _ => false
  end.

(** The scalars that are not falsy: every number but 0, every text but the
    empty one, and [true]. *)
Definition truthy (v : JS.jsval) : bool :=
  match v with
  | JS.JNull | JS.JBool false | JS.JNum 0 | JS.JStr EmptyString => false
  | _ => true
  end.

(** [storeId || 1] *)
Definition or_one (v : option Z) : Z :=
  match v with
  | None | Some 0 => 1
  | Some id => id
  end.

(** [orderType !== undefined ? (orderType === 0 || orderType === 1 ? orderType : 0) : 0] *)
Definition validOrderType (orderType : option Z) : Z :=
  match orderType with
  | Some t => if (t =? 0) || (t =? 1) then t else 0
  | None => 0
  end.

Section Controller.

Context {amount : Type} (times : amount -> Z -> amount)
        (nonpositive : amount -> bool) (fault : nat -> bool)
        (sql_integer : JS.jsval -> option Z).

(** The loop over the lines: the first line that fails a check decides the
    refusal; lines that pass are handed on with their fields present. *)
Fixpoint check_items (its : list (RawItem amount)) :
    refusal + list (OrderService.Item amount) :=
  match its with
  | [] => inr []
  | item :: rest =>
      match mealId item, price item with
      | Some id, Some p =>
          if negb (truthy id) || falsy (quantity item) then inl MalformedLine
          else if default 0 (quantity item) <=? 0 then inl NonPositiveQuantity
          else match check_items rest with
               | inl why => inl why
               | inr lines =>
                   inr ({| OrderService.mealId := id;
                           OrderService.quantity := default 0 (quantity item);
                           OrderService.price := p |} :: lines)
               end
      | _, _ => inl MalformedLine
      end
  end.

(** The argument of the call of the service. *)
Definition service_request (body : Body amount) (lines : list (OrderService.Item amount))
    (total : amount) : OrderService.OrderData amount :=
  {| OrderService.items := lines;
     OrderService.totalAmount := total;
     OrderService.storeId := Some (or_one (storeId body));
     OrderService.orderType := Some (validOrderType (orderType body));
     OrderService.paymentMethodId := OrderService.truthy_id (paymentMethodId body) |}.

(** [createOrder(req, res)]: the response that is sent. *)
Definition createOrder (body : Body amount) (env : OrderService.Env) :
    OrderService.M amount Response :=
  match items body with
  | None | Some [] => OrderService.ret (BadRequest EmptyLines)
  | Some its =>
      match totalAmount body with
      | None => OrderService.ret (BadRequest InvalidTotal)
      | Some total =>
          if nonpositive total then OrderService.ret (BadRequest InvalidTotal) else
          match check_items its with
          | inl why => OrderService.ret (BadRequest why)
          | inr lines =>
              OrderService.try_catch
                (OrderService.bind
                   (OrderService.createOrder times fault sql_integer
                      (service_request body lines total) env)
                   (fun result => OrderService.ret (Success result)))
                (fun e => OrderService.ret (ServerError e))
          end
      end
  end.

(** ** Properties *)

Lemma check_items_ok its :
  forall lines, check_items its = inr lines ->
  length lines = length its /\
  Forall (fun l => 0 < OrderService.quantity l /\ truthy (OrderService.mealId l) = true)
    lines.
Proof.
  induction its as [|item rest IH]; intros lines H; cbn [check_items] in H.
  - inversion H. split; [reflexivity | constructor].
  - destruct (mealId item) as [id|]; [|discriminate].
    destruct (price item) as [p|]; [|discriminate].
    destruct (truthy id) eqn:Hid; cbn [negb orb] in H; [|discriminate].
    assert (Hq : falsy (quantity item) = false).
    { destruct (falsy (quantity item)); [discriminate | reflexivity]. }
    rewrite Hq in H.
    destruct (default 0 (quantity item) <=? 0) eqn:Hpos; [discriminate|].
    destruct (check_items rest) as [why|lines']; [discriminate|].
    inversion H; subst lines; clear H.
    destruct (IH lines' eq_refl) as [Hlen Hall].
    split; [cbn; lia|]. constructor; [|exact Hall]. cbn. split.
    + apply Z.leb_gt in Hpos. exact Hpos.
    + exact Hid.
Qed.

Lemma validOrderType_range t : validOrderType t = 0 \/ validOrderType t = 1.
Proof.
  destruct t as [t|]; cbn; [|auto].
  destruct (t =? 0) eqn:H0; cbn.
  - apply Z.eqb_eq in H0. auto.
  - destruct (t =? 1) eqn:H1; [apply Z.eqb_eq in H1|]; auto.
Qed.

Lemma or_one_nonzero v : or_one v <> 0.
Proof. destruct v as [[| |]|]; cbn; discriminate. Qed.

Lemma responds_after_service orderData env (w : OrderService.World amount) :
  exists r w',
    OrderService.try_catch
      (OrderService.bind (OrderService.createOrder times fault sql_integer orderData env)
         (fun result => OrderService.ret (Success result)))
      (fun e => OrderService.ret (ServerError e)) w = (OrderService.Ok r, w') /\
    match r with
    | BadRequest _ => False
    | ServerError e =>
        OrderService.createOrder times fault sql_integer orderData env w =
          (OrderService.Throw e, w')
    | Success c =>
        OrderService.createOrder times fault sql_integer orderData env w =
          (OrderService.Ok c, w')
    end.
Proof.
  unfold OrderService.try_catch, OrderService.bind.
  destruct (OrderService.createOrder times fault sql_integer orderData env w)
    as [[c|e] w1].
  - exists (Success c), w1. split; reflexivity.
  - exists (ServerError e), w1. split; reflexivity.
Qed.

(** The endpoint always answers: no exception leaves [createOrder]. A
    request answered with status 400 made no database call at all. One
    answered with status 500 left every table as it was, unless the error
    it reports is the one of the rollback of a finished transaction: that
    one is thrown after a commit, and says nothing about what is stored. An
    answer with status 200 carries the success flag. *)
Theorem createOrder_responds (body : Body amount) env (w : OrderService.World amount) :
  exists r w', createOrder body env w = (OrderService.Ok r, w') /\
    match r with
    | BadRequest _ => w' = w
    | ServerError e =>
        e <> OrderService.TransactionFinished -> OrderService.db w' = OrderService.db w
    | Success c => OrderService.success c = true
    end.
Proof.
  unfold createOrder.
  destruct (items body) as [[|it its]|]; try (eexists _, _; split; reflexivity).
  destruct (totalAmount body) as [total|]; [|eexists _, _; split; reflexivity].
  destruct (nonpositive total); [eexists _, _; split; reflexivity|].
  destruct (check_items (it :: its)) as [why|lines]; [eexists _, _; split; reflexivity|].
  destruct (responds_after_service (service_request body lines total) env w)
    as (r & w' & Hrun & Hr).
  exists r, w'. split; [exact Hrun|].
  destruct r as [why|c|e]; [contradiction| |].
  - apply OrderService.createOrder_ok_inv in Hr
      as (found & wv & wb & a & w1 & _ & _ & _ & _ & Hs & _). exact Hs.
  - exact (OrderService.createOrder_throw_restores _ _ _ _ _ _ _ _ Hr).
Qed.

(** The order behind an answer with status 200: one order row was added,
    with the returned code, order type 0 or 1 and a shop id other than 0,
    and one line per line of the request, each for that order, with a
    quantity above 0 and, as dish id, a number other than 0, no dish
    twice. *)
Theorem accepted_order_is_well_formed (body : Body amount) env
    (w : OrderService.World amount) c w' :
  createOrder body env w = (OrderService.Ok (Success c), w') ->
  exists row lines,
    OrderService.orders (OrderService.db w') =
      OrderService.orders (OrderService.db w) ++ [row] /\
    OrderService.order_items (OrderService.db w') =
      OrderService.order_items (OrderService.db w) ++ lines /\
    OrderService.order_number row = OrderService.created_orderNumber c /\
    (OrderService.order_type row = 0 \/ OrderService.order_type row = 1) /\
    OrderService.store_id row <> 0 /\
    Some (length lines) = length <$> items body /\
    lines <> [] /\
    NoDup (OrderService.oi_meal_id <$> lines) /\
    Forall (fun l => OrderService.oi_order_id l = OrderService.order_id row /\
                     0 < OrderService.oi_quantity l /\
                     exists n, OrderService.oi_meal_id l = JS.JNum n /\ n <> 0) lines.
Proof.
  unfold createOrder. intros H.
  destruct (items body) as [[|it its]|]; try discriminate.
  destruct (totalAmount body) as [total|]; [|discriminate].
  destruct (nonpositive total); [discriminate|].
  destruct (check_items (it :: its)) as [why|lines] eqn:Hcheck; [discriminate|].
  destruct (responds_after_service (service_request body lines total) env w)
    as (r & w1 & Hrun & Hr).
  rewrite Hrun in H. inversion H; subst r w1; clear H Hrun.
  apply check_items_ok in Hcheck as [Hlen Hall].
  pose proof (OrderService.createOrder_ok_checked _ _ _ _ _ _ _ _ Hr)
    as (Hne & Hnodup & Hnum & _).
  apply OrderService.createOrder_ok_inv in Hr
    as (found & wv & wb & a & w1 & _ & _ & _ & _ & _ & Hcode & Horders & Hitems & _).
  cbn [service_request OrderService.items] in *.
  eexists _, _. split; [exact Horders|]. split; [exact Hitems|].
  split; [cbn; congruence|].
  split; [cbn; apply validOrderType_range|].
  split; [cbn; apply or_one_nonzero|].
  split; [rewrite length_fmap, Hlen; reflexivity|].
  split; [destruct lines; [congruence | discriminate]|].
  split.
  - rewrite <- list_fmap_compose. exact Hnodup.
  - apply Forall_fmap. apply Forall_forall. intros l Hl.
    rewrite Forall_forall in Hall. destruct (Hall l Hl) as [Hq Hid].
    destruct (Hnum (OrderService.mealId l)) as (n & m & Hn & _).
    { apply list_elem_of_fmap. eauto. }
    cbn. split; [reflexivity|]. split; [exact Hq|].
    exists n. split; [exact Hn|]. rewrite Hn in Hid. intros ->. discriminate.
Qed.

End Controller.

(** ** Samples *)

(** A request as the ordering page sends it: two portions of dish 5. *)
Definition sample_body : Body Z :=
  {| items := Some [ {| mealId := Some (JS.JNum 5); quantity := Some 2; price := Some 12 |} ];
     totalAmount := Some 24; storeId := None; orderType := Some 0;
     paymentMethodId := None |}.

Lemma accepted_order_is_well_formed_witness :
  exists row lines,
    OrderService.orders (OrderService.db
      (createOrder Z.mul (fun a => a <=? 0) OrderService.no_faults OrderService.numeric_text
         sample_body OrderService.sample_env (OrderService.idle OrderService.today_db)).2) =
      OrderService.orders (OrderService.db (OrderService.idle OrderService.today_db)) ++ [row] /\
    OrderService.order_items (OrderService.db
      (createOrder Z.mul (fun a => a <=? 0) OrderService.no_faults OrderService.numeric_text
         sample_body OrderService.sample_env (OrderService.idle OrderService.today_db)).2) =
      OrderService.order_items (OrderService.db (OrderService.idle OrderService.today_db)) ++ lines /\
    OrderService.order_number row =
      OrderService.created_orderNumber
        {| OrderService.success := true;
           OrderService.created_orderNumber := "D00120250929120039090058" |} /\
    (OrderService.order_type row = 0 \/ OrderService.order_type row = 1) /\
    OrderService.store_id row <> 0 /\
    Some (length lines) = length <$> items sample_body /\
    lines <> [] /\
    NoDup (OrderService.oi_meal_id <$> lines) /\
    Forall (fun l => OrderService.oi_order_id l = OrderService.order_id row /\
                     0 < OrderService.oi_quantity l /\
                     exists n, OrderService.oi_meal_id l = JS.JNum n /\ n <> 0) lines.
Proof.
  apply (accepted_order_is_well_formed Z.mul (fun a => a <=? 0) OrderService.no_faults
           OrderService.numeric_text sample_body OrderService.sample_env
           (OrderService.idle OrderService.today_db)).
  vm_compute. reflexivity.
Defined.

(** The same request with the id sent as the text "5": the order and its
    line are stored, and the answer is status 500 with the error of the
    rollback. *)
Example text_id_is_stored_and_answered_500 :
  (let '(r, w) :=
     createOrder Z.mul (fun a => a <=? 0) OrderService.no_faults OrderService.numeric_text
       {| items := Some [ {| mealId := Some (JS.JStr "5"); quantity := Some 2;
                             price := Some 12 |} ];
          totalAmount := Some 24; storeId := None; orderType := Some 0;
          paymentMethodId := None |}
       OrderService.sample_env (OrderService.idle OrderService.today_db) in
   (r, OrderService.order_number <$> OrderService.orders (OrderService.db w),
    OrderService.oi_meal_id <$> OrderService.order_items (OrderService.db w))) =
  (OrderService.Ok (ServerError OrderService.TransactionFinished),
   ["D00120250929120039090058"%string], [JS.JStr "5"]).
Proof. vm_compute. reflexivity. Qed.

End OrderController.

(** * The cart of the ordering page

    The cart functions of views/OrderView.vue. [cartData] is a list that the
    functions update in place; here each function returns the updated
    list. *)

Module OrderView.

Record CartItem (amount : Type) := {
  id : Z;
  name : string;
  price : amount;
  quantity : Z;
  mealId : Z
}.
Arguments id {amount} _.
Arguments name {amount} _.
Arguments price {amount} _.
Arguments quantity {amount} _.
Arguments mealId {amount} _.

(** What the customer can do to the cart. *)
Inductive action (amount : Type) :=
| AddToCart (id : Z) (name : string) (price : amount)
| DecreaseQuantity (id : Z)
| RemoveItem (id : Z)
| IncreaseQuantity (id : Z).
Arguments AddToCart {amount} _ _ _.
Arguments DecreaseQuantity {amount} _.
Arguments RemoveItem {amount} _.
Arguments IncreaseQuantity {amount} _.

Definition action_id {amount} (a : action amount) : Z :=
  match a with
  | AddToCart id _ _ | DecreaseQuantity id | RemoveItem id | IncreaseQuantity id => id
  end.

Section Cart.

Context {amount : Type} (zero : amount) (plus : amount -> amount -> amount)
        (times : amount -> Z -> amount).

Local Abbreviation Cart := (list (CartItem amount)).

(** [totalPrice]: [reduce((total, item) => total + item.price * item.quantity, 0)] *)
Definition totalPrice (cartData : Cart) : amount :=
  fold_left (fun total item => plus total (times (price item) (quantity item))) cartData zero.

(** [addToCart(id, name, price)]: the first entry with this id gets one more
    and the name passed; without such an entry a new one is pushed. *)
Fixpoint addToCart (id' : Z) (name' : string) (price' : amount) (cartData : Cart) : Cart :=
  match cartData with
  | [] => [ {| id := id'; name := name'; price := price'; quantity := 1; mealId := id' |} ]
  | item :: rest =>
      if id item =? id'
      then {| id := id item; name := name'; price := price item;
              quantity := quantity item + 1; mealId := mealId item |} :: rest
      else item :: addToCart id' name' price' rest
  end.

(** [decreaseQuantity(id)]: one less of the first entry with this id; an
    entry that reaches 0 or less is spliced out. *)
Fixpoint decreaseQuantity (id' : Z) (cartData : Cart) : Cart :=
  match cartData with
  | [] => []
  | item :: rest =>
      if id item =? id'
      then if quantity item - 1 <=? 0 then rest
           else {| id := id item; name := name item; price := price item;
                   quantity := quantity item - 1; mealId := mealId item |} :: rest
      else item :: decreaseQuantity id' rest
  end.

(** [removeItem(id)] *)
Fixpoint removeItem (id' : Z) (cartData : Cart) : Cart :=
  match cartData with
  | [] => []
  | item :: rest => if id item =? id' then rest else item :: removeItem id' rest
  end.

(** [increaseQuantity(id)] *)
Fixpoint increaseQuantity (id' : Z) (cartData : Cart) : Cart :=
  match cartData with
  | [] => []
  | item :: rest =>
      if id item =? id'
      then {| id := id item; name := name item; price := price item;
              quantity := quantity item + 1; mealId := mealId item |} :: rest
      else item :: increaseQuantity id' rest
  end.

Definition perform (cartData : Cart) (a : action amount) : Cart :=
  match a with
  | AddToCart id' name' price' => addToCart id' name' price' cartData
  | DecreaseQuantity id' => decreaseQuantity id' cartData
  | RemoveItem id' => removeItem id' cartData
  | IncreaseQuantity id' => increaseQuantity id' cartData
  end.

(** The cart after a session that starts with the empty cart. *)
Definition cart_after (actions : list (action amount)) : Cart :=
  fold_left perform actions [].

(** The body that [handlePayment] posts; nothing is sent for an empty
    cart. *)
Definition orderData (cartData : Cart) (orderType : Z) : option (OrderController.Body amount) :=
  match cartData with
  | [] => None
  | _ =>
      Some {| OrderController.items :=
                Some ((fun item => {| OrderController.mealId := Some (JS.JNum (id item));
                                      OrderController.quantity := Some (quantity item);
                                      OrderController.price := Some (price item) |})
                      <$> cartData);
              OrderController.totalAmount := Some (totalPrice cartData);
              OrderController.storeId := None;
              OrderController.orderType := Some orderType;
              OrderController.paymentMethodId := None |}
  end.

(** How many of a dish the cart holds. *)
Definition quantity_of (id' : Z) (cartData : Cart) : Z :=
  match List.find (fun item => id item =? id') cartData with
  | Some item => quantity item
  | None => 0
  end.

(** ** Properties *)

(** What holds of every cart of a session. *)
Record well_formed (cartData : Cart) : Prop := {
  distinct_ids : NoDup (id <$> cartData);
  positive : Forall (fun item => 1 <= quantity item) cartData;
  meal_is_id : Forall (fun item => mealId item = id item) cartData
}.

Lemma addToCart_ids id' name' price' (cartData : Cart) :
  id <$> addToCart id' name' price' cartData =
  if bool_decide (id' ∈ id <$> cartData) then id <$> cartData
  else (id <$> cartData) ++ [id'].
Proof.
  induction cartData as [|item rest IH]; cbn [addToCart].
  - reflexivity.
  - destruct (id item =? id') eqn:E.
    + apply Z.eqb_eq in E. rewrite bool_decide_eq_true_2; [reflexivity|].
      cbn. rewrite E. left.
    + apply Z.eqb_neq in E. rewrite !fmap_cons, IH.
      destruct (bool_decide (id' ∈ id <$> rest)) eqn:B.
      * apply bool_decide_eq_true in B. rewrite bool_decide_eq_true_2; [reflexivity|].
        right. exact B.
      * apply bool_decide_eq_false in B. rewrite bool_decide_eq_false_2; [reflexivity|].
        intros Hin. apply elem_of_cons in Hin as [Hin|Hin]; [congruence | contradiction].
Qed.

Lemma decreaseQuantity_ids id' (cartData : Cart) :
  id <$> decreaseQuantity id' cartData `sublist_of` id <$> cartData.
Proof.
  induction cartData as [|item rest IH]; cbn [decreaseQuantity]; [reflexivity|].
  destruct (id item =? id').
  - destruct (quantity item - 1 <=? 0); [apply sublist_cons | reflexivity]. reflexivity.
  - rewrite !fmap_cons. apply sublist_skip. exact IH.
Qed.

Lemma removeItem_ids id' (cartData : Cart) :
  id <$> removeItem id' cartData `sublist_of` id <$> cartData.
Proof.
  induction cartData as [|item rest IH]; cbn [removeItem]; [reflexivity|].
  destruct (id item =? id').
  - apply sublist_cons. reflexivity.
  - rewrite !fmap_cons. apply sublist_skip. exact IH.
Qed.

Lemma increaseQuantity_ids id' (cartData : Cart) :
  id <$> increaseQuantity id' cartData = id <$> cartData.
Proof.
  induction cartData as [|item rest IH]; cbn [increaseQuantity]; [reflexivity|].
  destruct (id item =? id'); [reflexivity|]. rewrite !fmap_cons, IH. reflexivity.
Qed.

Lemma addToCart_Forall (P : CartItem amount -> Prop) id' name' price' (cartData : Cart) :
  (forall item, P item ->
     P {| id := id item; name := name'; price := price item;
          quantity := quantity item + 1; mealId := mealId item |}) ->
  P {| id := id'; name := name'; price := price'; quantity := 1; mealId := id' |} ->
  Forall P cartData -> Forall P (addToCart id' name' price' cartData).
Proof.
  intros Hup Hnew. induction 1 as [|item rest Hitem Hrest IH]; cbn [addToCart].
  - constructor; [exact Hnew | constructor].
  - destruct (id item =? id'); constructor; auto.
Qed.

Lemma decreaseQuantity_Forall (P : CartItem amount -> Prop) id' (cartData : Cart) :
  (forall item, P item -> quantity item - 1 > 0 ->
     P {| id := id item; name := name item; price := price item;
          quantity := quantity item - 1; mealId := mealId item |}) ->
  Forall P cartData -> Forall P (decreaseQuantity id' cartData).
Proof.
  intros Hup. induction 1 as [|item rest Hitem Hrest IH]; cbn [decreaseQuantity].
  - constructor.
  - destruct (id item =? id').
    + destruct (quantity item - 1 <=? 0) eqn:E; [exact Hrest|].
      apply Z.leb_gt in E. constructor; [apply Hup; [exact Hitem | lia] | exact Hrest].
    + constructor; auto.
Qed.

Lemma removeItem_Forall (P : CartItem amount -> Prop) id' (cartData : Cart) :
  Forall P cartData -> Forall P (removeItem id' cartData).
Proof.
  induction 1 as [|item rest Hitem Hrest IH]; cbn [removeItem].
  - constructor.
  - destruct (id item =? id'); [exact Hrest | constructor; auto].
Qed.

Lemma increaseQuantity_Forall (P : CartItem amount -> Prop) id' (cartData : Cart) :
  (forall item, P item ->
     P {| id := id item; name := name item; price := price item;
          quantity := quantity item + 1; mealId := mealId item |}) ->
  Forall P cartData -> Forall P (increaseQuantity id' cartData).
Proof.
  intros Hup. induction 1 as [|item rest Hitem Hrest IH]; cbn [increaseQuantity].
  - constructor.
  - destruct (id item =? id'); constructor; auto.
Qed.

Lemma perform_well_formed (cartData : Cart) a :
  well_formed cartData -> well_formed (perform cartData a).
Proof.
  intros [Hids Hpos Hmeal]. destruct a as [id' name' price'|id'|id'|id']; cbn [perform].
  - split.
    + rewrite addToCart_ids. destruct (bool_decide (id' ∈ id <$> cartData)) eqn:B.
      * exact Hids.
      * apply bool_decide_eq_false in B. apply NoDup_app. split; [exact Hids|].
        split; [|apply NoDup_singleton].
        intros x Hx Hx'. apply list_elem_of_singleton in Hx'. subst x. contradiction.
    + apply addToCart_Forall; [cbn; intros; lia | cbn; lia | exact Hpos].
    + apply addToCart_Forall; [cbn; auto | reflexivity | exact Hmeal].
  - split.
    + exact (sublist_NoDup _ _ Hids (decreaseQuantity_ids _ _)).
    + apply decreaseQuantity_Forall; [cbn; intros; lia | exact Hpos].
    + apply decreaseQuantity_Forall; [cbn; auto | exact Hmeal].
  - split.
    + exact (sublist_NoDup _ _ Hids (removeItem_ids _ _)).
    + apply removeItem_Forall. exact Hpos.
    + apply removeItem_Forall. exact Hmeal.
  - split.
    + rewrite increaseQuantity_ids. exact Hids.
    + apply increaseQuantity_Forall; [cbn; intros; lia | exact Hpos].
    + apply increaseQuantity_Forall; [cbn; auto | exact Hmeal].
Qed.

Lemma fold_perform_well_formed actions :
  forall cartData : Cart, well_formed cartData -> well_formed (fold_left perform actions cartData).
Proof.
  induction actions as [|a rest IH]; intros cartData H; cbn [fold_left].
  - exact H.
  - apply IH, perform_well_formed, H.
Qed.

Lemma cart_after_well_formed actions : well_formed (cart_after actions).
Proof.
  apply fold_perform_well_formed. split; constructor.
Qed.

(** Whatever the customer does, starting from the empty cart: the cart
    never lists a dish twice, never holds an entry with a quantity below 1,
    and every entry keeps the dish id it was added with. *)
Theorem cart_stays_well_formed (actions : list (action amount)) :
  NoDup (id <$> cart_after actions) /\
  Forall (fun item => 1 <= quantity item) (cart_after actions) /\
  Forall (fun item => mealId item = id item) (cart_after actions).
Proof.
  destruct (cart_after_well_formed actions) as [H1 H2 H3]. auto.
Qed.

(** Taking one away of a dish just added undoes the addition: in a cart
    whose quantities are all at least 1, the cart holds as many of every
    dish as before, and when the dish was not in the cart, the cart is
    exactly the one before. *)
Theorem add_then_decrease_restores id' name' price' (cartData : Cart) :
  Forall (fun item => 1 <= quantity item) cartData ->
  (forall other, quantity_of other (decreaseQuantity id' (addToCart id' name' price' cartData)) =
                 quantity_of other cartData) /\
  (id' ∉ id <$> cartData ->
   decreaseQuantity id' (addToCart id' name' price' cartData) = cartData).
Proof.
  induction 1 as [|item rest Hitem Hrest [IHq IHfresh]]; cbn [addToCart].
  - cbn [decreaseQuantity id quantity]. rewrite Z.eqb_refl. cbn. auto.
  - destruct (id item =? id') eqn:E.
    + cbn [decreaseQuantity id quantity]. rewrite E.
      replace (quantity item + 1 - 1) with (quantity item) by lia.
      destruct (quantity item <=? 0) eqn:Hq; [apply Z.leb_le in Hq; lia|].
      split.
      * intros other. unfold quantity_of. cbn [List.find id].
        destruct (id item =? other); reflexivity.
      * intros Hfresh. exfalso. apply Hfresh. apply Z.eqb_eq in E.
        rewrite fmap_cons, E. left.
    + cbn [decreaseQuantity]. rewrite E. split.
      * intros other. unfold quantity_of in *. cbn [List.find].
        destruct (id item =? other); [reflexivity | apply IHq].
      * intros Hfresh. rewrite IHfresh; [reflexivity|].
        intros Hin. apply Hfresh. rewrite fmap_cons. right. exact Hin.
Qed.

(** ** From the cart to the order *)

Lemma perform_ids_nonzero (cartData : Cart) a :
  action_id a <> 0 ->
  Forall (fun item => id item <> 0) cartData ->
  Forall (fun item => id item <> 0) (perform cartData a).
Proof.
  intros Ha H. destruct a as [id' name' price'|id'|id'|id']; cbn [perform].
  - apply addToCart_Forall; [cbn; auto | exact Ha | exact H].
  - apply decreaseQuantity_Forall; [cbn; auto | exact H].
  - apply removeItem_Forall. exact H.
  - apply increaseQuantity_Forall; [cbn; auto | exact H].
Qed.

Lemma cart_after_ids_nonzero actions :
  Forall (fun a => action_id a <> 0) actions ->
  Forall (fun item => id item <> 0) (cart_after actions).
Proof.
  unfold cart_after. generalize (@nil (CartItem amount)) (Forall_nil_2 (fun item : CartItem amount => id item <> 0)).
  induction actions as [|a rest IH]; intros cartData Hcart Hacts; cbn [fold_left].
  - exact Hcart.
  - apply Forall_cons in Hacts as [Ha Hrest].
    apply IH; [apply perform_ids_nonzero; assumption | exact Hrest].
Qed.

(** The line of the request made from a cart entry, and the line the
    controller hands to the service for it. *)
Definition request_line (item : CartItem amount) : OrderController.RawItem amount :=
  {| OrderController.mealId := Some (JS.JNum (id item));
     OrderController.quantity := Some (quantity item);
     OrderController.price := Some (price item) |}.

Definition service_line (item : CartItem amount) : OrderService.Item amount :=
  {| OrderService.mealId := JS.JNum (id item);
     OrderService.quantity := quantity item;
     OrderService.price := price item |}.

Lemma check_items_cart (cartData : Cart) :
  Forall (fun item => id item <> 0) cartData ->
  Forall (fun item => 1 <= quantity item) cartData ->
  OrderController.check_items (request_line <$> cartData) = inr (service_line <$> cartData).
Proof.
  induction cartData as [|item rest IH]; intros Hids Hpos; [reflexivity|].
  apply Forall_cons in Hids as [Hid Hids]. apply Forall_cons in Hpos as [Hq Hpos].
  rewrite fmap_cons. cbn [OrderController.check_items request_line
    OrderController.price OrderController.mealId OrderController.quantity default
    from_option Datatypes.id].
  assert (Hm : negb (OrderController.truthy (JS.JNum (id item))) = false).
  { cbn. destruct (id item); [congruence | reflexivity | reflexivity]. }
  assert (Hq' : OrderController.falsy (Some (quantity item)) = false).
  { destruct (quantity item); [lia | reflexivity | reflexivity]. }
  rewrite Hm, Hq'. cbn [orb].
  destruct (quantity item <=? 0) eqn:E; [apply Z.leb_le in E; lia|].
  fold (request_line <$> rest). rewrite (IH Hids Hpos). reflexivity.
Qed.

(** The order of a cart goes through. When the database rejects no call,
    the cart of a session over dishes with ids other than 0 is not empty,
    its total is above 0 and every dish in it is on sale, the endpoint
    answers the request built from the cart with status 200, and the stored
    order has exactly one line per cart entry, with the dish, the quantity
    and the price of that entry. *)
Theorem cart_order_is_created (nonpositive : amount -> bool) (fault : nat -> bool)
    (sql_integer : JS.jsval -> option Z)
    actions orderType body env (w : OrderService.World amount) :
  (forall k, fault k = false) ->
  Forall (fun a => action_id a <> 0) actions ->
  orderData (cart_after actions) orderType = Some body ->
  nonpositive (totalPrice (cart_after actions)) = false ->
  (forall item, item ∈ cart_after actions ->
     exists m, OrderService.meals (OrderService.db w) !! id item = Some m /\
               OrderService.is_active m = true) ->
  exists c w' row,
    OrderController.createOrder times nonpositive fault sql_integer body env w =
      (OrderService.Ok (OrderController.Success c), w') /\
    OrderService.orders (OrderService.db w') =
      OrderService.orders (OrderService.db w) ++ [row] /\
    OrderService.order_number row = OrderService.created_orderNumber c /\
    OrderService.order_items (OrderService.db w') =
      OrderService.order_items (OrderService.db w) ++
      ((fun item => {| OrderService.oi_order_id := OrderService.order_id row;
                       OrderService.oi_meal_id := JS.JNum (id item);
                       OrderService.oi_quantity := quantity item;
                       OrderService.oi_price := price item;
                       OrderService.oi_subtotal := times (price item) (quantity item) |})
       <$> cart_after actions).
Proof.
  intros Hnf Hacts Hbody Htotal Hsale.
  destruct (cart_after_well_formed actions) as [Hnodup Hpos _].
  pose proof (cart_after_ids_nonzero actions Hacts) as Hids.
  pose proof (check_items_cart _ Hids Hpos) as Hcheck.
  unfold orderData in Hbody.
  destruct (cart_after actions) as [|item0 rest0] eqn:Hcart; [discriminate|].
  rewrite <- Hcart in *. inversion Hbody; subst body; clear Hbody.
  unfold OrderController.createOrder.
  cbn [OrderController.items OrderController.totalAmount].
  fold request_line.
  destruct (request_line <$> cart_after actions) as [|r0 rs] eqn:Hreq.
  { rewrite Hcart in Hreq. discriminate. }
  rewrite Htotal, Hcheck.
  match goal with
  | |- context [OrderService.createOrder times fault sql_integer ?d env] =>
      set (request := d)
  end.
  assert (Hlines : OrderService.items request = service_line <$> cart_after actions)
    by reflexivity.
  assert (Hmeals : OrderService.mealId <$> OrderService.items request =
                   JS.JNum <$> (id <$> cart_after actions)).
  { rewrite Hlines, <- !list_fmap_compose. reflexivity. }
  destruct (OrderService.createOrder_runs times fault sql_integer request env w)
    as (c & w' & Hrun).
  - exact Hnf.
  - rewrite Hlines, Hcart. discriminate.
  - rewrite Hmeals. apply NoDup_fmap_2; [|exact Hnodup]. intros x y Hxy. congruence.
  - rewrite Hmeals, <- list_fmap_compose.
    intros id' Hin. apply list_elem_of_fmap in Hin as (item & -> & Hin).
    destruct (Hsale item Hin) as (m & Hm & Hact). cbn. eauto.
  - intros id' Hid. discriminate.
  - apply (OrderService.createOrder_ok_inv times fault sql_integer) in Hrun as Hinv.
    destruct Hinv as (found & wv & wb & a & w1 & _ & _ & _ & _ & _ & Hcode & Horders &
                      Hitems & _).
    exists c, w', (OrderService.order_row request a (OrderService.db w)).
    split.
    { unfold OrderService.try_catch, OrderService.bind. rewrite Hrun. reflexivity. }
    split; [exact Horders|]. split; [cbn; congruence|].
    rewrite Hitems, Hlines, <- list_fmap_compose. reflexivity.
Qed.

End Cart.

(** ** Samples *)

(** Two of dish 5, one of dish 3 added and taken away again. *)
Definition sample_session : list (action Z) :=
  [ AddToCart 5 "Beef noodles" 12; AddToCart 3 "Tea" 4; AddToCart 5 "Beef noodles" 12;
    DecreaseQuantity 3 ].

Lemma add_then_decrease_restores_witness :
  (forall other,
     quantity_of other (decreaseQuantity 3 (addToCart 3 "Tea" 4 (cart_after sample_session))) =
     quantity_of other (cart_after sample_session)) /\
  (3 ∉ id <$> cart_after sample_session ->
   decreaseQuantity 3 (addToCart 3 "Tea" 4 (cart_after sample_session)) =
   cart_after sample_session).
Proof.
  apply (add_then_decrease_restores 3 "Tea" 4 (cart_after sample_session)).
  repeat constructor; cbn; lia.
Defined.

Lemma cart_order_is_created_witness :
  exists c w' row,
    OrderController.createOrder Z.mul (fun a => a <=? 0) OrderService.no_faults
      OrderService.numeric_text OrderController.sample_body OrderService.sample_env
      (OrderService.idle OrderService.today_db) =
      (OrderService.Ok (OrderController.Success c), w') /\
    OrderService.orders (OrderService.db w') =
      OrderService.orders (OrderService.db (OrderService.idle OrderService.today_db)) ++ [row] /\
    OrderService.order_number row = OrderService.created_orderNumber c /\
    OrderService.order_items (OrderService.db w') =
      OrderService.order_items (OrderService.db (OrderService.idle OrderService.today_db)) ++
      ((fun item => {| OrderService.oi_order_id := OrderService.order_id row;
                       OrderService.oi_meal_id := JS.JNum (id item);
                       OrderService.oi_quantity := quantity item;
                       OrderService.oi_price := price item;
                       OrderService.oi_subtotal := Z.mul (price item) (quantity item) |})
       <$> cart_after sample_session).
Proof.
  apply (cart_order_is_created 0 Z.add Z.mul (fun a => a <=? 0) OrderService.no_faults
           OrderService.numeric_text sample_session 0 OrderController.sample_body OrderService.sample_env
           (OrderService.idle OrderService.today_db)).
  - reflexivity.
  - repeat constructor; discriminate.
  - reflexivity.
  - reflexivity.
  - intros item Hin. apply list_elem_of_singleton in Hin. subst item.
    eexists. split; reflexivity.
Defined.

End OrderView.

(** ** The printer service *)

Module PrinterService.

(** A JavaScript string: its UTF-16 code units. [text.length], [text[i]],
    [substring] and the character class of [getDisplayWidth] all work on
    code units. *)
Abbreviation jstring := (list Z).

Definition of_ascii (s : string) : jstring :=
  (fun c => Z.of_nat (nat_of_ascii c)) <$> String.list_ascii_of_string s.

(** [String(n)] for an integer. *)
Definition String_int (n : Z) : jstring := of_ascii (JS.String_Z n).

(** [' '.repeat(n)]; a negative count does not occur in the callers. *)
Definition spaces (n : Z) : jstring := replicate (Z.to_nat n) 32.

(** *** The helpers local to [printOrderReceipt] *)

Definition ellipsis : Z := 0x2026.

(** [truncateText(text, maxWidth)]: the test and the cut are on
    [str.length]. *)
Definition truncateText (text : jstring) (maxWidth : Z) : jstring :=
  match text with
  | [] => []
  | _ =>
      if maxWidth <? Z.of_nat (length text)
      then take (Z.to_nat (maxWidth - 1)) text ++ [ellipsis]
      else text
  end.

(** [/[一-鿿㐀-䶿豈-﫿]/.test(char)] *)
Definition is_cjk (c : Z) : bool :=
  ((0x4e00 <=? c) && (c <=? 0x9fff)) ||
  ((0x3400 <=? c) && (c <=? 0x4dbf)) ||
  ((0xf900 <=? c) && (c <=? 0xfaff)).

Definition char_width (c : Z) : Z := if is_cjk c then 2 else 1.

(** [getDisplayWidth(text)]: the loop over the code units. *)
Definition getDisplayWidth (text : jstring) : Z :=
  fold_left (fun width c => width + char_width c) text 0.

Definition leftAlign (text : jstring) (targetWidth : Z) : jstring :=
  let displayWidth := getDisplayWidth text in
  let padding := Z.max 0 (targetWidth - displayWidth) in
  text ++ spaces padding.

Definition centerAlign (text : jstring) (targetWidth : Z) : jstring :=
  let displayWidth := getDisplayWidth text in
  let totalPadding := Z.max 0 (targetWidth - displayWidth) in
  let leftPadding := totalPadding / 2 in
  let rightPadding := totalPadding - leftPadding in
  spaces leftPadding ++ text ++ spaces rightPadding.

Definition rightAlign (text : jstring) (targetWidth : Z) : jstring :=
  let displayWidth := getDisplayWidth text in
  let padding := Z.max 0 (targetWidth - displayWidth) in
  spaces padding ++ text.

Definition MAX_LINE_WIDTH : Z := 48.
Definition SEPARATOR_LINE : jstring := replicate 48 45.
Definition COL_WIDTH_NAME : Z := 16.
Definition COL_WIDTH_QTY : Z := 8.
Definition COL_WIDTH_PRICE : Z := 10.
Definition COL_WIDTH_AMOUNT : Z := 14.
Definition PAY_LABEL_WIDTH : Z := 12.

Definition buildTableRow (name qty price amount : jstring) (nameAlignCenter : bool) : jstring :=
  let namePart := if nameAlignCenter then centerAlign name COL_WIDTH_NAME
                  else leftAlign name COL_WIDTH_NAME in
  let qtyPart := centerAlign qty COL_WIDTH_QTY in
  let pricePart := centerAlign price COL_WIDTH_PRICE in
  let amountPart := centerAlign amount COL_WIDTH_AMOUNT in
  namePart ++ qtyPart ++ pricePart ++ amountPart.

Definition buildLabelValueLine (label value : jstring) : jstring :=
  leftAlign label PAY_LABEL_WIDTH ++ of_ascii "  " ++ value.

(** *** The texts of the receipt and of the results *)

(** "***您的號碼(Your number)***" *)
Definition ticketNumberLabel : jstring :=
  of_ascii "***" ++ [0x60A8; 0x7684; 0x865F; 0x78BC] ++ of_ascii "(Your number)***".
(** "店號(Store No)：" *)
Definition store_no_label : jstring := [0x5E97; 0x865F] ++ of_ascii "(Store No)" ++ [0xFF1A].
(** "類型(Type)：" *)
Definition type_label : jstring := [0x985E; 0x578B] ++ of_ascii "(Type)" ++ [0xFF1A].
(** "外賣" (takeout) and "堂食" (dine-in) *)
Definition text_takeout : jstring := [0x5916; 0x8CE3].
Definition text_dine_in : jstring := [0x5802; 0x98DF].
(** "交易時間(Time): " *)
Definition time_label : jstring := [0x4EA4; 0x6613; 0x6642; 0x9593] ++ of_ascii "(Time): ".
(** "交易號(TN): " *)
Definition tn_label : jstring := [0x4EA4; 0x6613; 0x865F] ++ of_ascii "(TN): ".
(** "品項", "數量", "單價", "小計" *)
Definition head_item : jstring := [0x54C1; 0x9805].
Definition head_qty : jstring := [0x6578; 0x91CF].
Definition head_price : jstring := [0x55AE; 0x50F9].
Definition head_amount : jstring := [0x5C0F; 0x8A08].
(** "合計 Total" *)
Definition total_label : jstring := [0x5408; 0x8A08] ++ of_ascii " Total".
(** "支付類型" *)
Definition pay_type_label : jstring := [0x652F; 0x4ED8; 0x985E; 0x578B].
(** "支付金額" *)
Definition payAmountLabel : jstring := [0x652F; 0x4ED8; 0x91D1; 0x984D].
(** "感謝您的惠顧" *)
Definition text_thanks : jstring := [0x611F; 0x8B1D; 0x60A8; 0x7684; 0x60E0; 0x9867].

(** "模拟打印成功（DLL未加载）": simulated print succeeded (DLL not loaded) *)
Definition msg_simulated : jstring :=
  [0x6A21; 0x62DF; 0x6253; 0x5370; 0x6210; 0x529F; 0xFF08] ++ of_ascii "DLL" ++
  [0x672A; 0x52A0; 0x8F7D; 0xFF09].
(** "無法打開打印機，請檢查打印機連接": cannot open the printer *)
Definition msg_cannot_open : jstring :=
  [0x7121; 0x6CD5; 0x6253; 0x958B; 0x6253; 0x5370; 0x6A5F; 0xFF0C; 0x8ACB; 0x6AA2;
   0x67E5; 0x6253; 0x5370; 0x6A5F; 0x9023; 0x63A5].
(** "打印機缺紙，請添加紙張後重試": out of paper *)
Definition msg_paper_out : jstring :=
  [0x6253; 0x5370; 0x6A5F; 0x7F3A; 0x7D19; 0xFF0C; 0x8ACB; 0x6DFB; 0x52A0; 0x7D19;
   0x5F35; 0x5F8C; 0x91CD; 0x8A66].
(** "打印機離線，請檢查打印機連接": printer offline *)
Definition msg_offline : jstring :=
  [0x6253; 0x5370; 0x6A5F; 0x96E2; 0x7DDA; 0xFF0C; 0x8ACB; 0x6AA2; 0x67E5; 0x6253;
   0x5370; 0x6A5F; 0x9023; 0x63A5].
(** "打印機上蓋打開，請關閉上蓋後重試": cover open *)
Definition msg_cover_open : jstring :=
  [0x6253; 0x5370; 0x6A5F; 0x4E0A; 0x84CB; 0x6253; 0x958B; 0xFF0C; 0x8ACB; 0x95DC;
   0x9589; 0x4E0A; 0x84CB; 0x5F8C; 0x91CD; 0x8A66].
(** "打印可能不完整：檢測到缺紙，請檢查打印結果": the print may be incomplete *)
Definition msg_maybe_incomplete : jstring :=
  [0x6253; 0x5370; 0x53EF; 0x80FD; 0x4E0D; 0x5B8C; 0x6574; 0xFF1A; 0x6AA2; 0x6E2C;
   0x5230; 0x7F3A; 0x7D19; 0xFF0C; 0x8ACB; 0x6AA2; 0x67E5; 0x6253; 0x5370; 0x7D50;
   0x679C].
(** "打印成功": printed *)
Definition msg_printed : jstring := [0x6253; 0x5370; 0x6210; 0x529F].
(** "打印失敗: " followed by the error's message: print failed *)
Definition msg_print_failed (error_message : jstring) : jstring :=
  [0x6253; 0x5370; 0x5931; 0x6557] ++ of_ascii ": " ++ error_message.

(** *** The device *)

Abbreviation Q := QArith_base.Q.

(** The functions of the printer DLL that the service calls, with the
    arguments that matter for the receipt. *)
Inductive native :=
| Port_OpenCOMIO
| Port_OpenUSBIO
| Port_OpenLPTIO
| Port_OpenPRNIO
| Port_OpenTCPIO
| Port_SetPort
| Port_ClosePort
| Pos_Align (n : Z)
| Pos_Text (text : jstring) (encoding position : Z) (widthTimes heightTimes : Q)
    (fontType fontStyle : Z)
| Pos_FeedLine
| Pos_Feed_N_Line (n : Z)
| Pos_FullCutPaper
| Pos_QueryPrinterErr.

(** The calls that make up the print job. *)
Definition is_print (f : native) : bool :=
  match f with
  | Pos_Align _ | Pos_Text _ _ _ _ _ _ _ | Pos_FeedLine | Pos_Feed_N_Line _
  | Pos_FullCutPaper => true
  | _ => false
  end.

Definition job (trace : list native) : list native :=
  filter (fun f => is_print f = true) trace.

(** How the DLL and the printer behind it answer: whether the [n]-th native
    call throws (and with which message), its boolean result (for the
    functions that open a port: whether the handle is not null), and the
    code that [Pos_QueryPrinterErr] returns. *)
Record Driver := {
  raises : nat -> native -> option jstring;
  accepts : nat -> native -> bool;
  status : nat -> Z
}.

Inductive PortType := COM | USB | LPT | PRN | TCP | Unsupported.

(** The fields of [PRINTER_CONFIG] read by the functions below; the serial
    parameters and the TCP port only travel to the DLL. *)
Record Config := {
  portType : PortType;
  portName : jstring;
  textEncoding : option Z;
  checkStatus : bool
}.

(** The module-level variables of the service and the native calls made so
    far, oldest first. *)
Record Device := {
  printerDll : bool;
  wchar_t_ptr : bool;
  printerHandle : bool;
  calls : list native
}.

Inductive outcome (A : Type) :=
| Ok (a : A)
| Throw (message : jstring).
Arguments Ok {A} a.
Arguments Throw {A} message.

(** [{success, message}] *)
Record Result := {
  success : bool;
  message : jstring
}.

(** A line of the receipt: [{name, quantity, price, subtotal}]. *)
Record Line (amount : Type) := {
  name : jstring;
  quantity : Z;
  price : amount;
  subtotal : amount
}.
Arguments name {amount} _.
Arguments quantity {amount} _.
Arguments price {amount} _.
Arguments subtotal {amount} _.

(** [orderData]; [daily_sequence] and [total_quantity] may be undefined or
    null, an absent [items] is the empty list and an absent text the empty
    string. *)
Record OrderData (amount : Type) := {
  order_number : jstring;
  daily_sequence : option Z;
  order_type : Z;
  items : list (Line amount);
  total_amount : amount;
  total_quantity : option Z;
  order_time : jstring;
  store_name_zh : jstring;
  store_name_en : jstring;
  payment_type_zh : jstring;
  payment_type_en : jstring
}.
Arguments order_number {amount} _.
Arguments daily_sequence {amount} _.
Arguments order_type {amount} _.
Arguments items {amount} _.
Arguments total_amount {amount} _.
Arguments total_quantity {amount} _.
Arguments order_time {amount} _.
Arguments store_name_zh {amount} _.
Arguments store_name_en {amount} _.
Arguments payment_type_zh {amount} _.
Arguments payment_type_en {amount} _.

Definition D (A : Type) : Type := Device -> outcome A * Device.

Definition ret {A} (a : A) : D A := fun st => (Ok a, st).

Definition bind {A B} (m : D A) (k : A -> D B) : D B :=
  fun st =>
    match m st with
    | (Ok a, st') => k a st'
    | (Throw e, st') => (Throw e, st')
    end.

Definition throw {A} (e : jstring) : D A := fun st => (Throw e, st).

Definition try_catch {A} (m : D A) (h : jstring -> D A) : D A :=
  fun st =>
    match m st with
    | (Ok a, st') => (Ok a, st')
    | (Throw e, st') => h e st'
    end.

Definition get : D Device := fun st => (Ok st, st).

(** [printerHandle = ...] *)
Definition set_handle (h : bool) : D unit :=
  fun st => (Ok tt, {| printerDll := printerDll st; wchar_t_ptr := wchar_t_ptr st;
                       printerHandle := h; calls := calls st |}).

Definition record_call (f : native) (st : Device) : Device :=
  {| printerDll := printerDll st; wchar_t_ptr := wchar_t_ptr st;
     printerHandle := printerHandle st; calls := calls st ++ [f] |}.

(** The messages of the errors thrown and caught inside [openPort]; they are
    only logged. *)
Definition err_port_name : jstring := of_ascii "USB port type needs portName".
Definition err_open : jstring := of_ascii "cannot open port".
Definition err_set_port : jstring := of_ascii "Port_SetPort failed".
Definition err_port_type : jstring := of_ascii "unsupported port type".

Section Service.

Context {amount : Type} (String_amount : amount -> jstring).
Context (driver : Driver) (PRINTER_CONFIG : Config).

Local Notation "x <- m ;; k" := (bind m (fun x => k))
  (at level 100, m at next level, k at level 200, right associativity).
Local Notation "'run' m ;; k" := (bind m (fun _ => k))
  (at level 100, m at next level, k at level 200, right associativity).

(** [printerDll.f(...)] *)
Definition call (f : native) : D bool :=
  fun st =>
    let n := length (calls st) in
    match raises driver n f with
    | Some e => (Throw e, record_call f st)
    | None => (Ok (accepts driver n f), record_call f st)
    end.

(** [printerDll.Pos_QueryPrinterErr(3000)] *)
Definition call_query : D Z :=
  fun st =>
    let n := length (calls st) in
    match raises driver n Pos_QueryPrinterErr with
    | Some e => (Throw e, record_call Pos_QueryPrinterErr st)
    | None => (Ok (status driver n), record_call Pos_QueryPrinterErr st)
    end.

(** [printText(text, encoding, position, widthTimes, heightTimes, fontType,
    fontStyle)] *)
Definition printText (text : jstring) (encoding position : Z)
    (widthTimes heightTimes : Q) (fontType fontStyle : Z) : D bool :=
  st <- get ;;
  if negb (printerDll st) || negb (wchar_t_ptr st) then ret false else
  try_catch
    (call (Pos_Text text encoding position widthTimes heightTimes fontType fontStyle))
    (fun _ => ret false).

(** [closePort()] *)
Definition closePort : D bool :=
  st <- get ;;
  if negb (printerDll st) || negb (printerHandle st) then ret false else
  try_catch
    (run call Port_ClosePort ;;
     run set_handle false ;;
     ret true)
    (fun _ => run set_handle false ;; ret false).

(** [openPort()] *)
Definition openPort : D bool :=
  st <- get ;;
  if negb (printerDll st) then ret false else
  run (if printerHandle st then closePort else ret false) ;;
  try_catch
    (handle <- (match portType PRINTER_CONFIG with
                | COM => call Port_OpenCOMIO
                | USB =>
                    match portName PRINTER_CONFIG with
                    | [] => throw err_port_name
                    | _ =>
                        handle <- call Port_OpenUSBIO ;;
                        if negb handle then throw err_open else ret handle
                    end
                | LPT => call Port_OpenLPTIO
                | PRN => call Port_OpenPRNIO
                | TCP => call Port_OpenTCPIO
                | Unsupported => throw err_port_type
                end) ;;
     if negb handle then throw err_open else
     setResult <- call Port_SetPort ;;
     if negb setResult
     then run call Port_ClosePort ;; throw err_set_port
     else run set_handle true ;; ret true)
    (fun _ => run set_handle false ;; ret false).

(** [queryPrinterStatus()], reduced to the [error] field of its result. *)
Definition queryPrinterStatus : D Z :=
  st <- get ;;
  if negb (printerDll st) || negb (printerHandle st) then ret (-999) else
  try_catch call_query (fun _ => ret (-999)).

(** *** [printOrderReceipt] *)

Definition TRADITIONAL_CHINESE_ENCODING : Z := 3.
Definition TEXT_ENCODING : Z := default 0 (textEncoding PRINTER_CONFIG).
Definition NORMAL_SIZE : Q := QArith_base.Qmake 9 10.
Definition SEQ_NUMBER_SIZE : Q := QArith_base.Qmake 1 1.
Definition LABEL_SIZE : Q := QArith_base.Qmake 7 10.
Definition PAY_AMOUNT_SIZE : Q := QArith_base.Qmake 3 2.

(** [printText(text, encoding, position, size, size, 0, fontStyle)] followed
    by [printerDll.Pos_FeedLine()]; the results of both are dropped. *)
Definition print_line (text : jstring) (encoding position : Z) (size : Q)
    (fontStyle : Z) : D unit :=
  run printText text encoding position size size 0 fontStyle ;;
  run call Pos_FeedLine ;;
  ret tt.

Definition is_empty (text : jstring) : bool :=
  match text with [] => true | _ => false end.

Definition storeNameLine (orderData : OrderData amount) : jstring :=
  if negb (is_empty (store_name_zh orderData)) && negb (is_empty (store_name_en orderData))
  then store_name_zh orderData ++ of_ascii " - " ++ store_name_en orderData
  else if negb (is_empty (store_name_zh orderData)) then store_name_zh orderData
  else if negb (is_empty (store_name_en orderData)) then store_name_en orderData
  else [].

(** The customer's number: D or T and the sequence padded to four digits. *)
Definition ticketNumber (order_type daily_sequence : Z) : jstring :=
  of_ascii (if order_type =? 1 then "T" else "D") ++
  of_ascii (JS.padStart 4 "0" (JS.String_Z daily_sequence)).

(** Characters 2 to 4 of the order number, or 001. *)
Definition storeNumber (order_number : jstring) : jstring :=
  if (4 <=? length order_number)%nat
  then take 3 (drop 1 order_number)
  else of_ascii "001".

Definition itemRow (item : Line amount) : jstring :=
  let itemName := truncateText (name item) COL_WIDTH_NAME in
  buildTableRow itemName (String_int (quantity item)) (String_amount (price item))
    (String_amount (subtotal item)) false.

(** [items.forEach(...)] *)
Fixpoint print_items (its : list (Line amount)) : D unit :=
  match its with
  | [] => ret tt
  | item :: rest =>
      run print_line (itemRow item) TEXT_ENCODING (-1) NORMAL_SIZE 0 ;;
      print_items rest
  end.

Definition qtyTotal (orderData : OrderData amount) : Z :=
  match total_quantity orderData with
  | Some q => q
  | None => fold_left (fun sum it => sum + quantity it) (items orderData) 0
  end.

Definition totalRow (orderData : OrderData amount) : jstring :=
  buildTableRow total_label (String_int (qtyTotal orderData)) []
    (of_ascii "HK$" ++ String_amount (total_amount orderData)) false.

Definition payAmountLine (orderData : OrderData amount) : jstring :=
  let payAmountText := of_ascii "HK$" ++ String_amount (total_amount orderData) in
  let labelWidth := getDisplayWidth payAmountLabel in
  let amountWidth := getDisplayWidth payAmountText in
  let spaceWidth := Z.max 1 (MAX_LINE_WIDTH - labelWidth - amountWidth) in
  payAmountLabel ++ spaces spaceWidth ++ payAmountText.

Definition separator : D unit :=
  print_line SEPARATOR_LINE TEXT_ENCODING (-1) NORMAL_SIZE 0.

(** Steps 1 to 16 of [printOrderReceipt] and the final line feed: the
    receipt itself. *)
Definition print_receipt (orderData : OrderData amount) : D unit :=
  run call (Pos_Align 1) ;;
  run (if is_empty (storeNameLine orderData) then ret tt
       else print_line (storeNameLine orderData) TRADITIONAL_CHINESE_ENCODING (-2)
              NORMAL_SIZE 0) ;;
  run print_line ticketNumberLabel TRADITIONAL_CHINESE_ENCODING (-2) LABEL_SIZE 0 ;;
  run (match daily_sequence orderData with
       | Some seq =>
           print_line (ticketNumber (order_type orderData) seq) TEXT_ENCODING (-2)
             SEQ_NUMBER_SIZE 8
       | None => ret tt
       end) ;;
  run call (Pos_Align 0) ;;
  run separator ;;
  run print_line (store_no_label ++ storeNumber (order_number orderData))
        TRADITIONAL_CHINESE_ENCODING (-1) NORMAL_SIZE 0 ;;
  run print_line (type_label ++
                    (if order_type orderData =? 1 then text_takeout else text_dine_in))
        TRADITIONAL_CHINESE_ENCODING (-1) NORMAL_SIZE 0 ;;
  run print_line (truncateText (time_label ++ order_time orderData) MAX_LINE_WIDTH)
        TRADITIONAL_CHINESE_ENCODING (-1) NORMAL_SIZE 0 ;;
  run print_line (truncateText (tn_label ++ order_number orderData) MAX_LINE_WIDTH)
        TRADITIONAL_CHINESE_ENCODING (-1) NORMAL_SIZE 0 ;;
  run separator ;;
  run print_line (buildTableRow head_item head_qty head_price head_amount false)
        TRADITIONAL_CHINESE_ENCODING (-1) NORMAL_SIZE 8 ;;
  run print_line (buildTableRow (of_ascii "Item") (of_ascii "Qty")
                    (of_ascii "Unit Price") (of_ascii "Amount") false)
        TEXT_ENCODING (-1) NORMAL_SIZE 8 ;;
  run (match items orderData with
       | [] => ret tt
       | its => run print_items its ;; run call Pos_FeedLine ;; ret tt
       end) ;;
  run separator ;;
  run print_line (totalRow orderData) TRADITIONAL_CHINESE_ENCODING (-1) NORMAL_SIZE 8 ;;
  run separator ;;
  run call (Pos_Align 0) ;;
  run call Pos_FeedLine ;;
  run print_line (buildLabelValueLine pay_type_label
                    (truncateText (payment_type_zh orderData) 20))
        TRADITIONAL_CHINESE_ENCODING (-1) NORMAL_SIZE 0 ;;
  run (if is_empty (truncateText (payment_type_en orderData) 30) then ret tt
       else print_line (buildLabelValueLine (of_ascii "Payment type")
                          (truncateText (payment_type_en orderData) 30))
              TEXT_ENCODING (-1) NORMAL_SIZE 0) ;;
  run separator ;;
  run print_line (payAmountLine orderData) TRADITIONAL_CHINESE_ENCODING (-1)
        PAY_AMOUNT_SIZE 8 ;;
  run separator ;;
  run call (Pos_Align 1) ;;
  run call Pos_FeedLine ;;
  run print_line text_thanks TRADITIONAL_CHINESE_ENCODING (-2) NORMAL_SIZE 0 ;;
  run print_line (of_ascii "Thank You!") TEXT_ENCODING (-2) NORMAL_SIZE 0 ;;
  run call (Pos_Feed_N_Line 4) ;;
  run try_catch (call Pos_FullCutPaper) (fun _ => ret false) ;;
  run call Pos_FeedLine ;;
  ret tt.

(** "Make sure the port is open": [openPort] unless a handle is held. *)
Definition ensure_port : D bool :=
  st <- get ;;
  if printerHandle st then ret true else openPort.

(** The status check before printing; [Some r] when the function returns
    [r] at this point. *)
Definition check_before : D (option Result) :=
  if checkStatus PRINTER_CONFIG then
    try_catch
      (statusBefore <- queryPrinterStatus ;;
       if statusBefore =? -3 then ret (Some {| success := false; message := msg_paper_out |})
       else if statusBefore =? -1 then ret (Some {| success := false; message := msg_offline |})
       else if statusBefore =? -2 then ret (Some {| success := false; message := msg_cover_open |})
       else ret None)
      (fun _ => ret None)
  else ret None.

(** The status check after printing: whether paper is reported missing. The
    half second it waits first is not modelled. *)
Definition check_after : D bool :=
  if checkStatus PRINTER_CONFIG then
    try_catch
      (statusAfter <- queryPrinterStatus ;; ret (statusAfter =? -3))
      (fun _ => ret false)
  else ret false.

(** The body of the [try] of [printOrderReceipt]. *)
Definition printOrderReceipt_try (orderData : OrderData amount) : D Result :=
  opened <- ensure_port ;;
  if negb opened then ret {| success := false; message := msg_cannot_open |} else
  before <- check_before ;;
  match before with
  | Some r => ret r
  | None =>
      run print_receipt orderData ;;
      maybe_out_of_paper <- check_after ;;
      if maybe_out_of_paper
      then ret {| success := false; message := msg_maybe_incomplete |}
      else ret {| success := true; message := msg_printed |}
  end.

(** [printOrderReceipt(orderData)] *)
Definition printOrderReceipt (orderData : OrderData amount) : D Result :=
  st <- get ;;
  if negb (printerDll st)
  then ret {| success := true; message := msg_simulated |}
  else try_catch (printOrderReceipt_try orderData)
                 (fun e => ret {| success := false; message := msg_print_failed e |}).

(** *** What reaches the print job *)

(** The two module-level flags that no function below assigns. *)
Definition flags (st : Device) : bool * bool := (printerDll st, wchar_t_ptr st).

(** [silent m]: whatever [m] does, it adds no print call to the calls made
    and leaves the flags alone. *)
Definition silent {A} (m : D A) : Prop :=
  forall st r st', m st = (r, st') ->
    job (calls st') = job (calls st) /\ flags st' = flags st.

(** [emits ready m cs]: started with [printerDll && wchar_t_ptr] equal to
    [ready], a run of [m] that returns has added exactly the print calls
    [cs]. *)
Definition emits (ready : bool) {A} (m : D A) (cs : list native) : Prop :=
  forall st a st', printerDll st && wchar_t_ptr st = ready -> m st = (Ok a, st') ->
    job (calls st') = job (calls st) ++ cs /\ flags st' = flags st.

(** [never_throws m]: [m] always returns. *)
Definition never_throws {A} (m : D A) : Prop :=
  forall st, exists a st', m st = (Ok a, st').

(** The print calls of one [print_line]. *)
Definition line_job (ready : bool) (text : jstring) (encoding position : Z)
    (size : Q) (fontStyle : Z) : list native :=
  (if ready then [Pos_Text text encoding position size size 0 fontStyle] else []) ++
  [Pos_FeedLine].

Definition separator_job (ready : bool) : list native :=
  line_job ready SEPARATOR_LINE TEXT_ENCODING (-1) NORMAL_SIZE 0.

(** The print job of a receipt as a function of the order data, the
    configured text encoding and the flag [ready]: the calls of
    [print_receipt] in their order. *)
Definition receipt_job (ready : bool) (orderData : OrderData amount) : list native :=
  [Pos_Align 1] ++
  (if is_empty (storeNameLine orderData) then []
   else line_job ready (storeNameLine orderData) TRADITIONAL_CHINESE_ENCODING (-2)
          NORMAL_SIZE 0) ++
  line_job ready ticketNumberLabel TRADITIONAL_CHINESE_ENCODING (-2) LABEL_SIZE 0 ++
  (match daily_sequence orderData with
   | Some seq =>
       line_job ready (ticketNumber (order_type orderData) seq) TEXT_ENCODING (-2)
         SEQ_NUMBER_SIZE 8
   | None => []
   end) ++
  [Pos_Align 0] ++
  separator_job ready ++
  line_job ready (store_no_label ++ storeNumber (order_number orderData))
    TRADITIONAL_CHINESE_ENCODING (-1) NORMAL_SIZE 0 ++
  line_job ready (type_label ++
                    (if order_type orderData =? 1 then text_takeout else text_dine_in))
    TRADITIONAL_CHINESE_ENCODING (-1) NORMAL_SIZE 0 ++
  line_job ready (truncateText (time_label ++ order_time orderData) MAX_LINE_WIDTH)
    TRADITIONAL_CHINESE_ENCODING (-1) NORMAL_SIZE 0 ++
  line_job ready (truncateText (tn_label ++ order_number orderData) MAX_LINE_WIDTH)
    TRADITIONAL_CHINESE_ENCODING (-1) NORMAL_SIZE 0 ++
  separator_job ready ++
  line_job ready (buildTableRow head_item head_qty head_price head_amount false)
    TRADITIONAL_CHINESE_ENCODING (-1) NORMAL_SIZE 8 ++
  line_job ready (buildTableRow (of_ascii "Item") (of_ascii "Qty")
                    (of_ascii "Unit Price") (of_ascii "Amount") false)
    TEXT_ENCODING (-1) NORMAL_SIZE 8 ++
  (match items orderData with
   | [] => []
   | its =>
       concat ((fun item => line_job ready (itemRow item) TEXT_ENCODING (-1) NORMAL_SIZE 0)
                 <$> its) ++ [Pos_FeedLine]
   end) ++
  separator_job ready ++
  line_job ready (totalRow orderData) TRADITIONAL_CHINESE_ENCODING (-1) NORMAL_SIZE 8 ++
  separator_job ready ++
  [Pos_Align 0] ++
  [Pos_FeedLine] ++
  line_job ready (buildLabelValueLine pay_type_label
                    (truncateText (payment_type_zh orderData) 20))
    TRADITIONAL_CHINESE_ENCODING (-1) NORMAL_SIZE 0 ++
  (if is_empty (truncateText (payment_type_en orderData) 30) then []
   else line_job ready (buildLabelValueLine (of_ascii "Payment type")
                          (truncateText (payment_type_en orderData) 30))
          TEXT_ENCODING (-1) NORMAL_SIZE 0) ++
  separator_job ready ++
  line_job ready (payAmountLine orderData) TRADITIONAL_CHINESE_ENCODING (-1)
    PAY_AMOUNT_SIZE 8 ++
  separator_job ready ++
  [Pos_Align 1] ++
  [Pos_FeedLine] ++
  line_job ready text_thanks TRADITIONAL_CHINESE_ENCODING (-2) NORMAL_SIZE 0 ++
  line_job ready (of_ascii "Thank You!") TEXT_ENCODING (-2) NORMAL_SIZE 0 ++
  [Pos_Feed_N_Line 4] ++
  [Pos_FullCutPaper] ++
  [Pos_FeedLine].

(** Whether [printOrderReceipt] got as far as printing the whole receipt. *)
Definition printed (r : Result) : Prop :=
  message r = msg_printed \/ message r = msg_maybe_incomplete.

Lemma job_app (l1 l2 : list native) : job (l1 ++ l2) = job l1 ++ job l2.
Proof. apply filter_app. Qed.

Lemma job_record_print f st :
  is_print f = true -> job (calls (record_call f st)) = job (calls st) ++ [f].
Proof.
  intros H. cbn [record_call calls]. rewrite job_app. f_equal.
  unfold job. rewrite filter_cons_True by exact H. reflexivity.
Qed.

Lemma job_record_other f st :
  is_print f = false -> job (calls (record_call f st)) = job (calls st).
Proof.
  intros H. cbn [record_call calls]. rewrite job_app.
  unfold job at 2. rewrite filter_cons_False by congruence.
  cbn. apply app_nil_r.
Qed.

Lemma silent_ret {A} (a : A) : silent (ret a).
Proof. intros st r st' H. inversion H. auto. Qed.

Lemma silent_throw {A} e : silent (@throw A e).
Proof. intros st r st' H. inversion H. auto. Qed.

Lemma silent_get : silent get.
Proof. intros st r st' H. inversion H. auto. Qed.

Lemma silent_set_handle h : silent (set_handle h).
Proof. intros st r st' H. inversion H. auto. Qed.

Lemma silent_bind {A B} (m : D A) (k : A -> D B) :
  silent m -> (forall a, silent (k a)) -> silent (bind m k).
Proof.
  intros Hm Hk st r st' H. unfold bind in H.
  destruct (m st) as [[a|e] s1] eqn:E; destruct (Hm _ _ _ E) as [J F].
  - destruct (Hk a _ _ _ H) as [J' F']. split; congruence.
  - inversion H; subst. auto.
Qed.

Lemma silent_try_catch {A} (m : D A) (h : jstring -> D A) :
  silent m -> (forall e, silent (h e)) -> silent (try_catch m h).
Proof.
  intros Hm Hh st r st' H. unfold try_catch in H.
  destruct (m st) as [[a|e] s1] eqn:E; destruct (Hm _ _ _ E) as [J F].
  - inversion H; subst. auto.
  - destruct (Hh e _ _ _ H) as [J' F']. split; congruence.
Qed.

Lemma silent_call f : is_print f = false -> silent (call f).
Proof.
  intros Hf st r st' H. unfold call in H.
  destruct (raises driver (length (calls st)) f); inversion H; subst;
    (split; [apply job_record_other; exact Hf | reflexivity]).
Qed.

Lemma silent_call_query : silent call_query.
Proof.
  intros st r st' H. unfold call_query in H.
  destruct (raises driver (length (calls st)) Pos_QueryPrinterErr); inversion H; subst;
    (split; [apply job_record_other; reflexivity | reflexivity]).
Qed.

Ltac silent_steps :=
  repeat first
    [ apply silent_ret
    | apply silent_throw
    | apply silent_get
    | apply silent_set_handle
    | apply silent_call_query
    | apply silent_call; reflexivity
    | apply silent_bind; [|intros ?]
    | apply silent_try_catch; [|intros ?]
    | match goal with
      | |- silent (if ?b then _ else _) => destruct b
      | |- silent (match ?x with _ => _ end) => destruct x
      end ].

Lemma closePort_silent : silent closePort.
Proof. unfold closePort. silent_steps. Qed.

Lemma openPort_silent : silent openPort.
Proof. unfold openPort. silent_steps. Qed.

Lemma queryPrinterStatus_silent : silent queryPrinterStatus.
Proof. unfold queryPrinterStatus. silent_steps. Qed.

Lemma ensure_port_silent : silent ensure_port.
Proof. unfold ensure_port. silent_steps. Qed.

Lemma check_before_silent : silent check_before.
Proof.
  unfold check_before. destruct (checkStatus PRINTER_CONFIG); [|apply silent_ret].
  apply silent_try_catch; [|intros ?; apply silent_ret].
  apply silent_bind; [apply queryPrinterStatus_silent|]. intros code. silent_steps.
Qed.

Lemma check_after_silent : silent check_after.
Proof.
  unfold check_after. destruct (checkStatus PRINTER_CONFIG); [|apply silent_ret].
  apply silent_try_catch; [|intros ?; apply silent_ret].
  apply silent_bind; [apply queryPrinterStatus_silent|]. intros code. apply silent_ret.
Qed.

Lemma emits_ret ready {A} (a : A) : emits ready (ret a) [].
Proof. intros st x st' _ H. inversion H. rewrite app_nil_r. auto. Qed.

Lemma emits_bind ready {A B} (m : D A) (k : A -> D B) c1 c2 :
  emits ready m c1 -> (forall a, emits ready (k a) c2) -> emits ready (bind m k) (c1 ++ c2).
Proof.
  intros Hm Hk st b st' Hready H. unfold bind in H.
  destruct (m st) as [[a|e] s1] eqn:E; [|discriminate].
  destruct (Hm _ _ _ Hready E) as [J F].
  assert (Hready1 : printerDll s1 && wchar_t_ptr s1 = ready).
  { unfold flags in F. inversion F. congruence. }
  destruct (Hk a _ _ _ Hready1 H) as [J' F'].
  split; [rewrite J', J; apply eq_sym, app_assoc | congruence].
Qed.

Lemma emits_then_ret ready {A B} (m : D A) (b : B) cs :
  emits ready m cs -> emits ready (bind m (fun _ => ret b)) cs.
Proof.
  intros Hm. rewrite <- (app_nil_r cs). apply emits_bind; [exact Hm|].
  intros _. apply emits_ret.
Qed.

Lemma emits_call ready f : is_print f = true -> emits ready (call f) [f].
Proof.
  intros Hf st a st' _ H. unfold call in H.
  destruct (raises driver (length (calls st)) f); inversion H; subst.
  split; [apply job_record_print; exact Hf | reflexivity].
Qed.

(** A text is handed to the DLL whether or not the DLL then throws, and
    [printText] returns in both cases. *)
Lemma emits_printText ready text encoding position widthTimes heightTimes fontType fontStyle :
  emits ready (printText text encoding position widthTimes heightTimes fontType fontStyle)
    (if ready
     then [Pos_Text text encoding position widthTimes heightTimes fontType fontStyle]
     else []).
Proof.
  intros st a st' Hready H. unfold printText, bind, get in H.
  rewrite <- negb_andb, Hready in H. destruct ready; cbn [negb] in H.
  - unfold try_catch, call, ret in H.
    destruct (raises driver (length (calls st)) _); inversion H; subst;
      (split; [apply job_record_print; reflexivity | reflexivity]).
  - inversion H; subst. rewrite app_nil_r. auto.
Qed.

Lemma emits_cut ready :
  emits ready (try_catch (call Pos_FullCutPaper) (fun _ => ret false)) [Pos_FullCutPaper].
Proof.
  intros st a st' _ H. unfold try_catch, call, ret in H.
  destruct (raises driver (length (calls st)) _); inversion H; subst;
    (split; [apply job_record_print; reflexivity | reflexivity]).
Qed.

Lemma emits_print_line ready text encoding position size fontStyle :
  emits ready (print_line text encoding position size fontStyle)
    (line_job ready text encoding position size fontStyle).
Proof.
  unfold print_line, line_job.
  apply emits_bind; [apply emits_printText|]. intros _.
  apply emits_then_ret, emits_call. reflexivity.
Qed.

Lemma emits_print_items ready its :
  emits ready (print_items its)
    (concat ((fun item => line_job ready (itemRow item) TEXT_ENCODING (-1) NORMAL_SIZE 0)
               <$> its)).
Proof.
  induction its as [|item rest IH]; cbn [print_items fmap list_fmap concat].
  - apply emits_ret.
  - apply emits_bind; [apply emits_print_line|]. intros _. exact IH.
Qed.

Ltac emits_steps :=
  repeat first
    [ apply emits_print_line
    | apply emits_print_items
    | apply emits_cut
    | apply emits_call; reflexivity
    | apply emits_ret
    | apply emits_then_ret
    | apply emits_bind; [|intros _] ].

(** The calls of [print_receipt] that reach the print job are those of
    [receipt_job], in that order, whatever the driver answers. *)
Lemma emits_print_receipt ready orderData :
  emits ready (print_receipt orderData) (receipt_job ready orderData).
Proof.
  unfold print_receipt, receipt_job, separator, separator_job.
  destruct (is_empty (storeNameLine orderData)),
           (daily_sequence orderData),
           (items orderData),
           (is_empty (truncateText (payment_type_en orderData) 30));
    emits_steps.
Qed.

Lemma check_before_result st r st' :
  check_before st = (Ok (Some r), st') -> success r = false /\ ~ printed r.
Proof.
  unfold check_before. destruct (checkStatus PRINTER_CONFIG); [|discriminate].
  unfold try_catch, bind, ret.
  destruct (queryPrinterStatus st) as [[code|e] s1]; [|discriminate].
  repeat match goal with
         | |- context [if ?c then _ else _] => destruct c
         end;
    intros H; inversion H; subst; (split; [reflexivity|]);
    intros [Hm|Hm]; cbn in Hm; discriminate.
Qed.

(** A run of [printOrderReceipt] on a loaded DLL that got as far as
    printing the receipt has added exactly the print calls of
    [receipt_job]. *)
Lemma printed_run orderData st r st' :
  printerDll st = true ->
  printOrderReceipt orderData st = (Ok r, st') ->
  printed r ->
  job (calls st') = job (calls st) ++ receipt_job (wchar_t_ptr st) orderData.
Proof.
  intros Hdll H Hprinted. unfold printOrderReceipt, bind, get in H.
  rewrite Hdll in H. cbn [negb] in H. unfold try_catch in H.
  destruct (printOrderReceipt_try orderData st) as [[r0|e] s0] eqn:E.
  2: { inversion H; subst. destruct Hprinted as [Hm|Hm]; cbn in Hm; discriminate. }
  inversion H; subst r0 s0; clear H.
  unfold printOrderReceipt_try, bind in E.
  destruct (ensure_port st) as [[opened|e] s1] eqn:E1; [|discriminate].
  destruct (ensure_port_silent _ _ _ E1) as [J1 F1].
  destruct opened; cbn [negb] in E.
  2: { inversion E; subst. destruct Hprinted as [Hm|Hm]; cbn in Hm; discriminate. }
  destruct (check_before s1) as [[before|e] s2] eqn:E2; [|discriminate].
  destruct (check_before_silent _ _ _ E2) as [J2 F2].
  destruct before as [r1|].
  { inversion E; subst. apply check_before_result in E2 as [_ Hnot]. contradiction. }
  destruct (print_receipt orderData s2) as [[[]|e] s3] eqn:E3; [|discriminate].
  assert (Hready : printerDll s2 && wchar_t_ptr s2 = wchar_t_ptr st).
  { unfold flags in F1, F2. injection F1 as P1 W1. injection F2 as P2 W2.
    rewrite P2, W2, P1, W1, Hdll. reflexivity. }
  destruct (emits_print_receipt _ orderData _ _ _ Hready E3) as [J3 F3].
  destruct (check_after s3) as [[maybe|e] s4] eqn:E4; [|discriminate].
  destruct (check_after_silent _ _ _ E4) as [J4 F4].
  assert (s4 = st') by (destruct maybe; inversion E; reflexivity). subst s4.
  congruence.
Qed.

Lemma never_throws_try_catch {A} (m : D A) (h : jstring -> D A) :
  (forall e, never_throws (h e)) -> never_throws (try_catch m h).
Proof.
  intros Hh st. unfold try_catch.
  destruct (m st) as [[a|e] s1]; [eexists _, _; reflexivity | apply Hh].
Qed.

Lemma never_throws_ret {A} (a : A) : never_throws (ret a).
Proof. intros st. eexists _, _. reflexivity. Qed.

Lemma printText_never_throws text encoding position widthTimes heightTimes fontType fontStyle :
  never_throws (printText text encoding position widthTimes heightTimes fontType fontStyle).
Proof.
  intros st. unfold printText, bind, get.
  destruct (negb (printerDll st) || negb (wchar_t_ptr st)).
  - eexists _, _. reflexivity.
  - apply never_throws_try_catch. intros e. apply never_throws_ret.
Qed.

Lemma printOrderReceipt_never_throws orderData : never_throws (printOrderReceipt orderData).
Proof.
  intros st. unfold printOrderReceipt, bind, get.
  destruct (negb (printerDll st)).
  - eexists _, _. reflexivity.
  - apply never_throws_try_catch. intros e. apply never_throws_ret.
Qed.

(** An exception of an alignment call is not caught on the way: it leaves
    [print_receipt]. *)
Lemma print_receipt_align_throws orderData st e :
  raises driver (length (calls st)) (Pos_Align 1) = Some e ->
  print_receipt orderData st = (Throw e, record_call (Pos_Align 1) st).
Proof.
  intros H. unfold print_receipt. unfold bind at 1. unfold call. rewrite H. reflexivity.
Qed.

(** C8, as the code has it. [printOrderReceipt] always returns a result and
    never throws. Without the DLL it returns the simulated success, whose
    message differs from the one of a real print. With the DLL: a port that
    cannot be opened, a fault reported by the status check before printing
    (offline -1, cover open -2, out of paper -3), an exception that leaves
    the [try] block (thrown by an alignment or feed call), and paper
    reported missing by the status check after printing each give a result
    with [success] false. An exception thrown while a text is handed to the
    DLL does not leave [printText], and one thrown by the cutter is
    swallowed where it is called: neither reaches the result. *)
Theorem printOrderReceipt_results orderData (st : Device) :
  (exists r st', printOrderReceipt orderData st = (Ok r, st')) /\
  (printerDll st = false ->
     printOrderReceipt orderData st =
       (Ok {| success := true; message := msg_simulated |}, st) /\
     msg_simulated <> msg_printed) /\
  (forall s1, printerDll st = true -> printerHandle st = false ->
     openPort st = (Ok false, s1) ->
     printOrderReceipt orderData st =
       (Ok {| success := false; message := msg_cannot_open |}, s1)) /\
  (forall s1 s2 code, printerDll st = true -> checkStatus PRINTER_CONFIG = true ->
     ensure_port st = (Ok true, s1) -> queryPrinterStatus s1 = (Ok code, s2) ->
     code = -1 \/ code = -2 \/ code = -3 ->
     exists msg, printOrderReceipt orderData st =
       (Ok {| success := false; message := msg |}, s2)) /\
  (forall e st', printerDll st = true ->
     printOrderReceipt_try orderData st = (Throw e, st') ->
     printOrderReceipt orderData st =
       (Ok {| success := false; message := msg_print_failed e |}, st')) /\
  (forall s1 s2 s3 s4, printerDll st = true -> checkStatus PRINTER_CONFIG = true ->
     ensure_port st = (Ok true, s1) -> check_before s1 = (Ok None, s2) ->
     print_receipt orderData s2 = (Ok tt, s3) ->
     queryPrinterStatus s3 = (Ok (-3), s4) ->
     printOrderReceipt orderData st =
       (Ok {| success := false; message := msg_maybe_incomplete |}, s4)) /\
  (forall text encoding position widthTimes heightTimes fontType fontStyle,
     never_throws (printText text encoding position widthTimes heightTimes
                     fontType fontStyle)) /\
  never_throws (try_catch (call Pos_FullCutPaper) (fun _ => ret false)).
Proof.
  repeat apply conj.
  - apply printOrderReceipt_never_throws.
  - intros Hdll. unfold printOrderReceipt, bind, get. rewrite Hdll.
    split; [reflexivity | discriminate].
  - intros s1 Hdll Hh Hopen.
    unfold printOrderReceipt, bind, get. rewrite Hdll. cbn [negb].
    unfold try_catch, printOrderReceipt_try. unfold bind at 1.
    unfold ensure_port, bind, get. rewrite Hh, Hopen. reflexivity.
  - intros s1 s2 code Hdll Hcheck Hport Hq Hcode.
    unfold printOrderReceipt, bind, get. rewrite Hdll. cbn [negb].
    unfold try_catch, printOrderReceipt_try. unfold bind at 1. rewrite Hport.
    cbn [negb]. unfold bind at 1. unfold check_before. rewrite Hcheck.
    unfold try_catch, bind. rewrite Hq.
    destruct Hcode as [Hc|[Hc|Hc]]; subst code; eexists; reflexivity.
  - intros e st' Hdll Htry.
    unfold printOrderReceipt, bind, get. rewrite Hdll. cbn [negb].
    unfold try_catch. rewrite Htry. reflexivity.
  - intros s1 s2 s3 s4 Hdll Hcheck Hport Hbefore Hreceipt Hq.
    unfold printOrderReceipt, bind, get. rewrite Hdll. cbn [negb].
    unfold try_catch, printOrderReceipt_try. unfold bind at 1. rewrite Hport.
    cbn [negb]. unfold bind at 1. rewrite Hbefore.
    unfold bind at 1. rewrite Hreceipt.
    unfold bind at 1. unfold check_after. rewrite Hcheck.
    unfold try_catch, bind. rewrite Hq. reflexivity.
  - apply printText_never_throws.
  - apply never_throws_try_catch. intros e. apply never_throws_ret.
Qed.

(** *** The connection *)

(** The calls that open, configure or close the port. *)
Definition is_port (f : native) : bool :=
  match f with
  | Port_OpenCOMIO | Port_OpenUSBIO | Port_OpenLPTIO | Port_OpenPRNIO | Port_OpenTCPIO
  | Port_SetPort | Port_ClosePort => true
  | _ => false
  end.

Definition port_calls (trace : list native) : list native :=
  filter (fun f => is_port f = true) trace.

(** [keeps_port m]: whatever [m] does, it makes no call on the port and
    leaves the handle as it is. *)
Definition keeps_port {A} (m : D A) : Prop :=
  forall st r st', m st = (r, st') ->
    printerHandle st' = printerHandle st /\
    port_calls (calls st') = port_calls (calls st).

Lemma port_calls_record_other f st :
  is_port f = false -> port_calls (calls (record_call f st)) = port_calls (calls st).
Proof.
  intros H. cbn [record_call calls]. unfold port_calls. rewrite filter_app.
  rewrite (filter_cons_False _ f) by congruence. cbn. apply app_nil_r.
Qed.

Lemma keeps_port_ret {A} (a : A) : keeps_port (ret a).
Proof. intros st r st' H. inversion H. auto. Qed.

Lemma keeps_port_get : keeps_port get.
Proof. intros st r st' H. inversion H. auto. Qed.

Lemma keeps_port_bind {A B} (m : D A) (k : A -> D B) :
  keeps_port m -> (forall a, keeps_port (k a)) -> keeps_port (bind m k).
Proof.
  intros Hm Hk st r st' H. unfold bind in H.
  destruct (m st) as [[a|e] s1] eqn:E; destruct (Hm _ _ _ E) as [J F].
  - destruct (Hk a _ _ _ H) as [J' F']. split; congruence.
  - inversion H; subst. auto.
Qed.

Lemma keeps_port_try_catch {A} (m : D A) (h : jstring -> D A) :
  keeps_port m -> (forall e, keeps_port (h e)) -> keeps_port (try_catch m h).
Proof.
  intros Hm Hh st r st' H. unfold try_catch in H.
  destruct (m st) as [[a|e] s1] eqn:E; destruct (Hm _ _ _ E) as [J F].
  - inversion H; subst. auto.
  - destruct (Hh e _ _ _ H) as [J' F']. split; congruence.
Qed.

Lemma keeps_port_call f : is_port f = false -> keeps_port (call f).
Proof.
  intros Hf st r st' H. unfold call in H.
  destruct (raises driver (length (calls st)) f); inversion H; subst;
    (split; [reflexivity | apply port_calls_record_other; exact Hf]).
Qed.

Lemma keeps_port_call_query : keeps_port call_query.
Proof.
  intros st r st' H. unfold call_query in H.
  destruct (raises driver (length (calls st)) Pos_QueryPrinterErr); inversion H; subst;
    (split; [reflexivity | apply port_calls_record_other; reflexivity]).
Qed.

Ltac keeps_port_steps :=
  repeat first
    [ apply keeps_port_ret
    | apply keeps_port_get
    | apply keeps_port_call_query
    | apply keeps_port_call; reflexivity
    | apply keeps_port_bind; [|intros ?]
    | apply keeps_port_try_catch; [|intros ?]
    | match goal with
      | |- keeps_port (if ?b then _ else _) => destruct b
      | |- keeps_port (match ?x with _ => _ end) => destruct x
      end ].

Lemma printText_keeps_port text encoding position widthTimes heightTimes fontType fontStyle :
  keeps_port (printText text encoding position widthTimes heightTimes fontType fontStyle).
Proof. unfold printText. keeps_port_steps. Qed.

Lemma print_line_keeps_port text encoding position size fontStyle :
  keeps_port (print_line text encoding position size fontStyle).
Proof.
  unfold print_line. apply keeps_port_bind; [apply printText_keeps_port|].
  intros _. keeps_port_steps.
Qed.

Lemma print_items_keeps_port its : keeps_port (print_items its).
Proof.
  induction its as [|item rest IH]; cbn [print_items].
  - apply keeps_port_ret.
  - apply keeps_port_bind; [apply print_line_keeps_port | intros _; exact IH].
Qed.

Lemma print_receipt_keeps_port orderData : keeps_port (print_receipt orderData).
Proof.
  unfold print_receipt, separator.
  repeat first
    [ apply print_line_keeps_port
    | apply print_items_keeps_port
    | apply keeps_port_ret
    | apply keeps_port_call; reflexivity
    | apply keeps_port_try_catch; [|intros ?]
    | apply keeps_port_bind; [|intros _]
    | match goal with
      | |- keeps_port (if ?b then _ else _) => destruct b
      | |- keeps_port (match ?x with _ => _ end) => destruct x
      end ].
Qed.

Lemma queryPrinterStatus_keeps_port : keeps_port queryPrinterStatus.
Proof. unfold queryPrinterStatus. keeps_port_steps. Qed.

Lemma check_before_keeps_port : keeps_port check_before.
Proof.
  unfold check_before. destruct (checkStatus PRINTER_CONFIG); [|apply keeps_port_ret].
  apply keeps_port_try_catch; [|intros ?; apply keeps_port_ret].
  apply keeps_port_bind; [apply queryPrinterStatus_keeps_port|].
  intros code. keeps_port_steps.
Qed.

Lemma check_after_keeps_port : keeps_port check_after.
Proof.
  unfold check_after. destruct (checkStatus PRINTER_CONFIG); [|apply keeps_port_ret].
  apply keeps_port_try_catch; [|intros ?; apply keeps_port_ret].
  apply keeps_port_bind; [apply queryPrinterStatus_keeps_port|].
  intros code. apply keeps_port_ret.
Qed.

(** A receipt printed over a connection that is already open uses that
    connection: whatever the printer answers and however the call ends,
    [printOrderReceipt] neither opens, configures nor closes a port, and the
    connection is still held when it returns. *)
Theorem printOrderReceipt_keeps_open_port orderData (st : Device) r st' :
  printerHandle st = true ->
  printOrderReceipt orderData st = (r, st') ->
  printerHandle st' = true /\ port_calls (calls st') = port_calls (calls st).
Proof.
  intros Hheld H. rewrite <- Hheld at 1.
  unfold printOrderReceipt in H. unfold bind at 1 in H. unfold get in H.
  destruct (negb (printerDll st)); [inversion H; auto|].
  assert (Hrest :
    keeps_port (bind check_before (fun before =>
        match before with
        | Some r1 => ret r1
        | None =>
            bind (print_receipt orderData) (fun _ =>
            bind check_after (fun maybe_out_of_paper =>
              if maybe_out_of_paper
              then ret {| success := false; message := msg_maybe_incomplete |}
              else ret {| success := true; message := msg_printed |}))
        end))).
  { apply keeps_port_bind; [apply check_before_keeps_port|].
    intros [r1|]; [apply keeps_port_ret|].
    apply keeps_port_bind; [apply print_receipt_keeps_port|]. intros _.
    apply keeps_port_bind; [apply check_after_keeps_port|]. intros maybe.
    destruct maybe; apply keeps_port_ret. }
  unfold try_catch, printOrderReceipt_try in H. unfold bind at 1 in H.
  unfold ensure_port in H. unfold bind at 1 in H. unfold get in H.
  rewrite Hheld in H. cbn [ret negb] in H.
  match type of H with
  | context [match ?m st with _ => _ end] => destruct (m st) as [[r0|e] s1] eqn:E
  end.
  - inversion H; subst. exact (Hrest _ _ _ E).
  - inversion H; subst. exact (Hrest _ _ _ E).
Qed.

(** [closePort] never throws. With the DLL loaded the handle is released
    when it returns, whether or not the DLL accepted the call; it returns
    true only after it did call [Port_ClosePort] on a held handle. *)
Theorem closePort_releases (st : Device) :
  exists b st', closePort st = (Ok b, st') /\
    (printerDll st = true -> printerHandle st' = false) /\
    (b = true -> printerHandle st = true /\ calls st' = calls st ++ [Port_ClosePort]).
Proof.
  unfold closePort, bind, get.
  destruct (printerDll st) eqn:Hdll; cbn [negb orb].
  2: { eexists _, _. split; [reflexivity|]. split; intros; discriminate. }
  destruct (printerHandle st) eqn:Hh; cbn [negb].
  2: { eexists _, _. split; [reflexivity|]. split; [auto | intros; discriminate]. }
  unfold try_catch, bind, call, set_handle, ret.
  destruct (raises driver (length (calls st)) Port_ClosePort);
    eexists _, _; (split; [reflexivity|]); split; try reflexivity; intros; try discriminate.
  split; reflexivity.
Qed.

Lemma closePort_returns (st : Device) :
  exists b st', closePort st = (Ok b, st') /\ printerDll st' = printerDll st.
Proof.
  unfold closePort, bind, get.
  destruct (negb (printerDll st) || negb (printerHandle st)).
  - eexists _, _. split; reflexivity.
  - unfold try_catch, bind, call, set_handle, ret.
    destruct (raises driver (length (calls st)) Port_ClosePort);
      eexists _, _; split; reflexivity.
Qed.

(** [openPort] never throws, and what it returns is the state of the
    connection: with the DLL loaded, the handle is held afterwards exactly
    when it returned true. Without the DLL it returns false and changes
    nothing. *)
Theorem openPort_reports_handle (st : Device) :
  exists b st', openPort st = (Ok b, st') /\
    (printerDll st = true -> printerHandle st' = b) /\
    (printerDll st = false -> b = false /\ st' = st).
Proof.
  unfold openPort. unfold bind at 1. unfold get.
  destruct (printerDll st) eqn:Hdll; cbn [negb].
  2: { eexists _, _. split; [reflexivity|]. split; [discriminate | auto]. }
  unfold bind at 1.
  assert (Hclose : exists b1 s1,
            (if printerHandle st then closePort else ret false) st = (Ok b1, s1)).
  { destruct (printerHandle st).
    - destruct (closePort_returns st) as (b1 & s1 & H & _). eauto.
    - eexists _, _. reflexivity. }
  destruct Hclose as (b1 & s1 & ->).
  unfold try_catch.
  match goal with
  | |- context [match ?m s1 with _ => _ end] => destruct (m s1) as [[b|e] s2] eqn:E
  end.
  - exists b, s2. split; [reflexivity|]. split; [|discriminate]. intros _.
    unfold bind, call, throw, ret, set_handle in E.
    repeat match type of E with
           | context [match ?x with _ => _ end] => destruct x
           | context [if ?x then _ else _] => destruct x
           end; inversion E; reflexivity.
  - eexists _, _. split; [reflexivity|]. split; [|discriminate]. intros _. reflexivity.
Qed.

(** *** What a run can have printed *)

(** [emits_upto ready m cs]: started with [printerDll && wchar_t_ptr] equal
    to [ready], a run of [m] has added the first print calls of [cs], all of
    them when it returned, and left the flags alone. *)
Definition emits_upto (ready : bool) {A} (m : D A) (cs : list native) : Prop :=
  forall st r st', printerDll st && wchar_t_ptr st = ready -> m st = (r, st') ->
    flags st' = flags st /\
    exists sent, job (calls st') = job (calls st) ++ sent /\ sent `prefix_of` cs /\
                 (forall a, r = Ok a -> sent = cs).

Lemma emits_upto_ret ready {A} (a : A) : emits_upto ready (ret a) [].
Proof.
  intros st r st' _ H. inversion H; subst. split; [reflexivity|].
  exists []. rewrite app_nil_r. auto.
Qed.

Lemma emits_upto_silent ready {A} (m : D A) : silent m -> emits_upto ready m [].
Proof.
  intros Hm st r st' _ H. destruct (Hm _ _ _ H) as [J F]. split; [exact F|].
  exists []. rewrite app_nil_r. auto.
Qed.

Lemma emits_upto_bind ready {A B} (m : D A) (k : A -> D B) c1 c2 :
  emits_upto ready m c1 -> (forall a, emits_upto ready (k a) c2) ->
  emits_upto ready (bind m k) (c1 ++ c2).
Proof.
  intros Hm Hk st r st' Hready H. unfold bind in H.
  destruct (m st) as [[a|e] s1] eqn:E;
    destruct (Hm _ _ _ Hready E) as (F & sent & J & Hpre & Hall).
  - assert (Hready1 : printerDll s1 && wchar_t_ptr s1 = ready).
    { unfold flags in F. inversion F. congruence. }
    destruct (Hk a _ _ _ Hready1 H) as (F' & sent' & J' & Hpre' & Hall').
    split; [congruence|]. exists (c1 ++ sent').
    rewrite (Hall a eq_refl) in J. rewrite J', J, <- app_assoc.
    split; [reflexivity|]. split; [apply prefix_app, Hpre'|].
    intros b Hb. rewrite (Hall' b Hb). reflexivity.
  - inversion H; subst. split; [exact F|]. exists sent.
    split; [exact J|]. split; [apply prefix_app_r, Hpre | intros; discriminate].
Qed.

Lemma emits_upto_then_ret ready {A B} (m : D A) (b : B) cs :
  emits_upto ready m cs -> emits_upto ready (bind m (fun _ => ret b)) cs.
Proof.
  intros Hm. rewrite <- (app_nil_r cs). apply emits_upto_bind; [exact Hm|].
  intros _. apply emits_upto_ret.
Qed.

Lemma emits_upto_call ready f : is_print f = true -> emits_upto ready (call f) [f].
Proof.
  intros Hf st r st' _ H. unfold call in H.
  destruct (raises driver (length (calls st)) f); inversion H; subst;
    (split; [reflexivity|]); exists [f];
    (split; [apply job_record_print; exact Hf | auto]).
Qed.

Lemma emits_upto_returning ready {A} (m : D A) cs :
  emits ready m cs -> never_throws m -> emits_upto ready m cs.
Proof.
  intros Hm Hret st r st' Hready H.
  destruct (Hret st) as (a & s1 & Ha). rewrite Ha in H. injection H as <- <-.
  destruct (Hm _ _ _ Hready Ha) as [J F]. split; [exact F|].
  exists cs. auto.
Qed.

Lemma emits_upto_print_line ready text encoding position size fontStyle :
  emits_upto ready (print_line text encoding position size fontStyle)
    (line_job ready text encoding position size fontStyle).
Proof.
  unfold print_line, line_job.
  apply emits_upto_bind.
  - apply emits_upto_returning; [apply emits_printText | apply printText_never_throws].
  - intros _. apply emits_upto_then_ret, emits_upto_call. reflexivity.
Qed.

Lemma emits_upto_print_items ready its :
  emits_upto ready (print_items its)
    (concat ((fun item => line_job ready (itemRow item) TEXT_ENCODING (-1) NORMAL_SIZE 0)
               <$> its)).
Proof.
  induction its as [|item rest IH]; cbn [print_items fmap list_fmap concat].
  - apply emits_upto_ret.
  - apply emits_upto_bind; [apply emits_upto_print_line|]. intros _. exact IH.
Qed.

Lemma emits_upto_cut ready :
  emits_upto ready (try_catch (call Pos_FullCutPaper) (fun _ => ret false))
    [Pos_FullCutPaper].
Proof.
  apply emits_upto_returning; [apply emits_cut|].
  apply never_throws_try_catch. intros e. apply never_throws_ret.
Qed.

Ltac emits_upto_steps :=
  repeat first
    [ apply emits_upto_print_line
    | apply emits_upto_print_items
    | apply emits_upto_cut
    | apply emits_upto_call; reflexivity
    | apply emits_upto_ret
    | apply emits_upto_then_ret
    | apply emits_upto_bind; [|intros _] ].

Lemma emits_upto_print_receipt ready orderData :
  emits_upto ready (print_receipt orderData) (receipt_job ready orderData).
Proof.
  unfold print_receipt, receipt_job, separator, separator_job.
  destruct (is_empty (storeNameLine orderData)),
           (daily_sequence orderData),
           (items orderData),
           (is_empty (truncateText (payment_type_en orderData) 30));
    emits_upto_steps.
Qed.

Lemma printOrderReceipt_try_prints (orderData : OrderData amount) (st : Device) r st' :
  printOrderReceipt_try orderData st = (r, st') ->
  exists sent, job (calls st') = job (calls st) ++ sent /\
    sent `prefix_of` receipt_job (printerDll st && wchar_t_ptr st) orderData /\
    (sent = [] \/ (exists r0, r = Ok r0 /\ printed r0) \/ (exists e, r = Throw e)).
Proof.
  intros H. unfold printOrderReceipt_try in H. unfold bind at 1 in H.
  destruct (ensure_port st) as [[opened|e] s1] eqn:E1;
    destruct (ensure_port_silent _ _ _ E1) as [J1 F1].
  2: { inversion H; subst. exists []. rewrite app_nil_r.
       split; [exact J1|]. split; [apply prefix_nil | auto]. }
  destruct opened; cbn [negb] in H.
  2: { inversion H; subst. exists []. rewrite app_nil_r.
       split; [exact J1|]. split; [apply prefix_nil | auto]. }
  unfold bind at 1 in H.
  destruct (check_before s1) as [[before|e] s2] eqn:E2;
    destruct (check_before_silent _ _ _ E2) as [J2 F2].
  2: { inversion H; subst. exists []. rewrite app_nil_r.
       split; [congruence|]. split; [apply prefix_nil | auto]. }
  destruct before as [r1|].
  { inversion H; subst. exists []. rewrite app_nil_r.
    split; [congruence|]. split; [apply prefix_nil | auto]. }
  assert (Hready : printerDll s2 && wchar_t_ptr s2 = printerDll st && wchar_t_ptr st).
  { unfold flags in F1, F2. injection F1 as P1 W1. injection F2 as P2 W2.
    rewrite P2, W2, P1, W1. reflexivity. }
  unfold bind at 1 in H.
  destruct (print_receipt orderData s2) as [[[]|e] s3] eqn:E3;
    destruct (emits_upto_print_receipt _ orderData _ _ _ Hready E3)
      as (F3 & sent & J3 & Hpre & Hall).
  2: { inversion H; subst. exists sent. split; [congruence|]. split; [exact Hpre|].
       right. right. eauto. }
  unfold bind at 1 in H.
  destruct (check_after s3) as [[maybe|e] s4] eqn:E4;
    destruct (check_after_silent _ _ _ E4) as [J4 F4].
  2: { inversion H; subst. exists sent. split; [congruence|]. split; [exact Hpre|].
       right. right. eauto. }
  exists sent. split; [destruct maybe; inversion H; subst; congruence|].
  split; [exact Hpre|]. right. left.
  destruct maybe; inversion H; subst; eexists; (split; [reflexivity|]);
    [right | left]; reflexivity.
Qed.

(** However a run of [printOrderReceipt] ends, with whatever result, what
    it has sent to the printer is a beginning of the receipt: the print
    calls it added are the first calls of [receipt_job], in their order,
    none twice and none that is not part of the receipt. *)
Theorem printOrderReceipt_prints_a_prefix (orderData : OrderData amount) (st : Device) :
  exists sent,
    job (calls (printOrderReceipt orderData st).2) = job (calls st) ++ sent /\
    sent `prefix_of` receipt_job (printerDll st && wchar_t_ptr st) orderData.
Proof.
  unfold printOrderReceipt. unfold bind at 1. unfold get.
  destruct (printerDll st) eqn:Hdll; cbn [negb].
  { unfold try_catch.
    destruct (printOrderReceipt_try orderData st) as [[r|e] s1] eqn:E;
      destruct (printOrderReceipt_try_prints _ _ _ _ E) as (sent & J & Hpre & _);
      rewrite Hdll in Hpre; exists sent; split; assumption. }
  exists []. rewrite app_nil_r. split; [reflexivity | apply prefix_nil].
Qed.

(** The results that stand for a receipt that was not attempted: the
    simulated print, the port that cannot be opened, and the three faults of
    the status check before printing. *)
Definition not_attempted (r : Result) : Prop :=
  message r = msg_simulated \/ message r = msg_cannot_open \/
  message r = msg_paper_out \/ message r = msg_offline \/ message r = msg_cover_open.

(** A receipt that [printOrderReceipt] reports as not attempted left no
    trace on paper: the run has sent no print call at all, so printing the
    order again cannot duplicate any part of it. *)
Theorem refused_receipt_prints_nothing (orderData : OrderData amount) (st : Device) r st' :
  printOrderReceipt orderData st = (Ok r, st') ->
  not_attempted r ->
  job (calls st') = job (calls st).
Proof.
  intros H Hr. unfold not_attempted in Hr.
  unfold printOrderReceipt in H. unfold bind at 1 in H. unfold get in H.
  destruct (negb (printerDll st)); [inversion H; reflexivity|].
  unfold try_catch in H.
  destruct (printOrderReceipt_try orderData st) as [[r0|e] s0] eqn:E.
  - inversion H; subst r0 s0; clear H.
    destruct (printOrderReceipt_try_prints _ _ _ _ E) as (sent & J & _ & Hcase).
    destruct Hcase as [->|[(r0 & Hr0 & Hp)|(e & He)]].
    + rewrite app_nil_r in J. exact J.
    + inversion Hr0; subst r0. exfalso.
      destruct Hp as [Hm|Hm]; rewrite Hm in Hr;
        repeat (destruct Hr as [Hr|Hr]; [discriminate|]); discriminate.
    + discriminate.
  - inversion H; subst. exfalso. cbn [message] in Hr. unfold msg_print_failed in Hr.
    repeat (destruct Hr as [Hr|Hr]; [discriminate|]). discriminate.
Qed.

End Service.

(** C9. Two runs of [printOrderReceipt] on the same order data and the same
    configuration, with the DLL loaded and the same [wchar_t_ptr] flag (it
    is assigned once, when the module loads, before the DLL is bound), that
    both get as far as printing the receipt add the same print calls, with
    the same texts, encodings, positions, sizes and styles in the same
    order: those of [receipt_job], a function of the order data and the
    configuration alone. The drivers' answers, the port handle and the calls
    made before do not matter, and no clock is read. *)
Theorem receipt_job_deterministic {amount : Type} (String_amount : amount -> jstring)
    (PRINTER_CONFIG : Config) (orderData : OrderData amount)
    (driver1 driver2 : Driver) (st1 st2 : Device) r1 r2 st1' st2' :
  printerDll st1 = true -> printerDll st2 = true ->
  wchar_t_ptr st1 = wchar_t_ptr st2 ->
  printOrderReceipt String_amount driver1 PRINTER_CONFIG orderData st1 = (Ok r1, st1') ->
  printOrderReceipt String_amount driver2 PRINTER_CONFIG orderData st2 = (Ok r2, st2') ->
  printed r1 -> printed r2 ->
  job (calls st1') =
    job (calls st1) ++ receipt_job String_amount PRINTER_CONFIG (wchar_t_ptr st1) orderData /\
  job (calls st2') =
    job (calls st2) ++ receipt_job String_amount PRINTER_CONFIG (wchar_t_ptr st1) orderData.
Proof.
  intros Hdll1 Hdll2 Hw H1 H2 Hp1 Hp2. split.
  - exact (printed_run _ _ _ _ _ _ _ Hdll1 H1 Hp1).
  - rewrite Hw. exact (printed_run _ _ _ _ _ _ _ Hdll2 H2 Hp2).
Qed.

(** *** The code on concrete devices *)

(** A printer that accepts everything. *)
Definition obliging : Driver :=
  {| raises := fun _ _ => None; accepts := fun _ _ => true; status := fun _ => 1 |}.

(** A DLL that throws whenever a text is handed to it, and whose printer has
    no cutter. *)
Definition refuses_texts : Driver :=
  {| raises := fun _ f =>
       match f with
       | Pos_Text _ _ _ _ _ _ _ => Some (of_ascii "Pos_Text failed")
       | Pos_FullCutPaper => Some (of_ascii "no cutter")
       | _ => None
       end;
     accepts := fun _ _ => true; status := fun _ => 1 |}.

(** A DLL that throws on every alignment call. *)
Definition refuses_alignment : Driver :=
  {| raises := fun _ f =>
       match f with
       | Pos_Align _ => Some (of_ascii "device lost")
       | _ => None
       end;
     accepts := fun _ _ => true; status := fun _ => 1 |}.

Definition usb_config : Config :=
  {| portType := USB; portName := of_ascii "USB001"; textEncoding := Some 1;
     checkStatus := false |}.

(** The DLL is loaded, the port not yet opened. *)
Definition port_closed : Device :=
  {| printerDll := true; wchar_t_ptr := true; printerHandle := false; calls := [] |}.

(** The port is open and a receipt feed was sent before. *)
Definition port_open : Device :=
  {| printerDll := true; wchar_t_ptr := true; printerHandle := true;
     calls := [Port_OpenUSBIO; Port_SetPort; Pos_FeedLine] |}.

(** Dine-in order 7 of the day: two portions of "炒飯" at 12. *)
Definition sample_order : OrderData Z :=
  {| order_number := of_ascii "D00120250929120039090007";
     daily_sequence := Some 7; order_type := 0;
     items := [ {| name := [0x7092; 0x98EF]; quantity := 2; price := 12; subtotal := 24 |} ];
     total_amount := 24; total_quantity := Some 2;
     order_time := of_ascii "2025-09-29 12:00:39";
     store_name_zh := []; store_name_en := of_ascii "Canteen";
     payment_type_zh := []; payment_type_en := of_ascii "Cash" |}.

(** C8 fails as stated: every text handed to the DLL throws, so no text of
    the receipt is printed, and the cutter throws too; [printOrderReceipt]
    still reports a successful print. *)
Lemma text_exceptions_end_in_success :
  (printOrderReceipt String_int refuses_texts usb_config sample_order port_closed).1 =
  Ok {| success := true; message := msg_printed |}.
Proof. vm_compute. reflexivity. Qed.

(** C8 at a DLL that throws on the first alignment call: the exception
    leaves the [try] block and becomes a failure result. *)
Lemma printOrderReceipt_results_witness :
  printOrderReceipt String_int refuses_alignment usb_config sample_order port_closed =
  (Ok {| success := false; message := msg_print_failed (of_ascii "device lost") |},
   (printOrderReceipt_try String_int refuses_alignment usb_config sample_order port_closed).2).
Proof.
  destruct (printOrderReceipt_results String_int refuses_alignment usb_config sample_order
              port_closed) as (_ & _ & _ & _ & H & _).
  apply H; [reflexivity | vm_compute; reflexivity].
Defined.

(** C9 at two runs of the sample order: one on a fresh port with an obliging
    printer, one on an open port with a DLL that throws on every text. *)
Lemma receipt_job_deterministic_witness :
  job (calls (printOrderReceipt String_int obliging usb_config sample_order port_closed).2) =
    job (calls port_closed) ++ receipt_job String_int usb_config true sample_order /\
  job (calls (printOrderReceipt String_int refuses_texts usb_config sample_order port_open).2) =
    job (calls port_open) ++ receipt_job String_int usb_config true sample_order.
Proof.
  apply (receipt_job_deterministic String_int usb_config sample_order obliging refuses_texts
           port_closed port_open
           {| success := true; message := msg_printed |}
           {| success := true; message := msg_printed |}).
  - reflexivity.
  - reflexivity.
  - reflexivity.
  - vm_compute. reflexivity.
  - vm_compute. reflexivity.
  - left. reflexivity.
  - left. reflexivity.
Defined.

(** *** Display width and alignment *)

Lemma fold_width_from (text : jstring) (start : Z) :
  fold_left (fun width c => width + char_width c) text start =
  start + getDisplayWidth text.
Proof.
  unfold getDisplayWidth. revert start.
  induction text as [|c text IH]; intros start; cbn [fold_left].
  - lia.
  - rewrite IH, (IH (0 + char_width c)). lia.
Qed.

Lemma getDisplayWidth_cons c (text : jstring) :
  getDisplayWidth (c :: text) = char_width c + getDisplayWidth text.
Proof. unfold getDisplayWidth at 1. cbn [fold_left]. rewrite fold_width_from. lia. Qed.

Lemma getDisplayWidth_app (a b : jstring) :
  getDisplayWidth (a ++ b) = getDisplayWidth a + getDisplayWidth b.
Proof.
  induction a as [|c a IH]; [reflexivity|].
  cbn [app]. rewrite !getDisplayWidth_cons, IH. lia.
Qed.

Lemma getDisplayWidth_spaces n : 0 <= n -> getDisplayWidth (spaces n) = n.
Proof.
  intros Hn. unfold spaces. rewrite <- (Z2Nat.id n) at 2 by exact Hn.
  induction (Z.to_nat n) as [|k IH]; [reflexivity|].
  cbn [replicate]. rewrite getDisplayWidth_cons, IH. cbn. lia.
Qed.

Lemma char_width_bounds c : 1 <= char_width c <= 2.
Proof. unfold char_width. destruct (is_cjk c); lia. Qed.

Lemma getDisplayWidth_bounds (text : jstring) :
  Z.of_nat (length text) <= getDisplayWidth text <= 2 * Z.of_nat (length text).
Proof.
  induction text as [|c text IH]; [cbn; lia|].
  rewrite getDisplayWidth_cons. pose proof (char_width_bounds c). cbn [length]. lia.
Qed.

(** The display width of the specification, written independently of
    [getDisplayWidth]: a character in one of the CJK unified ranges counts 2
    units, every other character 1. The characters of a JavaScript string
    are its UTF-16 code units; the ranges are the CJK Unified Ideographs
    (U+4E00 to U+9FFF), their Extension A (U+3400 to U+4DBF) and the CJK
    Compatibility Ideographs (U+F900 to U+FAFF). *)
Definition cjk_unified (c : Z) : Prop :=
  19968 <= c <= 40959 \/ 13312 <= c <= 19903 \/ 63744 <= c <= 64255.

#[local] Instance cjk_unified_dec (c : Z) : Decision (cjk_unified c).
Proof. unfold cjk_unified. apply _. Defined.

Definition display_units (text : jstring) : Z :=
  Z.of_nat (length text) + Z.of_nat (length (filter cjk_unified text)).






(** The widths of that cell, computed: the header has 2 characters and 4
    units, and [leftAlign] returns 14 characters. *)
Example header_cell_widths :
  length head_item = 2%nat /\ display_units head_item = 4 /\
  length (leftAlign head_item 16) = 14%nat.
Proof. repeat split; vm_compute; reflexivity. Qed.

(** *** Truncation *)

(** What [truncateText] bounds is the number of code units. *)
Lemma truncateText_length (text : jstring) (maxWidth : Z) :
  1 <= maxWidth -> Z.of_nat (length (truncateText text maxWidth)) <= maxWidth.
Proof.
  intros Hw. unfold truncateText. destruct text as [|c text]; [cbn; lia|].
  destruct (maxWidth <? Z.of_nat (length (c :: text))) eqn:E.
  - rewrite length_app, length_take. cbn [length]. apply Z.ltb_lt in E.
    cbn [length] in E. lia.
  - apply Z.ltb_ge in E. exact E.
Qed.

(** In width units the result can be up to twice as wide as asked. *)
Lemma truncateText_width_bound (text : jstring) (maxWidth : Z) :
  1 <= maxWidth -> getDisplayWidth (truncateText text maxWidth) <= 2 * maxWidth.
Proof.
  intros Hw. pose proof (truncateText_length text maxWidth Hw).
  pose proof (getDisplayWidth_bounds (truncateText text maxWidth)). lia.
Qed.

Lemma getDisplayWidth_single_width (text : jstring) :
  Forall (fun c => is_cjk c = false) text ->
  getDisplayWidth text = Z.of_nat (length text).
Proof.
  induction 1 as [|c text Hc _ IH]; [reflexivity|].
  rewrite getDisplayWidth_cons, IH. unfold char_width. rewrite Hc. cbn [length]. lia.
Qed.

(** For a text without double-width characters the two measures agree, and
    the result does fit the width. *)
Lemma truncateText_width_single_width (text : jstring) (maxWidth : Z) :
  Forall (fun c => is_cjk c = false) text -> 1 <= maxWidth ->
  getDisplayWidth (truncateText text maxWidth) <= maxWidth.
Proof.
  intros Hsingle Hw.
  rewrite getDisplayWidth_single_width; [apply truncateText_length; exact Hw|].
  unfold truncateText. destruct text as [|c text]; [constructor|].
  destruct (maxWidth <? Z.of_nat (length (c :: text))); [|exact Hsingle].
  apply Forall_app. split; [apply Forall_take; exact Hsingle|].
  constructor; [reflexivity | constructor].
Qed.

(** The dish name "中" ten times: 10 code units, 20 width units. *)
Definition ten_wide_characters : jstring := replicate 10 0x4E2D.

(** A time text of 40 digits, as long as the line allows and more. *)
Definition long_time : jstring := replicate 40 48.

(** C6 on the code: [truncateText] counts code units, not width units. A
    dish name of ten double-width characters is 20 units wide and has 10
    code units, so it is returned uncut, wider than the 16 units of its
    column; the time line of a 40-character time is cut to 48 code units
    that are 52 units wide, its four double-width characters counted once. *)
Theorem truncateText_counts_code_units :
  getDisplayWidth ten_wide_characters = 20 /\
  truncateText ten_wide_characters COL_WIDTH_NAME = ten_wide_characters /\
  getDisplayWidth (truncateText ten_wide_characters COL_WIDTH_NAME) = 20 /\
  Z.of_nat (length (truncateText (time_label ++ long_time) MAX_LINE_WIDTH)) = 48 /\
  last (truncateText (time_label ++ long_time) MAX_LINE_WIDTH) = Some ellipsis /\
  getDisplayWidth (truncateText (time_label ++ long_time) MAX_LINE_WIDTH) = 52.
Proof. repeat split; vm_compute; reflexivity. Qed.


(** *** The connection on a concrete device *)

(** The sample receipt on the open port, with a DLL that throws on the
    first alignment call: the port stays open and untouched. *)
Lemma printOrderReceipt_keeps_open_port_witness :
  printerHandle
    (printOrderReceipt String_int refuses_alignment usb_config sample_order port_open).2 = true /\
  port_calls (calls
    (printOrderReceipt String_int refuses_alignment usb_config sample_order port_open).2) =
  port_calls (calls port_open).
Proof.
  apply (printOrderReceipt_keeps_open_port String_int refuses_alignment usb_config
           sample_order port_open
           (printOrderReceipt String_int refuses_alignment usb_config sample_order port_open).1).
  - reflexivity.
  - apply surjective_pairing.
Defined.

(** *** A printer that is out of paper *)

Definition out_of_paper : Driver :=
  {| raises := fun _ _ => None; accepts := fun _ _ => true; status := fun _ => -3 |}.

Definition checking_config : Config :=
  {| portType := USB; portName := of_ascii "USB001"; textEncoding := Some 1;
     checkStatus := true |}.

Lemma refused_receipt_prints_nothing_witness :
  job (calls (printOrderReceipt String_int out_of_paper checking_config sample_order
                port_open).2) =
  job (calls port_open).
Proof.
  apply (refused_receipt_prints_nothing String_int out_of_paper checking_config sample_order
           port_open {| success := false; message := msg_paper_out |}).
  - vm_compute. reflexivity.
  - right. right. left. reflexivity.
Defined.

(** *** Width of aligned texts and of rows *)

Lemma spaces_zero n : n <= 0 -> spaces n = [].
Proof. intros Hn. unfold spaces. destruct n; try lia; reflexivity. Qed.

Lemma leftAlign_width (text : jstring) (targetWidth : Z) :
  getDisplayWidth (leftAlign text targetWidth) = Z.max targetWidth (getDisplayWidth text).
Proof.
  unfold leftAlign. cbv zeta.
  rewrite getDisplayWidth_app, getDisplayWidth_spaces by lia. lia.
Qed.

Lemma centerAlign_width (text : jstring) (targetWidth : Z) :
  getDisplayWidth (centerAlign text targetWidth) = Z.max targetWidth (getDisplayWidth text).
Proof.
  unfold centerAlign. cbv zeta.
  set (p := Z.max 0 (targetWidth - getDisplayWidth text)).
  assert (Hp : 0 <= p) by (subst p; lia).
  assert (Hhalf : 0 <= p / 2 <= p).
  { split; [apply Z.div_pos; lia | apply Z.div_le_upper_bound; lia]. }
  rewrite !getDisplayWidth_app, !getDisplayWidth_spaces by lia. lia.
Qed.

Lemma rightAlign_width (text : jstring) (targetWidth : Z) :
  getDisplayWidth (rightAlign text targetWidth) = Z.max targetWidth (getDisplayWidth text).
Proof.
  unfold rightAlign. cbv zeta.
  rewrite getDisplayWidth_app, getDisplayWidth_spaces by lia. lia.
Qed.

(** The align helpers never cut: the width of the result is the larger of
    the target width and the width of the text, and a text that is as wide
    as the target or wider is returned as it is. *)
Theorem align_never_cuts (text : jstring) (targetWidth : Z) :
  getDisplayWidth (leftAlign text targetWidth) = Z.max targetWidth (getDisplayWidth text) /\
  getDisplayWidth (centerAlign text targetWidth) = Z.max targetWidth (getDisplayWidth text) /\
  getDisplayWidth (rightAlign text targetWidth) = Z.max targetWidth (getDisplayWidth text) /\
  (targetWidth <= getDisplayWidth text ->
   leftAlign text targetWidth = text /\
   centerAlign text targetWidth = text /\
   rightAlign text targetWidth = text).
Proof.
  split; [apply leftAlign_width|]. split; [apply centerAlign_width|].
  split; [apply rightAlign_width|]. intros Hwide.
  unfold leftAlign, centerAlign, rightAlign. cbv zeta.
  replace (Z.max 0 (targetWidth - getDisplayWidth text)) with 0 by lia.
  change (0 / 2) with 0. change (0 - 0) with 0.
  rewrite spaces_zero by lia. cbn [app]. rewrite app_nil_r. auto.
Qed.

Lemma buildTableRow_width_eq (name qty price amount : jstring) (nameAlignCenter : bool) :
  getDisplayWidth (buildTableRow name qty price amount nameAlignCenter) =
  Z.max COL_WIDTH_NAME (getDisplayWidth name) + Z.max COL_WIDTH_QTY (getDisplayWidth qty) +
  Z.max COL_WIDTH_PRICE (getDisplayWidth price) +
  Z.max COL_WIDTH_AMOUNT (getDisplayWidth amount).
Proof.
  unfold buildTableRow. cbv zeta. rewrite !getDisplayWidth_app, !centerAlign_width.
  destruct nameAlignCenter; [rewrite centerAlign_width | rewrite leftAlign_width]; lia.
Qed.

(** A table row is as wide as its four cells, each at least as wide as its
    column: the row is never narrower than the 48 columns of the line, and
    wider exactly by what the cells exceed their columns. *)
Theorem buildTableRow_width (name qty price amount : jstring) (nameAlignCenter : bool) :
  getDisplayWidth (buildTableRow name qty price amount nameAlignCenter) =
    Z.max COL_WIDTH_NAME (getDisplayWidth name) + Z.max COL_WIDTH_QTY (getDisplayWidth qty) +
    Z.max COL_WIDTH_PRICE (getDisplayWidth price) +
    Z.max COL_WIDTH_AMOUNT (getDisplayWidth amount) /\
  MAX_LINE_WIDTH <= getDisplayWidth (buildTableRow name qty price amount nameAlignCenter).
Proof.
  rewrite buildTableRow_width_eq. split; [reflexivity|].
  unfold MAX_LINE_WIDTH, COL_WIDTH_NAME, COL_WIDTH_QTY, COL_WIDTH_PRICE, COL_WIDTH_AMOUNT. lia.
Qed.

(** The row of a dish fills the line exactly when its name has no
    double-width character and the quantity, the price and the subtotal fit
    their columns, however long the name is. *)
Theorem itemRow_fills_line {amount : Type} (String_amount : amount -> jstring)
    (item : Line amount) :
  Forall (fun c => is_cjk c = false) (name item) ->
  getDisplayWidth (String_int (quantity item)) <= COL_WIDTH_QTY ->
  getDisplayWidth (String_amount (price item)) <= COL_WIDTH_PRICE ->
  getDisplayWidth (String_amount (subtotal item)) <= COL_WIDTH_AMOUNT ->
  getDisplayWidth (itemRow String_amount item) = MAX_LINE_WIDTH.
Proof.
  intros Hname Hq Hp Ha. unfold itemRow. cbv zeta. rewrite buildTableRow_width_eq.
  pose proof (truncateText_width_single_width (name item) COL_WIDTH_NAME Hname) as Hn.
  unfold MAX_LINE_WIDTH, COL_WIDTH_NAME, COL_WIDTH_QTY, COL_WIDTH_PRICE, COL_WIDTH_AMOUNT in *.
  lia.
Qed.

(** A dish with an ASCII name longer than its column. *)
Definition long_ascii_dish : Line Z :=
  {| name := of_ascii "Braised beef noodle soup"; quantity := 2; price := 48; subtotal := 96 |}.

Lemma itemRow_fills_line_witness :
  getDisplayWidth (itemRow String_int long_ascii_dish) = MAX_LINE_WIDTH.
Proof.
  apply (itemRow_fills_line String_int long_ascii_dish).
  - vm_compute. repeat constructor.
  - vm_compute. discriminate.
  - vm_compute. discriminate.
  - vm_compute. discriminate.
Defined.

(** The line of the amount paid: the label, at least one space, the amount.
    It is 48 columns wide, the amount flush right, unless the amount is
    wider than 39 columns. *)
Theorem payAmountLine_width {amount : Type} (String_amount : amount -> jstring)
    (orderData : OrderData amount) :
  exists gap, 1 <= gap /\
    payAmountLine String_amount orderData =
      payAmountLabel ++ spaces gap ++ of_ascii "HK$" ++ String_amount (total_amount orderData) /\
    getDisplayWidth (payAmountLine String_amount orderData) =
      Z.max MAX_LINE_WIDTH
        (9 + getDisplayWidth (of_ascii "HK$" ++ String_amount (total_amount orderData))).
Proof.
  unfold payAmountLine. cbv zeta.
  set (text := of_ascii "HK$" ++ String_amount (total_amount orderData)).
  exists (Z.max 1 (MAX_LINE_WIDTH - getDisplayWidth payAmountLabel - getDisplayWidth text)).
  split; [lia|]. split; [reflexivity|].
  rewrite !getDisplayWidth_app, getDisplayWidth_spaces by lia.
  change (getDisplayWidth payAmountLabel) with 8. unfold MAX_LINE_WIDTH. lia.
Qed.

(** *** Truncation twice *)

(** [truncateText] never makes a text longer, and cutting a text that was
    already cut to the same width changes nothing. *)
Theorem truncateText_stable (text : jstring) (maxWidth : Z) :
  (length (truncateText text maxWidth) <= length text)%nat /\
  truncateText (truncateText text maxWidth) maxWidth = truncateText text maxWidth.
Proof.
  unfold truncateText at 1 3 4. destruct text as [|c text]; [split; reflexivity|].
  destruct (maxWidth <? Z.of_nat (length (c :: text))) eqn:E; [|split; [lia|]].
  2: { unfold truncateText. rewrite E. reflexivity. }
  apply Z.ltb_lt in E.
  assert (Hlen : length (take (Z.to_nat (maxWidth - 1)) (c :: text) ++ [ellipsis]) =
                 S (Z.to_nat (maxWidth - 1))).
  { rewrite length_app, length_take. cbn [length] in *. lia. }
  split; [rewrite Hlen; cbn [length] in *; lia|].
  unfold truncateText.
  destruct (take (Z.to_nat (maxWidth - 1)) (c :: text) ++ [ellipsis]) as [|c' rest] eqn:Hcut.
  { reflexivity. }
  rewrite Hlen.
  destruct (maxWidth <? Z.of_nat (S (Z.to_nat (maxWidth - 1)))) eqn:E'.
  - apply Z.ltb_lt in E'.
    assert (Hz : Z.to_nat (maxWidth - 1) = 0%nat) by lia.
    rewrite Hz in *. cbn [take app] in *. congruence.
  - reflexivity.
Qed.


(** *** The text buffer handed to the DLL *)

(** The code units that [String.prototype.trim] removes: white space and
    line terminators. *)
Definition is_white_space (c : Z) : bool :=
  ((9 <=? c) && (c <=? 13)) || (c =? 0x20) || (c =? 0xA0) || (c =? 0x1680) ||
  ((0x2000 <=? c) && (c <=? 0x200A)) || (c =? 0x2028) || (c =? 0x2029) ||
  (c =? 0x202F) || (c =? 0x205F) || (c =? 0x3000) || (c =? 0xFEFF).

(** [!str || str.trim() === ''] *)
Definition is_blank (str : jstring) : bool := forallb is_white_space str.

(** [Buffer.from(str, 'utf16le')]: two bytes per code unit, low byte first. *)
Definition utf16le (str : jstring) : list Z :=
  flat_map (fun c => [c mod 256; c / 256]) str.

(** [toWcharBuffer(str)] *)
Definition toWcharBuffer (str : jstring) : list Z :=
  if is_blank str then [0; 0] else utf16le (str ++ [0]).

(** What a reader of a [wchar_t*] sees in a buffer: the 16-bit units up to
    the first unit 0. *)
Fixpoint wide_string (buffer : list Z) : jstring :=
  match buffer with
  | low :: high :: rest =>
      if low + 256 * high =? 0 then [] else (low + 256 * high) :: wide_string rest
  | _ => []
  end.

Lemma wide_string_utf16le (str : jstring) (rest : list Z) :
  Forall (fun c => 0 < c < 65536) str ->
  wide_string (utf16le str ++ 0 :: 0 :: rest) = str.
Proof.
  induction 1 as [|c str Hc _ IH]; [reflexivity|].
  cbn [utf16le flat_map app wide_string]. fold (utf16le str).
  assert (Hc' : c mod 256 + 256 * (c / 256) = c).
  { pose proof (Z.div_mod c 256). lia. }
  rewrite Hc'. destruct (c =? 0) eqn:E; [apply Z.eqb_eq in E; lia|].
  rewrite IH. reflexivity.
Qed.

Lemma utf16le_app (a b : jstring) : utf16le (a ++ b) = utf16le a ++ utf16le b.
Proof. unfold utf16le. apply flat_map_app. Qed.

Lemma utf16le_length (str : jstring) : length (utf16le str) = (2 * length str)%nat.
Proof. induction str as [|c str IH]; [reflexivity|]. cbn [utf16le flat_map app length] in *. fold (utf16le str). lia. Qed.

(** The buffer made for a text whose code units are 16-bit values other
    than 0 reads back as that text, followed by the terminator and nothing
    else, unless the text is empty or all white space: then the buffer is
    the bare terminator and the DLL is handed the empty text. *)
Theorem toWcharBuffer_reads_back (str : jstring) :
  Forall (fun c => 0 < c < 65536) str ->
  wide_string (toWcharBuffer str) = (if is_blank str then [] else str) /\
  length (toWcharBuffer str) = (if is_blank str then 2 else 2 * length str + 2)%nat /\
  drop (length (toWcharBuffer str) - 2) (toWcharBuffer str) = [0; 0].
Proof.
  intros Hstr. unfold toWcharBuffer. destruct (is_blank str); [repeat split|].
  rewrite utf16le_app. change (utf16le [0]) with [0; 0].
  split; [apply (wide_string_utf16le str [] Hstr)|].
  rewrite length_app, utf16le_length. cbn [length]. split; [lia|].
  replace (2 * length str + 2 - 2)%nat with (length (utf16le str) + 0)%nat
    by (rewrite utf16le_length; lia).
  rewrite drop_app_add. reflexivity.
Qed.

(** At the label of the ticket number, "***您的號碼(Your number)***". *)
Lemma toWcharBuffer_reads_back_witness :
  wide_string (toWcharBuffer ticketNumberLabel) =
    (if is_blank ticketNumberLabel then [] else ticketNumberLabel) /\
  length (toWcharBuffer ticketNumberLabel) =
    (if is_blank ticketNumberLabel then 2 else 2 * length ticketNumberLabel + 2)%nat /\
  drop (length (toWcharBuffer ticketNumberLabel) - 2) (toWcharBuffer ticketNumberLabel) = [0; 0].
Proof.
  apply (toWcharBuffer_reads_back ticketNumberLabel).
  vm_compute. repeat constructor.
Defined.

(** *** The order code on the receipt *)

Lemma of_ascii_app (a b : string) : of_ascii (a +:+ b) = of_ascii a ++ of_ascii b.
Proof.
  unfold of_ascii. induction a as [|c a IH]; [reflexivity|].
  simpl. f_equal. exact IH.
Qed.

Lemma of_ascii_length (s : string) : length (of_ascii s) = String.length s.
Proof.
  unfold of_ascii. rewrite length_fmap.
  induction s as [|c s IH]; [reflexivity|]. cbn. f_equal. exact IH.
Qed.

Lemma storeNumber_of_length setting storeId :
  String.length (OrderService.storeNumber_of setting storeId) = 3%nat.
Proof.
  assert (H : forall s, String.length (JS.slice0 3 (JS.padStart 3 "0" s)) = 3%nat).
  { intros s. unfold JS.slice0. apply JS.substring0_length.
    rewrite JS.padStart_length. lia. }
  unfold OrderService.storeNumber_of, OrderService.storeNumber_of_id.
  destruct setting as [value|]; [destruct (JS.JSON_parse value)|]; apply H.
Qed.

(** The receipt of an order with a regular code shows that order's branch
    and sequence: the store number printed is the branch field of the code
    as the allocator composed it, and the ticket number is the first
    character of the code followed by its sequence field, so the code reads
    ticket letter, store number, date, time and node, ticket digits. *)
Theorem receipt_reads_back_order_code orderType storeId env
    (s : gmap string JS.text) dailySequence :
  storeNumber (of_ascii (OrderService.composed orderType storeId env s dailySequence)) =
    of_ascii (OrderService.storeNumber_of (s !! "store_number") storeId) /\
  exists middle,
    length middle =
      (String.length (OrderService.dateStr (OrderService.now env)) +
       String.length (OrderService.timeStr (OrderService.now env)) +
       String.length (OrderService.two (OrderService.random100 env)))%nat /\
    of_ascii (OrderService.composed orderType storeId env s dailySequence) =
      take 1 (ticketNumber orderType dailySequence) ++
      storeNumber (of_ascii (OrderService.composed orderType storeId env s dailySequence)) ++
      middle ++ drop 1 (ticketNumber orderType dailySequence).
Proof.
  pose proof (storeNumber_of_length (s !! "store_number") storeId) as Hlen.
  assert (Hletter : exists c, of_ascii (OrderService.businessCode orderType) = [c]).
  { unfold OrderService.businessCode. destruct (orderType =? 1); eexists; reflexivity. }
  destruct Hletter as [c Hc].
  assert (Hstore :
    storeNumber (of_ascii (OrderService.composed orderType storeId env s dailySequence)) =
    of_ascii (OrderService.storeNumber_of (s !! "store_number") storeId)).
  { unfold storeNumber, OrderService.composed. rewrite !of_ascii_app, Hc.
    rewrite !length_app, !of_ascii_length, Hlen. cbn [length app drop].
    replace (4 <=? _)%nat with true by (symmetry; apply Nat.leb_le; lia).
    rewrite drop_0, take_app_length' by (rewrite of_ascii_length; symmetry; exact Hlen).
    reflexivity. }
  split; [exact Hstore|].
  exists (of_ascii (OrderService.dateStr (OrderService.now env)) ++
          of_ascii (OrderService.timeStr (OrderService.now env)) ++
          of_ascii (OrderService.two (OrderService.random100 env))).
  split; [rewrite !length_app, !of_ascii_length; lia|].
  rewrite Hstore. unfold ticketNumber, OrderService.composed.
  change (of_ascii (if orderType =? 1 then "T" else "D"))
    with (of_ascii (OrderService.businessCode orderType)).
  rewrite !of_ascii_app, Hc. cbn [app take drop].
  rewrite <- !app_assoc. reflexivity.
Qed.


(** *** The fallback code on the receipt *)

Lemma substring_all_digits (s : string) :
  forall n m, JS.all_digits s = true -> JS.all_digits (String.substring n m s) = true.
Proof.
  induction s as [|c s IH]; intros n m Hs.
  - destruct n, m; reflexivity.
  - cbn [JS.all_digits] in Hs. apply andb_prop in Hs as [Hc Hs].
    destruct n as [|n]; [destruct m as [|m]|]; cbn [String.substring].
    + reflexivity.
    + cbn [JS.all_digits]. rewrite Hc. apply IH, Hs.
    + apply IH, Hs.
Qed.

Lemma substring_length (s : string) :
  forall n m, (n + m <= String.length s)%nat ->
  String.length (String.substring n m s) = m.
Proof.
  induction s as [|c s IH]; intros n m Hlen; cbn [String.length] in Hlen.
  - destruct n, m; try lia; reflexivity.
  - destruct n as [|n]; [destruct m as [|m]|]; cbn [String.substring String.length].
    + reflexivity.
    + f_equal. apply IH. lia.
    + apply IH. lia.
Qed.

Lemma String_Z_eight_digits n :
  10 ^ 7 <= n -> (8 <= String.length (JS.String_Z n))%nat.
Proof.
  intros Hn. unfold JS.String_Z. destruct (n <? 0) eqn:E; [apply Z.ltb_lt in E; lia|].
  unfold JS.digits.
  pose proof (JS.digits_fuel_length_ge (S (Z.to_nat (Z.log2 n))) n "" 7) as Hge.
  assert (Hlog : 23 <= Z.log2 n).
  { change 23 with (Z.log2 (10 ^ 7)). apply Z.log2_le_mono. exact Hn. }
  cbn [String.length] in Hge. apply Hge; [exact Hn | lia].
Qed.

Lemma of_ascii_digit (c : ascii) :
  JS.is_digit c = true -> 48 <= Z.of_nat (nat_of_ascii c) <= 57.
Proof.
  unfold JS.is_digit. cbv zeta. intros H. apply andb_prop in H as [Hlo Hhi].
  apply Nat.leb_le in Hlo, Hhi. lia.
Qed.

(** An order created with the fallback code of the allocator still gets a
    receipt. With a clock reading of eight digits or more, the store number
    printed on it is the letter F followed by two digits of the clock
    reading, and the ticket number is the letter of the order type followed
    by 0000. *)
Theorem fallback_code_on_the_receipt (env : OrderService.Env) (orderType : Z) :
  10 ^ 7 <= OrderService.Date_now env ->
  (exists d1 d2,
     storeNumber (of_ascii (OrderService.orderNumber (OrderService.fallback env))) =
       [70; d1; d2] /\
     48 <= d1 <= 57 /\ 48 <= d2 <= 57) /\
  ticketNumber orderType (OrderService.dailySequence (OrderService.fallback env)) =
    of_ascii (OrderService.businessCode orderType) ++ of_ascii "0000".
Proof.
  intros Hnow. split; [|reflexivity].
  pose proof (String_Z_eight_digits _ Hnow) as Hlen.
  assert (Hdigits : JS.all_digits (JS.String_Z (OrderService.Date_now env)) = true).
  { apply JS.String_Z_all_digits. lia. }
  unfold OrderService.fallback. cbn [OrderService.orderNumber].
  set (tail := JS.slice_last 8 (JS.String_Z (OrderService.Date_now env))).
  assert (Htail_len : String.length tail = 8%nat).
  { subst tail. unfold JS.slice_last. apply substring_length. lia. }
  assert (Htail : JS.all_digits tail = true).
  { subst tail. unfold JS.slice_last. apply substring_all_digits, Hdigits. }
  destruct tail as [|a [|b rest]]; cbn [String.length] in Htail_len; try lia.
  cbn [JS.all_digits] in Htail.
  apply andb_prop in Htail as [Ha Htail]. apply andb_prop in Htail as [Hb _].
  exists (Z.of_nat (nat_of_ascii a)), (Z.of_nat (nat_of_ascii b)).
  split; [|split; apply of_ascii_digit; assumption].
  unfold storeNumber. rewrite of_ascii_length.
  change ("OF" +:+ String a (String b rest))
    with (String "O" (String "F" (String a (String b rest)))).
  cbn [String.length]. reflexivity.
Qed.

(** At the clock reading of the sample run, 1759118439092. *)
Lemma fallback_code_on_the_receipt_witness :
  (exists d1 d2,
     storeNumber (of_ascii (OrderService.orderNumber
                              (OrderService.fallback OrderService.sample_env))) =
       [70; d1; d2] /\
     48 <= d1 <= 57 /\ 48 <= d2 <= 57) /\
  ticketNumber 0 (OrderService.dailySequence (OrderService.fallback OrderService.sample_env)) =
    of_ascii (OrderService.businessCode 0) ++ of_ascii "0000".
Proof.
  apply (fallback_code_on_the_receipt OrderService.sample_env 0).
  vm_compute. discriminate.
Defined.

End PrinterService.
